(** * Beszel: agent stats cache, hub key pair and API, alert engine

    A shallow embedding of the Go sources
      - beszel/internal/agent/agent.go    (Agent.gatherStats)
      - beszel/internal/agent/health.go   (Health)
      - package hub                       (Hub.GetSSHKey, the getkey route)
      - package alerts                    (status alert worker and handlers)
    followed by the properties established about them.

    Conventions.  Go's [int] and [time.Duration] are 64-bit signed integers:
    they are carried as [Z] and every arithmetic operation wraps explicitly.
    A [time.Time] is an instant counted in nanoseconds from Go's zero Time.
    A Go [error] is a message, [nil] being [None].  Calls into libraries and
    into functions that are not embedded here are answered by an environment
    record handed to the embedded function; effects that matter to a
    property are recorded in a trace. *)

From Stdlib Require Import ZArith String Ascii List Bool Lia.
From stdpp Require Import base option list gmap fin_maps strings.

Local Open Scope string_scope.
Local Open Scope Z_scope.

(* ===================================================================== *)
(** ** Go primitives *)
(* ===================================================================== *)

Module Go.

(** [error]: [None] is the nil error. *)
Definition error : Type := option string.

(** The pair [(value, err)] a fallible call returns. *)
Inductive result (A : Type) : Type :=
| Ok (a : A)
| Err (msg : string).
Arguments Ok {A} a.
Arguments Err {A} msg.

(** Two's complement reduction to 64 bits. *)
Definition wrap64 (z : Z) : Z := (z + 2 ^ 63) mod 2 ^ 64 - 2 ^ 63.

Definition maxInt64 : Z := 2 ^ 63 - 1.
Definition minInt64 : Z := - 2 ^ 63.

Definition int64_add (a b : Z) : Z := wrap64 (a + b).
Definition int64_mul (a b : Z) : Z := wrap64 (a * b).

(** The builtin [max] on ints. *)
Definition max (a b : Z) : Z := Z.max a b.

(** [time.Duration] and its constants. *)
Definition Duration : Type := Z.
Definition Nanosecond : Duration := 1.
Definition Second : Duration := 1000000000.
Definition Minute : Duration := 60 * Second.

(** [time.Time]. *)
Definition Time : Type := Z.
Definition zeroTime : Time := 0.

(** [t.Add(d)]. *)
Definition Time_Add (t : Time) (d : Duration) : Time := t + d.

(** [t.Sub(u)]: the difference, saturated to the range of a Duration. *)
Definition Time_Sub (t u : Time) : Duration :=
  if maxInt64 <? t - u then maxInt64
  else if t - u <? minInt64 then minInt64
  else t - u.

(** [t.After(u)]. *)
Definition Time_After (t u : Time) : bool := u <? t.

(** The string "\n". *)
Definition newline : string := String "010" EmptyString.

(** [strings.HasSuffix]. *)
Definition HasSuffix (s suffix : string) : bool :=
  (String.length suffix <=? String.length s)%nat &&
  String.eqb
    (String.substring (String.length s - String.length suffix)
                      (String.length suffix) s)
    suffix.

(** [strings.TrimSuffix]. *)
Definition TrimSuffix (s suffix : string) : string :=
  if HasSuffix s suffix
  then String.substring 0 (String.length s - String.length suffix) s
  else s.

(** [url.PathEscape]: every byte is percent-encoded except letters,
    digits, [-_.~] and the sub-delimiters a path segment may carry. *)
Definition in_range (lo hi c : ascii) : bool :=
  (nat_of_ascii lo <=? nat_of_ascii c)%nat &&
  (nat_of_ascii c <=? nat_of_ascii hi)%nat.

Fixpoint mem_ascii (c : ascii) (s : string) : bool :=
  match s with
  | EmptyString => false
  | String d r => Ascii.eqb c d || mem_ascii c r
  end.

Definition shouldEscape_pathSegment (c : ascii) : bool :=
  if in_range "a" "z" c || in_range "A" "Z" c || in_range "0" "9" c
  then false
  else if mem_ascii c "-_.~" then false
  else if mem_ascii c "$&+,/:;=?@" then mem_ascii c "/;,?"
  else true.

Definition upperhex (n : nat) : ascii :=
  match String.get n "0123456789ABCDEF" with
  | Some c => c
  | None => "0"%char
  end.

Fixpoint PathEscape (s : string) : string :=
  match s with
  | EmptyString => EmptyString
  | String c r =>
      if shouldEscape_pathSegment c
      then String "%" (String (upperhex (nat_of_ascii c / 16))
                        (String (upperhex (nat_of_ascii c mod 16))
                           (PathEscape r)))
      else String c (PathEscape r)
  end.

(** The process environment; [os.LookupEnv]. *)
Abbreviation Environ := (gmap string string).

Definition os_LookupEnv (environ : Environ) (key : string) : string * bool :=
  match environ !! key with
  | Some value => (value, true)
  | None => (EmptyString, false)
  end.

(** [strings.ToLower] on a string of ASCII bytes.  A byte outside ASCII is
    kept as it is; Go lower-cases no rune outside ASCII to one of the
    letters of "debug", "warn" or "error", the words the result is
    compared with. *)
Definition lower (c : ascii) : ascii :=
  if in_range "A" "Z" c then ascii_of_nat (nat_of_ascii c + 32) else c.

Fixpoint ToLower (s : string) : string :=
  match s with
  | EmptyString => EmptyString
  | String c r => String (lower c) (ToLower r)
  end.

Fixpoint is_ascii (s : string) : bool :=
  match s with
  | EmptyString => true
  | String c r => (nat_of_ascii c <? 128)%nat && is_ascii r
  end.

(** [strings.Split(s, sep)] for a separator of one byte. *)
Fixpoint SplitOn (sep : ascii) (s : string) : list string :=
  match s with
  | EmptyString => [EmptyString]
  | String c r =>
      if Ascii.eqb c sep then EmptyString :: SplitOn sep r
      else match SplitOn sep r with
           | first :: others => String c first :: others
           | [] => [String c EmptyString]
           end
  end.

(** [strings.HasPrefix] and [strings.Contains]. *)
Definition HasPrefix (s prefix : string) : bool := String.prefix prefix s.

Fixpoint Contains (s substr : string) : bool :=
  HasPrefix s substr
  || match s with
     | EmptyString => false
     | String _ r => Contains r substr
     end.

(** [strings.Replace(s, old, new, n)] for a non-empty [old]: the first [n]
    occurrences, left to right and without overlap, every one of them when
    [n] is [None] ([strings.ReplaceAll]).  [skip] counts the bytes of an
    occurrence still to pass over. *)
Fixpoint replace_go (old new : string) (n : option nat) (skip : nat)
    (s : string) : string :=
  match s with
  | EmptyString => EmptyString
  | String c r =>
      match skip with
      | S k => replace_go old new n k r
      | O =>
          match n with
          | Some O => s
          | _ =>
              if String.prefix old s
              then String.append new
                     (replace_go old new (pred <$> n) (String.length old - 1) r)
              else String c (replace_go old new n 0 r)
          end
      end
  end.

Definition Replace (s old new : string) (n : nat) : string :=
  replace_go old new (Some n) 0 s.

Definition ReplaceAll (s old new : string) : string :=
  replace_go old new None 0 s.

(** Decoding of percent-encoded bytes, the inverse of [PathEscape]: a
    percent sign followed by two hexadecimal digits gives back one byte. *)
Definition unhex (c : ascii) : nat :=
  if in_range "0" "9" c then nat_of_ascii c - 48
  else if in_range "A" "F" c then nat_of_ascii c - 55
  else if in_range "a" "f" c then nat_of_ascii c - 87
  else 0.

Fixpoint unescape (s : string) : string :=
  match s with
  | EmptyString => EmptyString
  | String c r =>
      if Ascii.eqb c "%" then
        match r with
        | String a (String b r') =>
            String (ascii_of_nat (16 * unhex a + unhex b)) (unescape r')
        | _ => String c (unescape r)
        end
      else String c (unescape r)
  end.

End Go.

(** The outcome of a call that may panic. *)
Inductive outcome (A : Type) : Type :=
| Returned (a : A)
| Panicked (msg : string).
Arguments Returned {A} a.
Arguments Panicked {A} msg.

(* ===================================================================== *)
(** ** package agent *)
(* ===================================================================== *)

Module Agent.

(** Of the structs of beszel/internal/entities/system, gatherStats reads
    [Root] and [DiskTotal] of an [FsStats] and writes [Stats.ExtraFs] and
    the three fields of [CombinedData]; everything else travels as a
    payload of named readings. *)
Definition Payload : Type := list (string * Z).

Record FsStats := mkFsStats {
  Root : bool;
  DiskTotal : Z;
  fs_payload : Payload
}.

Record Stats := mkStats {
  stats_payload : Payload;
  ExtraFs : gmap string FsStats
}.

Record CombinedData := mkCombinedData {
  cd_Stats : Stats;
  cd_Info : Payload;
  cd_Containers : list Payload          (* the nil slice is [] *)
}.

(** The fields of [Agent] that gatherStats touches.  [data] is a pointer
    and may be nil. *)
Record Agent := mkAgent {
  fsStats : gmap string FsStats;
  systemInfo : Payload;
  data : option CombinedData;
  updated : Go.Time;
  sshUser : string
}.

Definition cacheTime : Go.Duration := 60 * Go.Second.

(** What the machine answers during one call of gatherStats:
    the clock on entry and on exit, the result of [a.getSystemStats()]
    together with the filesystem table and the system info that call
    leaves in the agent, and the result of
    [a.dockerManager.getDockerStats()]. *)
Record World := mkWorld {
  now_entry : Go.Time;
  getSystemStats : Stats;
  fsStats_after : gmap string FsStats;
  systemInfo_after : Payload;
  getDockerStats : Go.result (list Payload);
  now_exit : Go.Time
}.

Inductive Effect :=
| ELog (level msg : string)
| ECollectSystem
| ECollectDocker.

(** [time.Since(t)] at clock reading [now]. *)
Definition time_Since (now t : Go.Time) : Go.Duration := Go.Time_Sub now t.

(** The loop over [a.fsStats] that fills [ExtraFs]. *)
Definition extraFs (fs : gmap string FsStats) : gmap string FsStats :=
  filter (λ kv, negb (Root kv.2) && (0 <? DiskTotal kv.2) = true) fs.

(** The agent once [a.getSystemStats()] has returned. *)
Definition after_getSystemStats (w : World) (a : Agent) : Agent :=
  {| fsStats := fsStats_after w;
     systemInfo := systemInfo_after w;
     data := data a;
     updated := updated a;
     sshUser := sshUser a |}.

(** The snapshot a collection writes into the buffer: the struct literal
    with [Stats] and [Info], then [Containers] when docker answers, then
    [Stats.ExtraFs]. *)
Definition fresh (w : World) (a : Agent) : CombinedData :=
  let a := after_getSystemStats w a in
  let d0 := {| cd_Stats := getSystemStats w;
               cd_Info := systemInfo a;
               cd_Containers := [] |} in
  let d1 := match getDockerStats w with
            | Go.Ok containerStats =>
                {| cd_Stats := cd_Stats d0;
                   cd_Info := cd_Info d0;
                   cd_Containers := containerStats |}
            | Go.Err _ => d0
            end in
  {| cd_Stats := {| stats_payload := stats_payload (cd_Stats d1);
                    ExtraFs := extraFs (fsStats a) |};
     cd_Info := cd_Info d1;
     cd_Containers := cd_Containers d1 |}.

Definition fresh_trace (w : World) : list Effect :=
  [ELog "DEBUG" "Getting stats"; ECollectSystem;
   ELog "DEBUG" "System stats"; ECollectDocker;
   ELog "DEBUG" (match getDockerStats w with
                 | Go.Ok _ => "Docker stats"
                 | Go.Err _ => "Error getting docker stats"
                 end);
   ELog "DEBUG" "Extra filesystems"].

(** The guard of the [if]: [time.Since(a.updated) < cacheTime &&
    user != a.sshUser && a.data != nil]. *)
Definition useCache (w : World) (user : string) (a : Agent) : bool :=
  (time_Since (now_entry w) (updated a) <? cacheTime)
  && negb (String.eqb user (sshUser a))
  && bool_decide (data a ≠ None).

(** [func (a *Agent) gatherStats(ctx context.Context) *system.CombinedData].
    [user] is [ctx.Value("user")] when that is a string, [None] when the
    type assertion fails.  The result is the content of the buffer the
    returned pointer designates, the agent afterwards, and the trace.
    The mutex makes a call atomic. *)
Definition gatherStats (w : World) (user : option string) (a : Agent)
  : outcome (CombinedData * Agent * list Effect) :=
  match user with
  | None => Panicked "interface conversion: interface {} is nil, not string"
  | Some user =>
      match useCache w user a, data a with
      | true, Some cached =>
          Returned (cached, a, [ELog "INFO" "Using cached stats"])
      | _, None =>
          Panicked "invalid memory address or nil pointer dereference"
      | false, Some _ =>
          Returned (fresh w a,
                    {| fsStats := fsStats (after_getSystemStats w a);
                       systemInfo := systemInfo (after_getSystemStats w a);
                       data := Some (fresh w a);
                       updated := now_exit w;
                       sshUser := user |},
                    fresh_trace w)
      end
  end.

(** The agent a fresh collection for [user] leaves behind. *)
Definition recollected (w : World) (user : string) (a : Agent) : Agent :=
  {| fsStats := fsStats_after w;
     systemInfo := systemInfo_after w;
     data := Some (fresh w a);
     updated := now_exit w;
     sshUser := user |}.

(** A call collected afresh when its trace contains a collection. *)
Definition collected (tr : list Effect) : bool :=
  existsb (λ e, match e with
                | ECollectSystem | ECollectDocker => true
                | ELog _ _ => false
                end) tr.

(** *** health.go *)

Definition Conn : Type := nat.

(** [GetAddress] and [GetNetwork] belong to the server part of the package
    and [net.DialTimeout] to the Go library: all three are answered by the
    environment. *)
Record NetEnv := mkNetEnv {
  GetAddress : string → string;
  GetNetwork : string → string;
  DialTimeout : string → string → Go.Duration → Go.result Conn
}.

Inductive NetOp :=
| OpDial (network addr : string) (timeout : Go.Duration)
| OpHandshake (c : Conn)
| OpRead (c : Conn)
| OpWrite (c : Conn) (bytes : string)
| OpClose (c : Conn)
| OpLogError (msg err : string).

(** [func Health() int]. *)
Definition Health (env : NetEnv) : Z * list NetOp :=
  let addr := GetAddress env "" in
  let network := GetNetwork env addr in
  match DialTimeout env network addr (2 * Go.Second) with
  | Go.Err err =>
      (1, [OpDial network addr (2 * Go.Second);
           OpLogError "Health check failed" err])
  | Go.Ok conn =>
      (0, [OpDial network addr (2 * Go.Second); OpClose conn])
  end.

(** An operation that moves data or authenticates. *)
Definition exchanges (op : NetOp) : bool :=
  match op with
  | OpHandshake _ | OpRead _ | OpWrite _ _ => true
  | _ => false
  end.

(** *** GetEnv and NewAgent *)

(** [func GetEnv(key string) (value string, exists bool)]. *)
Definition GetEnv (environ : Go.Environ) (key : string) : string * bool :=
  let '(value, exists_) := Go.os_LookupEnv environ ("BESZEL_AGENT_" +:+ key) in
  if exists_ then (value, exists_)
  else Go.os_LookupEnv environ key.

(** The fields of [Agent] that NewAgent fills from the environment.
    [sensorsContext] is the override of the sys location, absent for
    [context.Background()]; [sensorsWhitelist] is a map used as a set and
    may be nil. *)
Record Setup := mkSetup {
  debug : bool;
  memCalc : string;
  sensorsContext : option string;
  sensorsWhitelist : option (gset string)
}.

Inductive SetupEffect :=
| SSetLogLevel (level : string)
| SLog (level msg : string)
| SInitSystemInfo
| SInitDiskInfo
| SInitNetIoStats
| SNewDockerManager
| SNewGPUManager.

(** What the initialisers leave in the agent: the host info, the
    filesystem table, and the error of NewGPUManager if any. *)
Record Initializers := mkInitializers {
  init_systemInfo : Payload;
  init_fsStats : gmap string FsStats;
  init_gpu : Go.error
}.

(** The [switch] on the lower-cased LOG_LEVEL: the debug flag and the
    level handed to slog. *)
Definition logLevel (logLevelStr : string) : bool * list SetupEffect :=
  let lowered := Go.ToLower logLevelStr in
  if String.eqb lowered "debug" then (true, [SSetLogLevel "DEBUG"])
  else if String.eqb lowered "warn" then (false, [SSetLogLevel "WARN"])
  else if String.eqb lowered "error" then (false, [SSetLogLevel "ERROR"])
  else (false, []).

(** The loop over [strings.Split(sensors, ",")]. *)
Definition parseSensors (sensors : string) : gset string :=
  foldl (λ whitelist sensor,
           if String.eqb sensor "" then whitelist
           else {[sensor]} ∪ whitelist)
        ∅ (Go.SplitOn "," sensors).

(** [func NewAgent() *Agent].  [w] answers the collection made when
    debugging, whose context is [context.Background()] and so carries no
    "user".  With SYS_SENSORS set, [context.WithValue] is called on
    [agent.sensorsContext], which is still the nil interface: it panics. *)
Definition NewAgent (environ : Go.Environ) (init : Initializers) (w : World)
  : outcome (Setup * Agent * list SetupEffect) :=
  let memCalc := (GetEnv environ "MEM_CALC").1 in
  let '(debug, levelEffects) :=
    match GetEnv environ "LOG_LEVEL" with
    | (logLevelStr, true) => logLevel logLevelStr
    | (_, false) => (false, [])
    end in
  match GetEnv environ "SYS_SENSORS" with
  | (sysSensors, true) => Panicked "cannot create context from nil parent"
  | (_, false) =>
      let sensorsContext : option string := None in
      let sensorsWhitelist :=
        match GetEnv environ "SENSORS" with
        | (sensors, true) => Some (parseSensors sensors)
        | (_, false) => None
        end in
      let setup := {| debug := debug;
                      memCalc := memCalc;
                      sensorsContext := sensorsContext;
                      sensorsWhitelist := sensorsWhitelist |} in
      let agent := {| fsStats := init_fsStats init;
                      systemInfo := init_systemInfo init;
                      data := Some {| cd_Stats := {| stats_payload := [];
                                                     ExtraFs := ∅ |};
                                      cd_Info := [];
                                      cd_Containers := [] |};
                      updated := Go.zeroTime;
                      sshUser := "" |} in
      let effects :=
        (levelEffects ++ [SLog "DEBUG" "beszel.Version"]
         ++ [SInitSystemInfo; SInitDiskInfo; SInitNetIoStats;
             SNewDockerManager; SNewGPUManager]
         ++ match init_gpu init with
            | Some _ => [SLog "DEBUG" "GPU"]
            | None => []
            end)%list in
      if debug then
        match gatherStats w None agent with
        | Panicked msg => Panicked msg
        | Returned (_, agent, _) =>
            Returned (setup, agent, (effects ++ [SLog "DEBUG" "Stats"])%list)
        end
      else Returned (setup, agent, effects)
  end.

End Agent.

(* ===================================================================== *)
(** ** package hub *)
(* ===================================================================== *)

Module Hub.

(** The fields of [Hub] used below; [DataDir] is what [h.DataDir()]
    answers. *)
Record Hub := mkHub {
  DataDir : string;
  pubKey : string
}.

(** The files of the data directory: path to content.  [os.ReadFile]
    fails exactly on a path that is not there. *)
Abbreviation FS := (gmap string string).

Definition os_ReadFile (fs : FS) (path : string) : Go.result string :=
  match fs !! path with
  | Some content => Go.Ok content
  | None => Go.Err ("open " +:+ path +:+ ": no such file or directory")
  end.

(** The answers of crypto/ed25519, x/crypto/ssh, encoding/pem and of the
    operating system when a file is created or written. *)
Record KeyEnv := mkKeyEnv {
  ed25519_GenerateKey : Go.result (string * string);  (* pubKey, privKey *)
  ssh_MarshalPrivateKey : string → Go.result string;  (* the PEM block *)
  pem_Encode : string → Go.result string;             (* the bytes written *)
  ssh_NewPublicKey : string → Go.result string;
  ssh_MarshalAuthorizedKey : string → string;
  os_Create : string → Go.error;
  file_Write : string → string → Go.error
}.

Inductive Effect :=
| EGenerateKey
| ELogInfo (msg : string).

Definition privPath (dataDir : string) : string := dataDir +:+ "/id_ed25519".
Definition pubPath (dataDir : string) : string := dataDir +:+ "/id_ed25519.pub".

(** The part of GetSSHKey after the existing key was not found. *)
Definition generateKeyPair (env : KeyEnv) (h : Hub) (fs : FS)
  : Go.result string * Hub * FS * list Effect :=
  let dataDir := DataDir h in
  match ed25519_GenerateKey env with
  | Go.Err e => (Go.Err e, h, fs, [EGenerateKey])
  | Go.Ok (pubKey, privKey) =>
  match ssh_MarshalPrivateKey env privKey with
  | Go.Err e => (Go.Err e, h, fs, [EGenerateKey])
  | Go.Ok privKeyBytes =>
  match os_Create env (privPath dataDir) with
  | Some e => (Go.Err e, h, fs, [EGenerateKey])
  | None =>
  let fs1 := <[privPath dataDir := ""]> fs in
  match pem_Encode env privKeyBytes with
  | Go.Err e => (Go.Err e, h, fs1, [EGenerateKey])
  | Go.Ok written =>
  let fs2 := <[privPath dataDir := written]> fs1 in
  match ssh_NewPublicKey env pubKey with
  | Go.Err e => (Go.Err e, h, fs2, [EGenerateKey])
  | Go.Ok publicKey =>
  let pubKeyBytes := ssh_MarshalAuthorizedKey env publicKey in
  let h1 := {| DataDir := DataDir h;
               pubKey := Go.TrimSuffix pubKeyBytes Go.newline |} in
  match os_Create env (pubPath dataDir) with
  | Some e => (Go.Err e, h1, fs2, [EGenerateKey])
  | None =>
  let fs3 := <[pubPath dataDir := ""]> fs2 in
  match file_Write env (pubPath dataDir) pubKeyBytes with
  | Some e => (Go.Err e, h1, fs3, [EGenerateKey])
  | None =>
  let fs4 := <[pubPath dataDir := pubKeyBytes]> fs3 in
  (os_ReadFile fs4 (privPath dataDir), h1, fs4,
   [EGenerateKey;
    ELogInfo "ed25519 SSH key pair generated successfully.";
    ELogInfo ("Private key saved to: " +:+ privPath dataDir);
    ELogInfo ("Public key saved to: " +:+ pubPath dataDir)])
  end end end end end end end.

(** [func (h *Hub) GetSSHKey() ([]byte, error)]. *)
Definition GetSSHKey (env : KeyEnv) (h : Hub) (fs : FS)
  : Go.result string * Hub * FS * list Effect :=
  let dataDir := DataDir h in
  match os_ReadFile fs (privPath dataDir) with
  | Go.Ok existingKey =>
      let h1 := match os_ReadFile fs (pubPath (DataDir h)) with
                | Go.Ok pubKey =>
                    {| DataDir := DataDir h;
                       pubKey := Go.TrimSuffix pubKey Go.newline |}
                | Go.Err _ => h
                end in
      (Go.Ok existingKey, h1, fs, [])
  | Go.Err _ => generateKeyPair env h fs
  end.

Definition generated (tr : list Effect) : bool :=
  existsb (λ e, match e with EGenerateKey => true | ELogInfo _ => false end) tr.

(** *** The route GET /api/beszel/getkey *)

(** [core.RequestInfo]: [Auth] is the authenticated record, nil without
    authentication. *)
Record RequestInfo := mkRequestInfo {
  Auth : option string
}.

(** [apis.NewForbiddenError(message, data)] builds an [ApiError] of status
    403; [e.JSON(status, body)] writes a JSON object. *)
Inductive Response :=
| ApiError (status : Z) (message : string) (rawData : option string)
| JSON (status : Z) (body : gmap string string).

Definition StatusOK : Z := 200.
Definition StatusForbidden : Z := 403.

Definition NewForbiddenError (message : string) (rawData : option string)
  : Response := ApiError StatusForbidden message rawData.

(** The handler registered by registerApiRoutes; [Version] is the
    constant [beszel.Version]. *)
Definition getkey (Version : string) (h : Hub) (info : RequestInfo) : Response :=
  match Auth info with
  | None => NewForbiddenError "Forbidden" None
  | Some _ => JSON StatusOK (<["key" := pubKey h]> {["v" := Version]})
  end.

(** The key is disclosed by a response when that response is a JSON
    object with a "key" entry. *)
Definition discloses_key (r : Response) : bool :=
  match r with
  | JSON _ body => bool_decide (is_Some (body !! "key"))
  | ApiError _ _ _ => false
  end.

(** *** GetEnv, NewHub *)

(** [func GetEnv(key string) (value string, exists bool)]. *)
Definition GetEnv (environ : Go.Environ) (key : string) : string * bool :=
  let '(value, exists_) := Go.os_LookupEnv environ ("BESZEL_HUB_" +:+ key) in
  if exists_ then (value, exists_)
  else Go.os_LookupEnv environ key.

(** The [appURL] that NewHub stores. *)
Definition NewHub_appURL (environ : Go.Environ) : string :=
  (GetEnv environ "APP_URL").1.

(** *** initialize *)

Record PasswordAuthConfig := mkPasswordAuthConfig {
  pa_Enabled : bool;
  IdentityFields : list string
}.

Record OAuth2Config := mkOAuth2Config {
  oa_Enabled : bool;
  Providers : list string
}.

(** The fields of a [core.Collection] that initialize reads or writes; a
    rule is a pointer to a string, nil being [None]. *)
Record Collection := mkCollection {
  PasswordAuth : PasswordAuthConfig;
  OAuth2 : OAuth2Config;
  CreateRule : option string;
  ListRule : option string;
  ViewRule : option string;
  UpdateRule : option string;
  DeleteRule : option string
}.

Record Settings := mkSettings {
  Batch_Enabled : bool;
  Meta_AppURL : string
}.

(** The application as initialize sees it: the live settings and the
    collections as they are saved, by name. *)
Record AppData := mkAppData {
  settings : Settings;
  collections : gmap string Collection
}.

Definition FindCollectionByNameOrId (app : AppData) (name : string)
  : Go.result Collection :=
  match collections app !! name with
  | Some collection => Go.Ok collection
  | None => Go.Err "sql: no rows in result set"
  end.

(** The double quote. *)
Definition quote : string := String "034" EmptyString.

Definition oauth2CreateRule : string := "@request.context = 'oauth2'".

(** The rule [@request.auth.id != ""] and its extensions. *)
Definition authenticatedRule : string :=
  "@request.auth.id != " +:+ quote +:+ quote.

Definition assignedClause : string := " && users.id ?= @request.auth.id".

Definition notReadonlyClause : string :=
  " && @request.auth.role != " +:+ quote +:+ "readonly" +:+ quote.

(** [func (h *Hub) initialize(e *core.ServeEvent) error].  [save] answers
    [e.App.Save]: the error, if any, for a collection of a given name. *)
Definition initialize (environ : Go.Environ)
    (save : string → Collection → Go.error) (appURL : string)
    (app : AppData) : Go.error * AppData :=
  let settings :=
    {| Batch_Enabled := true;
       Meta_AppURL := if String.eqb appURL "" then Meta_AppURL (settings app)
                      else appURL |} in
  let app := {| settings := settings; collections := collections app |} in
  match FindCollectionByNameOrId app "users" with
  | Go.Err err => (Some err, app)
  | Go.Ok usersCollection =>
      let disablePasswordAuth := (GetEnv environ "DISABLE_PASSWORD_AUTH").1 in
      let userCreation := (GetEnv environ "USER_CREATION").1 in
      let usersCollection :=
        {| PasswordAuth :=
             {| pa_Enabled := negb (String.eqb disablePasswordAuth "true");
                IdentityFields := ["email"] |};
           OAuth2 :=
             {| oa_Enabled :=
                  if oa_Enabled (OAuth2 usersCollection)
                  then (0 <? length (Providers (OAuth2 usersCollection)))%nat
                  else false;
                Providers := Providers (OAuth2 usersCollection) |};
           CreateRule := if String.eqb userCreation "true"
                         then Some oauth2CreateRule else None;
           ListRule := ListRule usersCollection;
           ViewRule := ViewRule usersCollection;
           UpdateRule := UpdateRule usersCollection;
           DeleteRule := DeleteRule usersCollection |} in
      match save "users" usersCollection with
      | Some err => (Some err, app)
      | None =>
          let app := {| settings := settings;
                        collections :=
                          <["users" := usersCollection]> (collections app) |} in
          match FindCollectionByNameOrId app "systems" with
          | Go.Err err => (Some err, app)
          | Go.Ok systemsCollection =>
              let shareAllSystems := (GetEnv environ "SHARE_ALL_SYSTEMS").1 in
              let systemsReadRule :=
                if negb (String.eqb shareAllSystems "true")
                then authenticatedRule +:+ assignedClause
                else authenticatedRule in
              let updateDeleteRule := systemsReadRule +:+ notReadonlyClause in
              let systemsCollection :=
                {| PasswordAuth := PasswordAuth systemsCollection;
                   OAuth2 := OAuth2 systemsCollection;
                   CreateRule := CreateRule systemsCollection;
                   ListRule := Some systemsReadRule;
                   ViewRule := Some systemsReadRule;
                   UpdateRule := Some updateDeleteRule;
                   DeleteRule := Some updateDeleteRule |} in
              match save "systems" systemsCollection with
              | Some err => (Some err, app)
              | None =>
                  (None,
                   {| settings := settings;
                      collections :=
                        <["systems" := systemsCollection]> (collections app) |})
              end
          end
      end
  end.

(** *** registerApiRoutes, registerCronJobs, startServer *)

Inductive Handler :=
| HGetKey
| HFirstRun
| HSendTestNotification
| HGetYamlConfig
| HCreateFirstUser
| HDevProxy
| HIndex (indexContent csp : string) (cspExists : bool).

Record Route := mkRoute {
  method : string;
  pattern : string;
  handler : Handler
}.

(** The handler of GET /api/beszel/first-run; [count] is what
    [h.CountRecords("users")] returns at the time of the request. *)
Definition firstRun (count : Z * Go.error) : Z * gmap string bool :=
  let '(total, err) := count in
  (StatusOK,
   {[ "firstRun" := bool_decide (err = None) && (total =? 0) ]}).

(** [func (h *Hub) registerApiRoutes(se *core.ServeEvent) error];
    [count] is what [h.CountRecords("users")] returns at registration. *)
Definition registerApiRoutes (count : Z * Go.error) (router : list Route)
  : Go.error * list Route :=
  let router :=
    (router ++ [ {| method := "GET"; pattern := "/api/beszel/getkey";
                    handler := HGetKey |};
                 {| method := "GET"; pattern := "/api/beszel/first-run";
                    handler := HFirstRun |};
                 {| method := "GET";
                    pattern := "/api/beszel/send-test-notification";
                    handler := HSendTestNotification |};
                 {| method := "GET"; pattern := "/api/beszel/config-yaml";
                    handler := HGetYamlConfig |} ])%list in
  let '(totalUsers, _) := count in
  if totalUsers =? 0
  then (None,
        (router ++ [ {| method := "POST"; pattern := "/api/beszel/create-user";
                        handler := HCreateFirstUser |} ])%list)
  else (None, router).

(** [func (h *Hub) registerCronJobs(_ *core.ServeEvent) error]: the jobs
    added, name and schedule. *)
Definition registerCronJobs (cron : list (string * string))
  : Go.error * list (string * string) :=
  (None,
   (cron ++ [("delete old records", "8 * * * *");
             ("create longer records", "*/10 * * * *")])%list).

Definition staticPaths : list string := ["/static/"; "/assets/"].

Inductive Body :=
| BStatic
| BHTML (status : Z) (content : string)
| BProxy.

Record Reply := mkReply {
  reply_headers : gmap string string;
  reply_body : Body
}.

(** The handler startServer registers outside dev mode; [headers] are the
    response headers set so far. *)
Definition serveIndex (indexContent csp : string) (cspExists : bool)
    (path : string) (headers : gmap string string) : Reply :=
  if existsb (Go.Contains path) staticPaths
  then {| reply_headers :=
            <["Cache-Control" := "public, max-age=2592000"]> headers;
          reply_body := BStatic |}
  else {| reply_headers :=
            if cspExists
            then <["Content-Security-Policy" := csp]>
                   (delete "X-Frame-Options" headers)
            else headers;
          reply_body := BHTML StatusOK indexContent |}.

(** The base path startServer derives from the path of the app URL. *)
Definition basePath (parsedPath : string) : string :=
  Go.TrimSuffix parsedPath "/" +:+ "/".

(** [func (h *Hub) startServer(se *core.ServeEvent) error].  [url_Parse]
    answers the path of the parsed URL or the error of [url.Parse];
    [indexFile] is the content of index.html (empty when it cannot be
    read). *)
Definition startServer (isDev : bool) (url_Parse : string → Go.result string)
    (indexFile Version : string) (environ : Go.Environ) (appURL : string)
    (router : list Route) : Go.error * list Route :=
  if isDev
  then (None,
        (router ++ [ {| method := "GET"; pattern := "/{path...}";
                        handler := HDevProxy |} ])%list)
  else
    match url_Parse appURL with
    | Go.Err err => (Some err, router)
    | Go.Ok parsedPath =>
        let basePath := basePath parsedPath in
        let indexContent := Go.ReplaceAll indexFile "./" basePath in
        let indexContent := Go.Replace indexContent "{{V}}" Version 1 in
        let '(csp, cspExists) := GetEnv environ "CSP" in
        (None,
         (router ++ [ {| method := "GET"; pattern := "/{path...}";
                         handler := HIndex indexContent csp cspExists |} ])%list)
    end.

(** *** StartHub: the hook bound to OnServe *)

(** What the machine answers while the hook runs. *)
Record ServeEnv := mkServeEnv {
  environ : Go.Environ;
  save : string → Collection → Go.error;
  syncSystemsWithConfig : Go.error;
  CountRecords_users : Z * Go.error;
  IsDev : bool;
  url_Parse : string → Go.result string;
  indexFile : string;
  Version : string;
  sm_Initialize : Go.error;
  Next : Go.error
}.

Inductive Step :=
| StepInitialize
| StepSync
| StepRoutes
| StepCron
| StepServer
| StepSystems
| StepNext.

Record Server := mkServer {
  app : AppData;
  router : list Route;
  cron : list (string * string);
  steps : list Step
}.

(** The function bound by [h.App.OnServe().BindFunc] in StartHub. *)
Definition onServe (env : ServeEnv) (sv : Server) : Go.error * Server :=
  let appURL := NewHub_appURL (environ env) in
  let '(err, app1) := initialize (environ env) (save env) appURL (app sv) in
  let sv := {| app := app1; router := router sv; cron := cron sv;
               steps := (steps sv ++ [StepInitialize])%list |} in
  match err with
  | Some err => (Some err, sv)
  | None =>
  let sv := {| app := app sv; router := router sv; cron := cron sv;
               steps := (steps sv ++ [StepSync])%list |} in
  match syncSystemsWithConfig env with
  | Some err => (Some err, sv)
  | None =>
  let '(err, router1) := registerApiRoutes (CountRecords_users env) (router sv) in
  let sv := {| app := app sv; router := router1; cron := cron sv;
               steps := (steps sv ++ [StepRoutes])%list |} in
  match err with
  | Some err => (Some err, sv)
  | None =>
  let '(err, cron1) := registerCronJobs (cron sv) in
  let sv := {| app := app sv; router := router sv; cron := cron1;
               steps := (steps sv ++ [StepCron])%list |} in
  match err with
  | Some err => (Some err, sv)
  | None =>
  let '(err, router2) :=
    startServer (IsDev env) (url_Parse env) (indexFile env) (Version env)
      (environ env) appURL (router sv) in
  let sv := {| app := app sv; router := router2; cron := cron sv;
               steps := (steps sv ++ [StepServer])%list |} in
  match err with
  | Some err => (Some err, sv)
  | None =>
  let sv := {| app := app sv; router := router sv; cron := cron sv;
               steps := (steps sv ++ [StepSystems])%list |} in
  match sm_Initialize env with
  | Some err => (Some err, sv)
  | None =>
      (Next env,
       {| app := app sv; router := router sv; cron := cron sv;
          steps := (steps sv ++ [StepNext])%list |})
  end end end end end end.

End Hub.

(* ===================================================================== *)
(** ** package alerts *)
(* ===================================================================== *)

Module Alerts.

(** A record of the "systems" collection as HandleStatusAlerts reads it:
    [Id], [GetString("name")], [GetString("status")]. *)
Record SystemRecord := mkSystemRecord {
  sys_Id : string;
  sys_name : string;
  sys_status : string
}.

(** A record of the "alerts" collection: [Id], the columns the query of
    getSystemStatusAlerts filters on, [GetInt("min")] (a Go int) and the
    relation [user]. *)
Record AlertRecord := mkAlertRecord {
  Id : string;
  system : string;
  name : string;
  min : Z;
  user : string
}.

Record UserRecord := mkUserRecord {
  user_Id : string
}.

Record alertTask := mkAlertTask {
  action : string;                 (* "schedule" or "cancel" *)
  task_systemName : string;
  task_alertRecord : AlertRecord;
  delay : Go.Duration
}.

Record alertInfo := mkAlertInfo {
  systemName : string;
  alertRecord : AlertRecord;
  expireTime : Go.Time
}.

Record AlertMessageData := mkAlertMessageData {
  UserID : string;
  Title : string;
  Message : string;
  Link : string;
  LinkText : string
}.

(** What [am.app] and [am.sendAlert] answer:
    - [alerts_collection] and [find_error]: the rows of "alerts" and the
      error, if any, with which [FindAllRecords] fails;
    - [ExpandRecord]: the map of failed expansions and the expanded
      relations of the record ([ExpandedOne] reads the latter);
    - [AppURL]: [Settings().Meta.AppURL];
    - [sendAlert]: the error returned by the delivery ([am.sendAlert],
      the notification channel). *)
Record App := mkApp {
  alerts_collection : list AlertRecord;
  find_error : option string;
  ExpandRecord : AlertRecord → gmap string string * gmap string UserRecord;
  AppURL : string;
  sendAlert : AlertMessageData → Go.error
}.

(** The trace of an alert manager: status alerts raised (a call of
    sendStatusAlert), messages handed to sendAlert, errors logged. *)
Inductive Event :=
| EvStatusAlert (alertStatus systemName rule : string)
| EvSendAlert (alertStatus rule : string) (data : AlertMessageData)
| EvLogError (msg err : string).

(** [pendingAlerts] is the sync.Map from rule id to [*alertInfo];
    [alertQueue] is the channel, oldest task first.  A send appends to the
    queue and the worker takes the head: the sender never waits here,
    whereas on a channel without buffer it waits for the worker to
    receive, which is the interleaving where the dequeue follows at
    once. *)
Record AlertManager := mkAlertManager {
  pendingAlerts : gmap string alertInfo;
  alertQueue : list alertTask;
  trace : list Event
}.

(** Modelled from the spec: the body of the constructor NewAlertManager
    is not embedded; pending alerts are memory-resident only, so the
    manager starts with an empty map, and with an empty queue. *)
Definition NewAlertManager : AlertManager :=
  {| pendingAlerts := ∅; alertQueue := []; trace := [] |}.

Definition with_pending (f : gmap string alertInfo → gmap string alertInfo)
    (am : AlertManager) : AlertManager :=
  {| pendingAlerts := f (pendingAlerts am);
     alertQueue := alertQueue am;
     trace := trace am |}.

(** [am.alertQueue <- task]. *)
Definition send (task : alertTask) (am : AlertManager) : AlertManager :=
  {| pendingAlerts := pendingAlerts am;
     alertQueue := alertQueue am ++ [task];
     trace := trace am |}.

Definition emit (evs : list Event) (am : AlertManager) : AlertManager :=
  {| pendingAlerts := pendingAlerts am;
     alertQueue := alertQueue am;
     trace := trace am ++ evs |}.

Definition emoji_up : string :=
  String (ascii_of_nat 226) (String (ascii_of_nat 156)
    (String (ascii_of_nat 133) "")).                      (* U+2705 *)
Definition emoji_down : string :=
  String (ascii_of_nat 240) (String (ascii_of_nat 159)
    (String (ascii_of_nat 148) (String (ascii_of_nat 180) ""))). (* U+1F534 *)

(** The message sendStatusAlert builds for a resolved user. *)
Definition statusMessage (app : App) (alertStatus systemName : string)
    (user : UserRecord) : AlertMessageData :=
  let emoji := if String.eqb alertStatus "up" then emoji_up else emoji_down in
  let title := "Connection to " +:+ systemName +:+ " is " +:+ alertStatus
               +:+ " " +:+ emoji in
  let message := Go.TrimSuffix title emoji in
  {| UserID := user_Id user;
     Title := title;
     Message := message;
     Link := AppURL app +:+ "/system/" +:+ Go.PathEscape systemName;
     LinkText := "View " +:+ systemName |}.

(** [func (am *AlertManager) sendStatusAlert(alertStatus, systemName
    string, alertRecord *core.Record) error]. *)
Definition sendStatusAlert (app : App) (alertStatus systemName : string)
    (alertRecord : AlertRecord) (am : AlertManager)
  : Go.error * AlertManager :=
  let am := emit [EvStatusAlert alertStatus systemName (Id alertRecord)] am in
  let '(errs, expand) := ExpandRecord app alertRecord in
  if (0 <? size errs)%nat then (errs !! "user", am)
  else
    match expand !! "user" with
    | None => (None, am)
    | Some user =>
        let data := statusMessage app alertStatus systemName user in
        (sendAlert app data,
         emit [EvSendAlert alertStatus (Id alertRecord) data] am)
    end.

(** [func (am *AlertManager) getSystemStatusAlerts(systemID string)]. *)
Definition getSystemStatusAlerts (app : App) (systemID : string)
  : Go.result (list AlertRecord) :=
  match find_error app with
  | Some err => Go.Err err
  | None =>
      Go.Ok (filter (λ r, system r = systemID ∧ name r = "Status")
                    (alerts_collection app))
  end.

(** The delay computed in handleSystemDown, in Duration arithmetic. *)
Definition delayToNotification (alertRecord : AlertRecord) : Go.Duration :=
  let min := Go.max 1 (min alertRecord) in
  Go.int64_add (Go.int64_mul min Go.Minute) (Go.int64_mul Go.Second 10).

(** The task handleSystemDown sends for a record. *)
Definition scheduleTask (systemName : string) (alertRecord : AlertRecord)
  : alertTask :=
  {| action := "schedule";
     task_systemName := systemName;
     task_alertRecord := alertRecord;
     delay := delayToNotification alertRecord |}.

(** The task handleSystemUp sends for a record: it carries only the
    record, its other fields are zero values. *)
Definition cancelTask (alertRecord : AlertRecord) : alertTask :=
  {| action := "cancel";
     task_systemName := "";
     task_alertRecord := alertRecord;
     delay := 0 |}.

(** One round of the loop of handleSystemDown. *)
Definition handleSystemDown1 (systemName : string) (am : AlertManager)
    (alertRecord : AlertRecord) : AlertManager :=
  match pendingAlerts am !! Id alertRecord with
  | Some _ => am
  | None => send (scheduleTask systemName alertRecord) am
  end.

(** [func (am *AlertManager) handleSystemDown(systemName string,
    alertRecords []*core.Record)]. *)
Definition handleSystemDown (systemName : string)
    (alertRecords : list AlertRecord) (am : AlertManager) : AlertManager :=
  foldl (handleSystemDown1 systemName) am alertRecords.

(** One round of the loop of handleSystemUp. *)
Definition handleSystemUp1 (app : App) (systemName : string)
    (am : AlertManager) (alertRecord : AlertRecord) : AlertManager :=
  match pendingAlerts am !! Id alertRecord with
  | Some _ => send (cancelTask alertRecord) am
  | None =>
      match sendStatusAlert app "up" systemName alertRecord am with
      | (Some err, am) => emit [EvLogError "Failed to send alert" err] am
      | (None, am) => am
      end
  end.

(** [func (am *AlertManager) handleSystemUp(systemName string,
    alertRecords []*core.Record)]. *)
Definition handleSystemUp (app : App) (systemName : string)
    (alertRecords : list AlertRecord) (am : AlertManager) : AlertManager :=
  foldl (handleSystemUp1 app systemName) am alertRecords.

(** [func (am *AlertManager) HandleStatusAlerts(newStatus string,
    oldSystemRecord *core.Record) error]. *)
Definition HandleStatusAlerts (app : App) (newStatus : string)
    (oldSystemRecord : SystemRecord) (am : AlertManager)
  : Go.error * AlertManager :=
  let statusChanged :=
    if String.eqb newStatus "up"
    then String.eqb (sys_status oldSystemRecord) "down"
    else if String.eqb newStatus "down"
    then String.eqb (sys_status oldSystemRecord) "up"
    else false in
  if negb statusChanged then (None, am)
  else
    match getSystemStatusAlerts app (sys_Id oldSystemRecord) with
    | Go.Err err => (Some err, am)
    | Go.Ok alertRecords =>
        if (length alertRecords =? 0)%nat then (None, am)
        else
          let systemName := sys_name oldSystemRecord in
          if String.eqb newStatus "down"
          then (None, handleSystemDown systemName alertRecords am)
          else if String.eqb newStatus "up"
          then (None, handleSystemUp app systemName alertRecords am)
          else (None, am)
    end.

(** *** statusAlertWorker

    One iteration of the loop is one of the two functions below; the
    [stopChan] case ends the loop. *)

(** [case task := <-am.alertQueue], the clock reading [now]. *)
Definition processTask (now : Go.Time) (task : alertTask)
    (am : AlertManager) : AlertManager :=
  if String.eqb (action task) "schedule" then
    let expireTime := Go.Time_Add now (delay task) in
    with_pending
      (insert (Id (task_alertRecord task))
              {| systemName := task_systemName task;
                 alertRecord := task_alertRecord task;
                 expireTime := expireTime |}) am
  else if String.eqb (action task) "cancel" then
    with_pending (delete (Id (task_alertRecord task))) am
  else am.

Definition workerTask (now : Go.Time) (am : AlertManager) : AlertManager :=
  match alertQueue am with
  | [] => am
  | task :: rest =>
      processTask now task
        {| pendingAlerts := pendingAlerts am;
           alertQueue := rest;
           trace := trace am |}
  end.

(** One round of the loop over [am.pendingAlerts.Range]. *)
Definition sweep1 (app : App) (now : Go.Time) (am : AlertManager)
    (kv : string * alertInfo) : AlertManager :=
  let '(key, info) := kv in
  if Go.Time_After now (expireTime info) then
    let '(_, am) :=
      sendStatusAlert app "down" (systemName info) (alertRecord info) am in
    with_pending (delete key) am
  else am.

(** [case <-tick], the clock reading [now].  Range visits every entry
    once, in no particular order. *)
Definition workerTick (app : App) (now : Go.Time) (am : AlertManager)
  : AlertManager :=
  foldl (sweep1 app now) am (map_to_list (pendingAlerts am)).

(** *** Executions

    A status change reported by the hub, a dequeue and a sweep of the
    worker interleave.  [LStatus] is stamped with the time of the call;
    the handler itself reads no clock. *)
Inductive label :=
| LStatus (at_ : Go.Time) (newStatus : string) (oldSystemRecord : SystemRecord)
| LTask (now : Go.Time)
| LTick (now : Go.Time).

Definition step (app : App) (am : AlertManager) (l : label) : AlertManager :=
  match l with
  | LStatus _ newStatus old => (HandleStatusAlerts app newStatus old am).2
  | LTask now => workerTask now am
  | LTick now => workerTick app now am
  end.

Definition run (app : App) (ls : list label) (am : AlertManager)
  : AlertManager := foldl (step app) am ls.

Definition stamp (l : label) : Go.Time :=
  match l with
  | LStatus t _ _ | LTask t | LTick t => t
  end.

(** The labels of an execution carry non-decreasing times. *)
Fixpoint chronological (ls : list label) : bool :=
  match ls with
  | [] => true
  | l :: rest =>
      forallb (λ l', stamp l <=? stamp l') rest && chronological rest
  end.

Definition reachable (app : App) (am : AlertManager) : Prop :=
  ∃ ls, am = run app ls NewAlertManager.

(** Events about a rule: a status alert raised for it or a message
    handed to sendAlert for it, with the given status. *)
Definition about (alertStatus rule : string) (e : Event) : bool :=
  match e with
  | EvStatusAlert s _ r | EvSendAlert s r _ =>
      String.eqb s alertStatus && String.eqb r rule
  | EvLogError _ _ => false
  end.

Definition raised (alertStatus rule : string) (e : Event) : bool :=
  match e with
  | EvStatusAlert s _ r => String.eqb s alertStatus && String.eqb r rule
  | _ => false
  end.

(** The events one call of sendStatusAlert adds to the trace, and the
    error it returns. *)
Definition statusAlertEvents (app : App) (alertStatus systemName : string)
    (alertRecord : AlertRecord) : list Event :=
  trace (sendStatusAlert app alertStatus systemName alertRecord
           NewAlertManager).2.

Definition statusAlertError (app : App) (alertStatus systemName : string)
    (alertRecord : AlertRecord) : Go.error :=
  (sendStatusAlert app alertStatus systemName alertRecord NewAlertManager).1.

(** The events one round of handleSystemUp adds for a record without a
    pending alert. *)
Definition upEvents (app : App) (systemName : string)
    (alertRecord : AlertRecord) : list Event :=
  statusAlertEvents app "up" systemName alertRecord
  ++ match statusAlertError app "up" systemName alertRecord with
     | Some err => [EvLogError "Failed to send alert" err]
     | None => []
     end.

(** The events a sweep adds for one entry. *)
Definition sweepEvents (app : App) (now : Go.Time) (kv : string * alertInfo)
  : list Event :=
  if Go.Time_After now (expireTime kv.2)
  then statusAlertEvents app "down" (systemName kv.2) (alertRecord kv.2)
  else [].

(** What one round of a sweep does to the map. *)
Definition sweepMap (now : Go.Time) (m : gmap string alertInfo)
    (kv : string * alertInfo) : gmap string alertInfo :=
  if Go.Time_After now (expireTime kv.2) then delete kv.1 m else m.

(** Every entry of the map sits under the id of its own record. *)
Definition keyed (m : gmap string alertInfo) : Prop :=
  ∀ key info, m !! key = Some info → Id (alertRecord info) = key.

(** The worker dequeues once at each of the given clock readings. *)
Definition workerTasks (nows : list Go.Time) (am : AlertManager)
  : AlertManager := foldl (λ am now, workerTask now am) am nows.

End Alerts.

(* ===================================================================== *)
(** ** Concrete scenarios *)
(* ===================================================================== *)

Module Scenario.

(** *** agent: "hub-a" polls at 1000 s; ten seconds later "hub-a" and
    "hub-b" both ask *)

Definition agent0 : Agent.Agent :=
  {| Agent.fsStats := ∅;
     Agent.systemInfo := [("cores", 4)];
     Agent.data :=
       Some {| Agent.cd_Stats :=
                 {| Agent.stats_payload := []; Agent.ExtraFs := ∅ |};
               Agent.cd_Info := [];
               Agent.cd_Containers := [] |};
     Agent.updated := Go.zeroTime;
     Agent.sshUser := "" |}.

Definition world0 : Agent.World :=
  {| Agent.now_entry := 1000 * Go.Second;
     Agent.getSystemStats :=
       {| Agent.stats_payload := [("cpu", 10)]; Agent.ExtraFs := ∅ |};
     Agent.fsStats_after := ∅;
     Agent.systemInfo_after := [("cores", 4)];
     Agent.getDockerStats := Go.Err "docker unavailable";
     Agent.now_exit := 1001 * Go.Second |}.

Definition snapshot0 : Agent.CombinedData := Agent.fresh world0 agent0.

Definition agent1 : Agent.Agent := Agent.recollected world0 "hub-a" agent0.

Definition world1 : Agent.World :=
  {| Agent.now_entry := 1010 * Go.Second;
     Agent.getSystemStats :=
       {| Agent.stats_payload := [("cpu", 90)]; Agent.ExtraFs := ∅ |};
     Agent.fsStats_after := ∅;
     Agent.systemInfo_after := [("cores", 4)];
     Agent.getDockerStats := Go.Err "docker unavailable";
     Agent.now_exit := 1011 * Go.Second |}.

(** *** hub: a data directory and a working key generator *)

Definition keyEnv : Hub.KeyEnv :=
  {| Hub.ed25519_GenerateKey := Go.Ok ("PUB", "PRIV");
     Hub.ssh_MarshalPrivateKey := λ priv, Go.Ok ("block " +:+ priv);
     Hub.pem_Encode := λ block, Go.Ok ("pem " +:+ block);
     Hub.ssh_NewPublicKey := λ pub, Go.Ok pub;
     Hub.ssh_MarshalAuthorizedKey :=
       λ pub, "ssh-ed25519 " +:+ pub +:+ Go.newline;
     Hub.os_Create := λ _, None;
     Hub.file_Write := λ _ _, None |}.

Definition hub : Hub.Hub := {| Hub.DataDir := "/data"; Hub.pubKey := "" |}.




(** *** alerts: one host with a one-minute rule *)

Definition rule1 : Alerts.AlertRecord :=
  {| Alerts.Id := "r1"; Alerts.system := "s1"; Alerts.name := "Status";
     Alerts.min := 1; Alerts.user := "u1" |}.

(** A rule whose minimum does not fit a Duration once in nanoseconds. *)
Definition rule_huge : Alerts.AlertRecord :=
  {| Alerts.Id := "r2"; Alerts.system := "s2"; Alerts.name := "Status";
     Alerts.min := 153722868; Alerts.user := "u1" |}.

(** A rule whose user relation points to a record that is gone. *)
Definition rule_orphan : Alerts.AlertRecord :=
  {| Alerts.Id := "r3"; Alerts.system := "s3"; Alerts.name := "Status";
     Alerts.min := 1; Alerts.user := "" |}.

Definition app : Alerts.App :=
  {| Alerts.alerts_collection := [rule1; rule_huge; rule_orphan];
     Alerts.find_error := None;
     Alerts.ExpandRecord :=
       λ r, if String.eqb (Alerts.user r) ""
            then (∅, ∅)
            else (∅, {[ "user" := {| Alerts.user_Id := Alerts.user r |} ]});
     Alerts.AppURL := "http://hub";
     Alerts.sendAlert := λ _, None |}.

Definition host (status : string) : Alerts.SystemRecord :=
  {| Alerts.sys_Id := "s1"; Alerts.sys_name := "web"; Alerts.sys_status := status |}.

(** The host goes down at 0 s and the worker stores the alert of the
    one-minute rule at once (expiry 70 s); the host is back at 69 s, but
    the worker is busy until 78 s and then takes the tick before the
    cancel task. *)
Definition race : list Alerts.label :=
  [Alerts.LStatus 0 "down" (host "up");
   Alerts.LTask 0;
   Alerts.LStatus (69 * Go.Second) "up" (host "down");
   Alerts.LTick (78 * Go.Second);
   Alerts.LTask (78 * Go.Second)].

(** *** hub: the public key file cannot be created *)

Definition keyEnv_no_public : Hub.KeyEnv :=
  {| Hub.ed25519_GenerateKey := Go.Ok ("PUB", "PRIV");
     Hub.ssh_MarshalPrivateKey := λ priv, Go.Ok ("block " +:+ priv);
     Hub.pem_Encode := λ block, Go.Ok ("pem " +:+ block);
     Hub.ssh_NewPublicKey := λ pub, Go.Ok pub;
     Hub.ssh_MarshalAuthorizedKey :=
       λ pub, "ssh-ed25519 " +:+ pub +:+ Go.newline;
     Hub.os_Create :=
       λ path, if String.eqb path "/data/id_ed25519.pub"
               then Some "permission denied" else None;
     Hub.file_Write := λ _ _, None |}.

(** *** agent: environments of NewAgent *)

Definition environ_sensors : Go.Environ :=
  {[ "BESZEL_AGENT_SENSORS" := "cpu_thermal,,nvme" ]}.

Definition initializers : Agent.Initializers :=
  {| Agent.init_systemInfo := [("cores", 4)];
     Agent.init_fsStats := ∅;
     Agent.init_gpu := Some "no GPU found" |}.

(** *** hub: an application with its two collections *)

Definition emptyCollection : Hub.Collection :=
  {| Hub.PasswordAuth := {| Hub.pa_Enabled := true; Hub.IdentityFields := [] |};
     Hub.OAuth2 := {| Hub.oa_Enabled := true; Hub.Providers := [] |};
     Hub.CreateRule := None;
     Hub.ListRule := None;
     Hub.ViewRule := None;
     Hub.UpdateRule := None;
     Hub.DeleteRule := None |}.

Definition appData : Hub.AppData :=
  {| Hub.settings := {| Hub.Batch_Enabled := false;
                        Hub.Meta_AppURL := "http://localhost:8090" |};
     Hub.collections := {[ "users" := emptyCollection;
                           "systems" := emptyCollection ]} |}.

(** Saving works for the users collection only. *)
Definition save_users_only (name : string) (_ : Hub.Collection) : Go.error :=
  if String.eqb name "users" then None else Some "database is locked".

Definition environ_hub : Go.Environ :=
  {[ "BESZEL_HUB_DISABLE_PASSWORD_AUTH" := "true";
     "SHARE_ALL_SYSTEMS" := "true" ]}.

End Scenario.

(* ===================================================================== *)
(** * Properties *)
(* ===================================================================== *)

(** ** Go primitives *)

Lemma wrap64_small (z : Z) :
  Go.minInt64 ≤ z ≤ Go.maxInt64 → Go.wrap64 z = z.
Proof.
  unfold Go.wrap64, Go.minInt64, Go.maxInt64. intros Hz.
  rewrite Z.mod_small by lia. lia.
Qed.

Lemma Time_Sub_exact (t u : Go.Time) :
  Go.minInt64 ≤ t - u ≤ Go.maxInt64 → Go.Time_Sub t u = t - u.
Proof.
  unfold Go.Time_Sub. intros Hr.
  destruct (Z.ltb_spec Go.maxInt64 (t - u)); [lia|].
  destruct (Z.ltb_spec (t - u) Go.minInt64); [lia|]. reflexivity.
Qed.

Lemma String_eqb_false_iff (s t : string) : String.eqb s t = false ↔ s ≠ t.
Proof.
  destruct (String.eqb_spec s t) as [->|Hne]; split; congruence.
Qed.

Example TrimSuffix_newline :
  Go.TrimSuffix ("ssh-ed25519 AAAA" +:+ Go.newline) Go.newline
  = "ssh-ed25519 AAAA".
Proof. reflexivity. Qed.

Example TrimSuffix_absent : Go.TrimSuffix "ssh-ed25519 AAAA" Go.newline
  = "ssh-ed25519 AAAA".
Proof. reflexivity. Qed.

Example PathEscape_segment : Go.PathEscape "web 1/a~b:c?" = "web%201%2Fa~b:c%3F".
Proof. reflexivity. Qed.

Example Time_Sub_saturates :
  Go.Time_Sub (63000000000 * Go.Second) Go.zeroTime = Go.maxInt64.
Proof. reflexivity. Qed.

Example statusMessage_down :
  Alerts.Message
    (Alerts.statusMessage Scenario.app "down" "web 1"
       (Alerts.mkUserRecord "u1"))
  = "Connection to web 1 is down "
  ∧ Alerts.Link
      (Alerts.statusMessage Scenario.app "down" "web 1"
         (Alerts.mkUserRecord "u1"))
    = "http://hub/system/web%201".
Proof. split; reflexivity. Qed.

(* ===================================================================== *)
(** ** Agent.gatherStats *)
(* ===================================================================== *)

Lemma useCache_true (w : Agent.World) (user : string) (a : Agent.Agent) :
  Agent.useCache w user a = true ↔
  Agent.time_Since (Agent.now_entry w) (Agent.updated a) < Agent.cacheTime
  ∧ user ≠ Agent.sshUser a ∧ Agent.data a ≠ None.
Proof.
  unfold Agent.useCache. rewrite !andb_true_iff, Z.ltb_lt, negb_true_iff,
    String_eqb_false_iff, bool_decide_eq_true. tauto.
Qed.

(** Without a string under "user" in the context the type assertion
    panics, before anything is collected. *)
Example gatherStats_without_user (w : Agent.World) (a : Agent.Agent) :
  Agent.gatherStats w None a
  = Panicked "interface conversion: interface {} is nil, not string".
Proof. reflexivity. Qed.

(** C1, as stated, fails.  "hub-a" collects at 1000 s.  Nine seconds after
    that collection ended, a second request by "hub-a" (the recorded
    identity) collects afresh and returns a snapshot different from the
    cached one, while a request by "hub-b" (a different identity) at the
    same moment is served the cached snapshot without any collection. *)
Lemma gatherStats_same_identity_recollects :
  Agent.gatherStats Scenario.world0 (Some "hub-a") Scenario.agent0
    = Returned (Scenario.snapshot0, Scenario.agent1,
                Agent.fresh_trace Scenario.world0)
  ∧ Agent.sshUser Scenario.agent1 = "hub-a"
  ∧ Agent.time_Since (Agent.now_entry Scenario.world1)
      (Agent.updated Scenario.agent1) = 9 * Go.Second
  ∧ Agent.gatherStats Scenario.world1 (Some "hub-a") Scenario.agent1
    = Returned (Agent.fresh Scenario.world1 Scenario.agent1,
                Agent.recollected Scenario.world1 "hub-a" Scenario.agent1,
                Agent.fresh_trace Scenario.world1)
  ∧ Agent.collected (Agent.fresh_trace Scenario.world1) = true
  ∧ Agent.fresh Scenario.world1 Scenario.agent1 ≠ Scenario.snapshot0
  ∧ Agent.gatherStats Scenario.world1 (Some "hub-b") Scenario.agent1
    = Returned (Scenario.snapshot0, Scenario.agent1,
                [Agent.ELog "INFO" "Using cached stats"])
  ∧ Agent.collected [Agent.ELog "INFO" "Using cached stats"] = false.
Proof.
  repeat split; try reflexivity.
  intros H. apply (f_equal (λ d, Agent.stats_payload (Agent.cd_Stats d))) in H.
  discriminate H.
Qed.

(** C1, amended: with a buffer in place, a request made less than 60
    seconds after the last collection by an identity that DIFFERS from the
    recorded one is answered with the cached snapshot verbatim, the agent
    unchanged and nothing collected; a request by the recorded identity
    itself, and any request 60 seconds or more after the last collection,
    collects afresh, stores the snapshot and records identity and time. *)
Theorem gatherStats_cache_policy
    (w : Agent.World) (user : string) (a : Agent.Agent)
    (cached : Agent.CombinedData) :
  Agent.data a = Some cached →
  (Agent.time_Since (Agent.now_entry w) (Agent.updated a) < Agent.cacheTime →
   user ≠ Agent.sshUser a →
   Agent.gatherStats w (Some user) a
     = Returned (cached, a, [Agent.ELog "INFO" "Using cached stats"])
   ∧ Agent.collected [Agent.ELog "INFO" "Using cached stats"] = false)
  ∧ (user = Agent.sshUser a
     ∨ Agent.cacheTime ≤ Agent.time_Since (Agent.now_entry w) (Agent.updated a) →
     Agent.gatherStats w (Some user) a
       = Returned (Agent.fresh w a, Agent.recollected w user a, Agent.fresh_trace w)
     ∧ Agent.collected (Agent.fresh_trace w) = true).
Proof.
  intros Hdata. split.
  - intros Hrecent Hother. split; [|reflexivity].
    unfold Agent.gatherStats.
    assert (Agent.useCache w user a = true) as ->.
    { apply useCache_true. rewrite Hdata. auto. }
    rewrite Hdata. reflexivity.
  - intros Hcase. split; [|reflexivity].
    unfold Agent.gatherStats.
    assert (Agent.useCache w user a = false) as ->.
    { apply not_true_is_false. rewrite useCache_true.
      intros (Hlt & Hne & _). destruct Hcase; [congruence | lia]. }
    rewrite Hdata. reflexivity.
Qed.

Lemma gatherStats_cache_policy_witness :
  Agent.gatherStats Scenario.world1 (Some "hub-b") Scenario.agent1
    = Returned (Scenario.snapshot0, Scenario.agent1,
                [Agent.ELog "INFO" "Using cached stats"])
  ∧ Agent.gatherStats Scenario.world1 (Some "hub-a") Scenario.agent1
    = Returned (Agent.fresh Scenario.world1 Scenario.agent1,
                Agent.recollected Scenario.world1 "hub-a" Scenario.agent1,
                Agent.fresh_trace Scenario.world1).
Proof.
  split.
  - apply (gatherStats_cache_policy Scenario.world1 "hub-b" Scenario.agent1
             Scenario.snapshot0 eq_refl).
    + reflexivity.
    + discriminate.
  - apply (gatherStats_cache_policy Scenario.world1 "hub-a" Scenario.agent1
             Scenario.snapshot0 eq_refl).
    left. reflexivity.
Defined.

(* ===================================================================== *)
(** ** Agent.Health *)
(* ===================================================================== *)

(** C8: Health dials the configured network and address once, with a
    timeout of two seconds; its exit code is 0 exactly when the dial
    succeeds and 1 exactly when it fails; apart from the dial it only
    closes the connection or logs the failure: nothing is read or written
    and no handshake takes place. *)
Theorem Health_exit_code (env : Agent.NetEnv) :
  let addr := Agent.GetAddress env "" in
  let network := Agent.GetNetwork env addr in
  let dial := Agent.DialTimeout env network addr (2 * Go.Second) in
  ((Agent.Health env).1 = 0 ↔ ∃ conn, dial = Go.Ok conn)
  ∧ ((Agent.Health env).1 = 1 ↔ ∃ err, dial = Go.Err err)
  ∧ ((Agent.Health env).1 = 0 ∨ (Agent.Health env).1 = 1)
  ∧ (∃ last, (Agent.Health env).2
             = [Agent.OpDial network addr (2 * Go.Second); last])
  ∧ Forall (λ op, Agent.exchanges op = false) (Agent.Health env).2.
Proof.
  unfold Agent.Health. cbv zeta.
  destruct (Agent.DialTimeout env _ _ _) as [conn|err]; cbn.
  - split; [split; [eauto | reflexivity]|].
    split; [split; [discriminate | intros [e He]; discriminate He]|].
    split; [left; reflexivity|].
    split; [eauto | repeat constructor].
  - split; [split; [discriminate | intros [c Hc]; discriminate Hc]|].
    split; [split; [eauto | reflexivity]|].
    split; [right; reflexivity|].
    split; [eauto | repeat constructor].
Qed.

(* ===================================================================== *)
(** ** Hub.GetSSHKey *)
(* ===================================================================== *)

Lemma privPath_ne_pubPath (dataDir : string) :
  Hub.privPath dataDir ≠ Hub.pubPath dataDir.
Proof.
  unfold Hub.privPath, Hub.pubPath.
  induction dataDir as [|c d IH]; cbn; [discriminate|].
  intros H. injection H as H. exact (IH H).
Qed.

Lemma os_ReadFile_Ok (fs : Hub.FS) (path content : string) :
  fs !! path = Some content → Hub.os_ReadFile fs path = Go.Ok content.
Proof. unfold Hub.os_ReadFile. intros ->. reflexivity. Qed.

Lemma os_ReadFile_Err (fs : Hub.FS) (path : string) :
  fs !! path = None →
  Hub.os_ReadFile fs path
    = Go.Err ("open " +:+ path +:+ ": no such file or directory").
Proof. unfold Hub.os_ReadFile. intros ->. reflexivity. Qed.


Lemma generateKeyPair_Ok (env : Hub.KeyEnv) (h : Hub.Hub) (fs : Hub.FS)
    (key : string) :
  (Hub.generateKeyPair env h fs).1.1.1 = Go.Ok key →
  (Hub.generateKeyPair env h fs).1.2 !! Hub.privPath (Hub.DataDir h) = Some key
  ∧ ∃ pubKeyBytes,
      (Hub.generateKeyPair env h fs).1.2 !! Hub.pubPath (Hub.DataDir h)
        = Some pubKeyBytes
      ∧ Hub.pubKey (Hub.generateKeyPair env h fs).1.1.2
        = Go.TrimSuffix pubKeyBytes Go.newline.
Proof.
  pose proof (privPath_ne_pubPath (Hub.DataDir h)) as Hne.
  unfold Hub.generateKeyPair.
  destruct (Hub.ed25519_GenerateKey env) as [[pub priv]|]; [|discriminate].
  destruct (Hub.ssh_MarshalPrivateKey env priv); [|discriminate].
  destruct (Hub.os_Create env (Hub.privPath _)); [discriminate|].
  destruct (Hub.pem_Encode env _) as [written|]; [|discriminate].
  destruct (Hub.ssh_NewPublicKey env pub) as [publicKey|]; [|discriminate].
  destruct (Hub.os_Create env (Hub.pubPath _)); [discriminate|].
  destruct (Hub.file_Write env _ _); [discriminate|].
  cbn [fst snd]. unfold Hub.os_ReadFile.
  rewrite !(lookup_insert_ne _ (Hub.pubPath _) (Hub.privPath _)) by congruence.
  rewrite !lookup_insert_eq. intros [= <-].
  split; [reflexivity|]. eexists. split; reflexivity.
Qed.




(* ===================================================================== *)
(** ** GET /api/beszel/getkey *)
(* ===================================================================== *)

(** C9: a request without authentication gets the Forbidden error, the
    same whatever the hub's key; an authenticated request gets status 200
    with the public key and the version; the key is disclosed exactly to
    authenticated requests. *)
Theorem getkey_requires_authentication
    (Version : string) (h : Hub.Hub) (info : Hub.RequestInfo) :
  Hub.getkey Version h (Hub.mkRequestInfo None)
    = Hub.ApiError 403 "Forbidden" None
  ∧ (∀ h', Hub.getkey Version h' (Hub.mkRequestInfo None)
           = Hub.getkey Version h (Hub.mkRequestInfo None))
  ∧ (∀ record, Hub.getkey Version h (Hub.mkRequestInfo (Some record))
               = Hub.JSON 200 (<["key" := Hub.pubKey h]> {["v" := Version]}))
  ∧ (Hub.discloses_key (Hub.getkey Version h info) = true
     ↔ is_Some (Hub.Auth info))
  ∧ (∀ status body, Hub.getkey Version h info = Hub.JSON status body →
       is_Some (Hub.Auth info)
       ∧ body !! "key" = Some (Hub.pubKey h) ∧ body !! "v" = Some Version).
Proof.
  split; [reflexivity|]. split; [reflexivity|]. split; [reflexivity|].
  unfold Hub.getkey. destruct (Hub.Auth info) as [record|]; cbn; split.
  - split; [eauto|]. intros _. apply bool_decide_eq_true.
    rewrite lookup_insert_eq. eauto.
  - intros status body [= <- <-]. split; [eauto|]. split.
    + apply lookup_insert_eq.
    + rewrite lookup_insert_ne by discriminate. apply lookup_singleton_eq.
  - split; [discriminate|]. intros [x Hx]. discriminate Hx.
  - intros status body Heq. discriminate Heq.
Qed.

(* ===================================================================== *)
(** ** The alert engine: handlers and worker, one step at a time *)
(* ===================================================================== *)

Section AlertSteps.
Import Alerts.
Implicit Types (app : App) (am : AlertManager) (r : AlertRecord).
Implicit Types (rs : list AlertRecord) (m : gmap string alertInfo).

Lemma emit_emit evs1 evs2 am : emit evs2 (emit evs1 am) = emit (evs1 ++ evs2) am.
Proof. unfold emit. cbn. by rewrite app_assoc. Qed.

Lemma sendStatusAlert_eq app alertStatus systemName r am :
  sendStatusAlert app alertStatus systemName r am
  = (statusAlertError app alertStatus systemName r,
     emit (statusAlertEvents app alertStatus systemName r) am).
Proof.
  unfold statusAlertError, statusAlertEvents, sendStatusAlert.
  destruct (ExpandRecord app r) as [errs expand].
  destruct (0 <? size errs)%nat; [reflexivity|].
  destruct (expand !! "user"); [|reflexivity].
  cbn [fst snd]. by rewrite emit_emit.
Qed.

Lemma statusAlertEvents_head app alertStatus systemName r :
  ∃ rest, statusAlertEvents app alertStatus systemName r
          = EvStatusAlert alertStatus systemName (Id r) :: rest
        ∧ Forall (λ e, ∃ data, e = EvSendAlert alertStatus (Id r) data) rest
        ∧ (length rest ≤ 1)%nat.
Proof.
  unfold statusAlertEvents, sendStatusAlert.
  destruct (ExpandRecord app r) as [errs expand].
  destruct (0 <? size errs)%nat; [by exists []; cbn; auto|].
  destruct (expand !! "user"); cbn; [|by exists []; cbn; auto].
  eexists. split; [reflexivity|]. split; [|cbn; lia].
  constructor; [eauto | constructor].
Qed.

(** An event of a status alert concerns the status and the rule it was
    raised for, and no other. *)
Lemma about_statusAlertEvents app alertStatus systemName r status rule :
  List.filter (about status rule)
    (statusAlertEvents app alertStatus systemName r) ≠ [] →
  alertStatus = status ∧ Id r = rule.
Proof.
  destruct (statusAlertEvents_head app alertStatus systemName r)
    as (rest & -> & Hrest & _).
  intros Hne.
  assert (∃ e, e ∈ EvStatusAlert alertStatus systemName (Id r) :: rest
               ∧ about status rule e = true) as (e & Hin & He).
  { destruct (List.filter _ _) as [|e l] eqn:Hf; [done|].
    exists e. assert (List.In e (List.filter (about status rule)
      (EvStatusAlert alertStatus systemName (Id r) :: rest))) as Hi
      by (rewrite Hf; left; reflexivity).
    apply List.filter_In in Hi as [Hi He]. split; [|done].
    by apply list_elem_of_In. }
  apply elem_of_cons in Hin as [->|Hin].
  - cbn in He. apply andb_true_iff in He as [H1 H2].
    apply String.eqb_eq in H1, H2. done.
  - rewrite Forall_forall in Hrest. destruct (Hrest e Hin) as [d ->].
    cbn in He. apply andb_true_iff in He as [H1 H2].
    apply String.eqb_eq in H1, H2. done.
Qed.

Lemma about_upEvents_down app systemName r rule :
  List.filter (about "down" rule) (upEvents app systemName r) = [].
Proof.
  unfold upEvents. rewrite List.filter_app.
  destruct (List.filter (about "down" rule)
              (statusAlertEvents app "up" systemName r)) eqn:Hf.
  - destruct (statusAlertError _ _ _ _); reflexivity.
  - exfalso.
    destruct (about_statusAlertEvents app "up" systemName r "down" rule) as [H _];
      [by rewrite Hf | discriminate H].
Qed.

(** *** handleSystemDown *)

Lemma handleSystemDown_spec systemName rs am :
  handleSystemDown systemName rs am
  = {| pendingAlerts := pendingAlerts am;
       alertQueue :=
         alertQueue am
         ++ (scheduleTask systemName
               <$> filter (λ r, pendingAlerts am !! Id r = None) rs);
       trace := trace am |}.
Proof.
  unfold handleSystemDown. revert am.
  induction rs as [|r rs IH]; intros am; cbn [foldl].
  - cbn. rewrite app_nil_r. by destruct am.
  - rewrite IH. unfold handleSystemDown1. rewrite filter_cons.
    destruct (pendingAlerts am !! Id r) as [info|] eqn:Hr.
    + rewrite decide_False by done. reflexivity.
    + rewrite decide_True by done. cbn. by rewrite <- app_assoc.
Qed.

(** *** handleSystemUp *)

Lemma handleSystemUp_spec app systemName rs am :
  handleSystemUp app systemName rs am
  = {| pendingAlerts := pendingAlerts am;
       alertQueue :=
         alertQueue am
         ++ (cancelTask <$> filter (λ r, is_Some (pendingAlerts am !! Id r)) rs);
       trace :=
         trace am
         ++ flat_map (upEvents app systemName)
              (filter (λ r, pendingAlerts am !! Id r = None) rs) |}.
Proof.
  unfold handleSystemUp. revert am.
  induction rs as [|r rs IH]; intros am; cbn [foldl].
  - cbn. rewrite !app_nil_r. by destruct am.
  - rewrite IH. unfold handleSystemUp1. rewrite !filter_cons.
    destruct (pendingAlerts am !! Id r) as [info|] eqn:Hr.
    + rewrite decide_True by eauto. rewrite decide_False by done.
      cbn. by rewrite <- app_assoc.
    + rewrite decide_False by (by intros [? ?]). rewrite decide_True by done.
      rewrite sendStatusAlert_eq. cbn [flat_map]. unfold upEvents at 2.
      destruct (statusAlertError app "up" systemName r);
        cbn; rewrite ?app_nil_r, <- ?app_assoc; reflexivity.
Qed.

(** *** the worker *)

Lemma workerTask_schedule now task rest am :
  alertQueue am = task :: rest → action task = "schedule" →
  workerTask now am
  = {| pendingAlerts :=
         <[Id (task_alertRecord task) :=
             {| systemName := task_systemName task;
                alertRecord := task_alertRecord task;
                expireTime := now + delay task |}]> (pendingAlerts am);
       alertQueue := rest;
       trace := trace am |}.
Proof.
  intros Hq Ha. unfold workerTask, processTask. rewrite Hq, Ha. reflexivity.
Qed.

Lemma workerTask_cancel now task rest am :
  alertQueue am = task :: rest → action task = "cancel" →
  workerTask now am
  = {| pendingAlerts := delete (Id (task_alertRecord task)) (pendingAlerts am);
       alertQueue := rest;
       trace := trace am |}.
Proof.
  intros Hq Ha. unfold workerTask, processTask. rewrite Hq, Ha. reflexivity.
Qed.

Lemma workerTask_idle now am : alertQueue am = [] → workerTask now am = am.
Proof. unfold workerTask. by intros ->. Qed.

Lemma workerTask_trace now am : trace (workerTask now am) = trace am.
Proof.
  unfold workerTask, processTask. destruct (alertQueue am) as [|task rest]; [done|].
  destruct (String.eqb (action task) "schedule"); [done|].
  destruct (String.eqb (action task) "cancel"); done.
Qed.

Lemma sweep_foldl app now (l : list (string * alertInfo)) am :
  foldl (sweep1 app now) am l
  = {| pendingAlerts := foldl (sweepMap now) (pendingAlerts am) l;
       alertQueue := alertQueue am;
       trace := trace am ++ flat_map (sweepEvents app now) l |}.
Proof.
  revert am. induction l as [|[key info] l IH]; intros am; cbn [foldl flat_map].
  - rewrite app_nil_r. by destruct am.
  - rewrite IH.
    assert (sweepMap now (pendingAlerts am) (key, info)
            = if Go.Time_After now (expireTime info)
              then delete key (pendingAlerts am) else pendingAlerts am)
      as Hmap by reflexivity.
    assert (sweepEvents app now (key, info)
            = if Go.Time_After now (expireTime info)
              then statusAlertEvents app "down" (systemName info)
                     (alertRecord info)
              else []) as -> by reflexivity.
    unfold sweep1. destruct (Go.Time_After now (expireTime info)).
    + rewrite sendStatusAlert_eq. cbn. rewrite Hmap, <- app_assoc.
      reflexivity.
    + cbn. rewrite Hmap. reflexivity.
Qed.

Lemma workerTick_spec app now am :
  workerTick app now am
  = {| pendingAlerts :=
         foldl (sweepMap now) (pendingAlerts am) (map_to_list (pendingAlerts am));
       alertQueue := alertQueue am;
       trace := trace am
                ++ flat_map (sweepEvents app now) (map_to_list (pendingAlerts am)) |}.
Proof. apply sweep_foldl. Qed.

Lemma sweepMap_foldl_absent now (l : list (string * alertInfo)) m key :
  m !! key = None → foldl (sweepMap now) m l !! key = None.
Proof.
  revert m. induction l as [|kv l IH]; intros m Hm; cbn [foldl]; [done|].
  apply IH. unfold sweepMap. destruct (Go.Time_After _ _); [|done].
  rewrite lookup_delete. case_decide; done.
Qed.

Lemma sweepMap_foldl_kept now (l : list (string * alertInfo)) m key :
  (∀ info, (key, info) ∈ l → Go.Time_After now (expireTime info) = false) →
  foldl (sweepMap now) m l !! key = m !! key.
Proof.
  revert m. induction l as [|[k i] l IH]; intros m Hl; cbn [foldl]; [done|].
  rewrite IH by (intros info Hin; apply Hl; by right).
  unfold sweepMap. cbn [fst snd].
  destruct (Go.Time_After now (expireTime i)) eqn:Hexp; [|done].
  rewrite lookup_delete_ne; [done|]. intros ->.
  rewrite (Hl i) in Hexp by left. discriminate Hexp.
Qed.

Lemma sweepMap_foldl_keyed now (l : list (string * alertInfo)) m :
  keyed m → keyed (foldl (sweepMap now) m l).
Proof.
  revert m. induction l as [|kv l IH]; intros m Hm; cbn [foldl]; [done|].
  apply IH. unfold sweepMap. destruct (Go.Time_After _ _); [|done].
  intros key info Hk. apply lookup_delete_Some in Hk as [_ Hk]. by apply Hm.
Qed.

End AlertSteps.

(* ===================================================================== *)
(** ** The worker draining its queue *)
(* ===================================================================== *)

Section Drain.
Import Alerts.
Implicit Types (app : App) (am : AlertManager) (r : AlertRecord).
Implicit Types (rs : list AlertRecord) (nows : list Go.Time).

Lemma run_app app (ls1 ls2 : list label) am :
  run app (ls1 ++ ls2) am = run app ls2 (run app ls1 am).
Proof. unfold run. apply foldl_app. Qed.

Lemma run_cons app (l : label) (ls : list label) am :
  run app (l :: ls) am = run app ls (step app am l).
Proof. reflexivity. Qed.

Lemma run_LTask app nows am : run app (LTask <$> nows) am = workerTasks nows am.
Proof.
  unfold run, workerTasks. revert am.
  induction nows as [|now nows IH]; intros am; cbn; [done|]. apply IH.
Qed.

Lemma run_LTick app (ticks : list Go.Time) am :
  run app (LTick <$> ticks) am = foldl (λ am now, workerTick app now am) am ticks.
Proof.
  unfold run. revert am.
  induction ticks as [|now ticks IH]; intros am; cbn; [done|]. apply IH.
Qed.

Lemma workerTasks_cons now nows am :
  workerTasks (now :: nows) am = workerTasks nows (workerTask now am).
Proof. reflexivity. Qed.

Lemma workerTasks_idle nows am : alertQueue am = [] → workerTasks nows am = am.
Proof.
  unfold workerTasks. intros Hq.
  induction nows as [|now nows IH]; cbn; [done|].
  by rewrite workerTask_idle.
Qed.

Lemma workerTasks_trace nows am : trace (workerTasks nows am) = trace am.
Proof.
  unfold workerTasks. revert am.
  induction nows as [|now nows IH]; intros am; cbn; [done|].
  by rewrite IH, workerTask_trace.
Qed.

Lemma keyed_insert (m : gmap string alertInfo) (info : alertInfo) :
  keyed m → keyed (<[Id (alertRecord info) := info]> m).
Proof.
  intros Hm key info' Hk. apply lookup_insert_Some in Hk as [[<- <-]|[_ Hk]].
  - reflexivity.
  - by apply Hm.
Qed.

Lemma keyed_delete (m : gmap string alertInfo) (key : string) :
  keyed m → keyed (delete key m).
Proof.
  intros Hm k info Hk. apply lookup_delete_Some in Hk as [_ Hk]. by apply Hm.
Qed.

Lemma workerTask_keyed now am :
  keyed (pendingAlerts am) → keyed (pendingAlerts (workerTask now am)).
Proof.
  intros Hk. unfold workerTask, processTask.
  destruct (alertQueue am) as [|task rest]; [done|].
  destruct (String.eqb (action task) "schedule").
  - cbn. by apply (keyed_insert _ (mkAlertInfo _ _ _)).
  - destruct (String.eqb (action task) "cancel"); cbn; [|done].
    by apply keyed_delete.
Qed.

(** Schedule tasks leave the entries of other rules alone, however many
    of them the worker gets to. *)
Lemma workerTasks_schedule_other systemName nows rs am key :
  alertQueue am = scheduleTask systemName <$> rs →
  key ∉ Id <$> rs →
  pendingAlerts (workerTasks nows am) !! key = pendingAlerts am !! key.
Proof.
  unfold workerTasks. revert rs am.
  induction nows as [|now nows IH]; intros rs am Hq Hkey; cbn [foldl]; [done|].
  destruct rs as [|r rs].
  - rewrite workerTask_idle by done. by apply (IH []).
  - rewrite (workerTask_schedule now _ _ am Hq eq_refl).
    rewrite (IH rs); [|done|].
    + cbn. apply lookup_insert_ne. intros Heq. apply Hkey. rewrite <- Heq. by left.
    + intros Hin. apply Hkey. by right.
Qed.

(** Once the worker has dequeued every schedule task, each rule it was
    asked to schedule has an entry, stamped with the clock of its dequeue
    plus the delay of its task. *)
Lemma workerTasks_schedule systemName rs : ∀ nows am,
  alertQueue am = scheduleTask systemName <$> rs →
  (length rs ≤ length nows)%nat →
  alertQueue (workerTasks nows am) = []
  ∧ (∀ key, is_Some (pendingAlerts am !! key) ∨ key ∈ Id <$> rs →
            is_Some (pendingAlerts (workerTasks nows am) !! key))
  ∧ (NoDup (Id <$> rs) → ∀ r, r ∈ rs →
       ∃ now, now ∈ nows
         ∧ pendingAlerts (workerTasks nows am) !! Id r
           = Some {| systemName := systemName;
                     alertRecord := r;
                     expireTime := now + delayToNotification r |}).
Proof.
  induction rs as [|r0 rs IH]; intros nows am Hq Hlen.
  - rewrite workerTasks_idle by done. split; [done|]. split.
    + intros key [H|H]; [done|]. by apply elem_of_nil in H.
    + intros _ r H. by apply elem_of_nil in H.
  - destruct nows as [|now nows]; [cbn in Hlen; lia|].
    cbn in Hlen. rewrite workerTasks_cons.
    rewrite (workerTask_schedule now _ _ am Hq eq_refl). cbn [scheduleTask
      task_alertRecord task_systemName delay].
    match goal with |- context [workerTasks nows ?a] => set (am1 := a) end.
    destruct (IH nows am1 eq_refl ltac:(lia)) as (Hqueue & Hsome & Hexact).
    split; [done|]. split.
    + intros key Hkey. apply Hsome. rewrite fmap_cons, elem_of_cons in Hkey.
      destruct Hkey as [Hkey|[->|Hkey]]; [left|left|by right]; subst am1; cbn.
      * by apply lookup_insert_is_Some'; right.
      * rewrite lookup_insert_eq. eauto.
    + rewrite fmap_cons, NoDup_cons. intros [Hfresh Hnodup] r Hr.
      apply elem_of_cons in Hr as [->|Hr].
      * exists now. split; [by left|].
        rewrite (workerTasks_schedule_other systemName nows rs am1) by done.
        subst am1. cbn. by rewrite lookup_insert_eq.
      * destruct (Hexact Hnodup r Hr) as (now' & Hin & Hlook).
        exists now'. split; [by right | done].
Qed.

(** Once the worker has dequeued every cancel task, the rules it was asked
    to cancel have no entry and every other entry is as before. *)
Lemma workerTasks_cancel rs : ∀ nows am,
  alertQueue am = cancelTask <$> rs →
  (length rs ≤ length nows)%nat →
  alertQueue (workerTasks nows am) = []
  ∧ ∀ key, pendingAlerts (workerTasks nows am) !! key
           = if decide (key ∈ Id <$> rs) then None
             else pendingAlerts am !! key.
Proof.
  induction rs as [|r0 rs IH]; intros nows am Hq Hlen.
  - rewrite workerTasks_idle by done. split; [done|]. intros key.
    rewrite decide_False; [done|]. intros H. by apply elem_of_nil in H.
  - destruct nows as [|now nows]; [cbn in Hlen; lia|].
    cbn in Hlen. rewrite workerTasks_cons.
    rewrite (workerTask_cancel now _ _ am Hq eq_refl). cbn [cancelTask
      task_alertRecord].
    match goal with |- context [workerTasks nows ?a] => set (am1 := a) end.
    destruct (IH nows am1 eq_refl ltac:(lia)) as (Hqueue & Hlook).
    split; [done|]. intros key. rewrite Hlook, fmap_cons. subst am1. cbn.
    destruct (decide (key ∈ Id <$> rs)) as [Hin|Hnin].
    + rewrite decide_True; [done|]. by right.
    + destruct (decide (key = Id r0)) as [->|Hne].
      * rewrite decide_True by left. apply lookup_delete_eq.
      * rewrite decide_False.
        -- by apply lookup_delete_ne.
        -- intros Hc. apply elem_of_cons in Hc as [?|?]; done.
Qed.

End Drain.

(* ===================================================================== *)
(** ** sendStatusAlert *)
(* ===================================================================== *)

(** C10: when the user reference of the rule record expands to no user
    record, sendStatusAlert hands no message to sendAlert (its only trace
    is the alert being raised; map and queue are untouched); it then
    returns nil when the expansion reported no failure, and an error it
    returns is the failure the expansion reported for "user". *)
Theorem sendStatusAlert_without_user
    (app : Alerts.App) (alertStatus systemName : string)
    (alertRecord : Alerts.AlertRecord) (am : Alerts.AlertManager) :
  (Alerts.ExpandRecord app alertRecord).2 !! "user" = None →
  let out := Alerts.sendStatusAlert app alertStatus systemName alertRecord am in
  out.2 = Alerts.emit
            [Alerts.EvStatusAlert alertStatus systemName (Alerts.Id alertRecord)]
            am
  ∧ ((Alerts.ExpandRecord app alertRecord).1 = ∅ → out.1 = None)
  ∧ (∀ err, out.1 = Some err →
       (Alerts.ExpandRecord app alertRecord).1 ≠ ∅
       ∧ (Alerts.ExpandRecord app alertRecord).1 !! "user" = Some err).
Proof.
  unfold Alerts.sendStatusAlert.
  destruct (Alerts.ExpandRecord app alertRecord) as [errs expand].
  cbn [fst snd]. intros Huser.
  destruct (0 <? size errs)%nat eqn:Hsize; cbn [fst snd].
  - split; [reflexivity|]. split.
    + intros ->. apply lookup_empty.
    + intros err Herr. split; [|exact Herr].
      intros ->. rewrite map_size_empty in Hsize. discriminate Hsize.
  - rewrite Huser. cbn [fst snd]. split; [reflexivity|].
    split; [reflexivity|]. intros err Herr. discriminate Herr.
Qed.

Lemma sendStatusAlert_without_user_witness :
  Alerts.sendStatusAlert Scenario.app "up" "web" Scenario.rule_orphan
    Alerts.NewAlertManager
  = (None, Alerts.emit [Alerts.EvStatusAlert "up" "web" "r3"]
             Alerts.NewAlertManager).
Proof.
  destruct (sendStatusAlert_without_user Scenario.app "up" "web"
              Scenario.rule_orphan Alerts.NewAlertManager eq_refl)
    as (Hstate & Hnil & _).
  rewrite (surjective_pairing (Alerts.sendStatusAlert _ _ _ _ _)).
  rewrite Hstate, (Hnil eq_refl). reflexivity.
Defined.

(* ===================================================================== *)
(** ** The delay of a pending alert *)
(* ===================================================================== *)

Lemma delayToNotification_exact (r : Alerts.AlertRecord) :
  Z.max 1 (Alerts.min r) ≤ 153722867 →
  Alerts.delayToNotification r
  = Z.max 1 (Alerts.min r) * Go.Minute + 10 * Go.Second.
Proof.
  intros Hr. unfold Alerts.delayToNotification, Go.int64_add, Go.int64_mul,
    Go.max, Go.Minute, Go.Second.
  rewrite (wrap64_small (1000000000 * 10))
    by (unfold Go.minInt64, Go.maxInt64; lia).
  rewrite (wrap64_small (Z.max 1 (Alerts.min r) * _))
    by (unfold Go.minInt64, Go.maxInt64; lia).
  rewrite wrap64_small by (unfold Go.minInt64, Go.maxInt64; lia). lia.
Qed.

(** C4, as stated, fails: a rule of 153722868 minutes gets the delay
    -9223371983709551616 ns, since the product with the nanoseconds of a
    minute leaves the range of a Duration and wraps; the entry stored by
    the worker at clock 0 expires in the past. *)
Lemma delayToNotification_overflows :
  Alerts.delayToNotification Scenario.rule_huge = -9223371983709551616
  ∧ Z.max 1 (Alerts.min Scenario.rule_huge) * Go.Minute + 10 * Go.Second
    = 9223372090000000000
  ∧ Alerts.expireTime
      <$> (Alerts.pendingAlerts
             (Alerts.workerTask 0
                (Alerts.handleSystemDown "db" [Scenario.rule_huge]
                   Alerts.NewAlertManager)) !! "r2")
    = Some (-9223371983709551616).
Proof. vm_compute. repeat split. Qed.

(** C4, amended: for every rule whose minimum, raised to at least 1, is at
    most 153722867 minutes (so that the delay fits a 64-bit Duration), the
    schedule task that handleSystemDown sends carries a delay of exactly
    max(1, min) minutes plus 10 seconds, and whenever the worker dequeues
    that task the entry it stores expires exactly that delay after the
    worker's clock reading. *)
Theorem pending_alert_delay
    (systemName : string) (rs : list Alerts.AlertRecord)
    (r : Alerts.AlertRecord) (am : Alerts.AlertManager) :
  Z.max 1 (Alerts.min r) ≤ 153722867 →
  r ∈ rs →
  Alerts.pendingAlerts am !! Alerts.Id r = None →
  ∃ task,
    task ∈ Alerts.alertQueue (Alerts.handleSystemDown systemName rs am)
    ∧ Alerts.action task = "schedule"
    ∧ Alerts.task_alertRecord task = r
    ∧ Alerts.delay task = Z.max 1 (Alerts.min r) * Go.Minute + 10 * Go.Second
    ∧ ∀ now rest am',
        Alerts.alertQueue am' = task :: rest →
        ∃ info,
          Alerts.pendingAlerts (Alerts.workerTask now am') !! Alerts.Id r
            = Some info
          ∧ Alerts.expireTime info - now
            = Z.max 1 (Alerts.min r) * Go.Minute + 10 * Go.Second.
Proof.
  intros Hrange Hr Hnone. exists (Alerts.scheduleTask systemName r).
  split; [|split; [reflexivity|split; [reflexivity|split]]].
  - rewrite handleSystemDown_spec. cbn. apply elem_of_app. right.
    apply list_elem_of_fmap_2. apply list_elem_of_filter. done.
  - apply delayToNotification_exact, Hrange.
  - intros now rest am' Hq.
    rewrite (workerTask_schedule now _ _ am' Hq eq_refl). cbn.
    rewrite lookup_insert_eq. eexists. split; [reflexivity|]. cbn.
    rewrite delayToNotification_exact by exact Hrange. lia.
Qed.

Lemma pending_alert_delay_witness :
  ∃ task,
    task ∈ Alerts.alertQueue
             (Alerts.handleSystemDown "web" [Scenario.rule1]
                Alerts.NewAlertManager)
    ∧ Alerts.action task = "schedule"
    ∧ Alerts.task_alertRecord task = Scenario.rule1
    ∧ Alerts.delay task = 1 * Go.Minute + 10 * Go.Second
    ∧ ∀ now rest am',
        Alerts.alertQueue am' = task :: rest →
        ∃ info,
          Alerts.pendingAlerts (Alerts.workerTask now am') !! "r1" = Some info
          ∧ Alerts.expireTime info - now = 1 * Go.Minute + 10 * Go.Second.
Proof.
  apply (pending_alert_delay "web" [Scenario.rule1] Scenario.rule1
           Alerts.NewAlertManager).
  - vm_compute. discriminate.
  - left.
  - reflexivity.
Defined.

(* ===================================================================== *)
(** ** HandleStatusAlerts *)
(* ===================================================================== *)

Section StatusEvents.
Import Alerts.
Implicit Types (app : App) (am : AlertManager) (r : AlertRecord).
Implicit Types (rs : list AlertRecord) (old : SystemRecord).

Lemma HandleStatusAlerts_down_unchanged app old am :
  sys_status old ≠ "up" → HandleStatusAlerts app "down" old am = (None, am).
Proof.
  intros Hs. unfold HandleStatusAlerts. cbn.
  apply String_eqb_false_iff in Hs. rewrite Hs. reflexivity.
Qed.

Lemma HandleStatusAlerts_down app old am rs :
  sys_status old = "up" →
  getSystemStatusAlerts app (sys_Id old) = Go.Ok rs →
  HandleStatusAlerts app "down" old am
  = (None, handleSystemDown (sys_name old) rs am).
Proof.
  intros Hs Hrs. unfold HandleStatusAlerts. cbn. rewrite Hs, Hrs. cbn.
  destruct rs; reflexivity.
Qed.

Lemma HandleStatusAlerts_up app old am rs :
  sys_status old = "down" →
  getSystemStatusAlerts app (sys_Id old) = Go.Ok rs →
  HandleStatusAlerts app "up" old am
  = (None, handleSystemUp app (sys_name old) rs am).
Proof.
  intros Hs Hrs. unfold HandleStatusAlerts. cbn. rewrite Hs, Hrs. cbn.
  destruct rs; reflexivity.
Qed.

(** Whatever the status change, the handler either leaves the manager as
    it is or runs one of the two loops. *)
Lemma HandleStatusAlerts_cases app newStatus old am :
  (HandleStatusAlerts app newStatus old am).2 = am
  ∨ (∃ rs, (HandleStatusAlerts app newStatus old am).2
           = handleSystemDown (sys_name old) rs am)
  ∨ (∃ rs, (HandleStatusAlerts app newStatus old am).2
           = handleSystemUp app (sys_name old) rs am).
Proof.
  unfold HandleStatusAlerts.
  destruct (negb _); [by left|].
  destruct (getSystemStatusAlerts app (sys_Id old)) as [rs|err]; [|by left].
  destruct (length rs =? 0)%nat; [by left|].
  destruct (String.eqb newStatus "down"); [right; left; eauto|].
  destruct (String.eqb newStatus "up"); [right; right; eauto|by left].
Qed.

Lemma HandleStatusAlerts_pending app newStatus old am :
  pendingAlerts (HandleStatusAlerts app newStatus old am).2 = pendingAlerts am.
Proof.
  destruct (HandleStatusAlerts_cases app newStatus old am)
    as [->|[[rs ->]|[rs ->]]]; [done| |].
  - by rewrite handleSystemDown_spec.
  - by rewrite handleSystemUp_spec.
Qed.

Lemma step_keyed app am (l : label) :
  keyed (pendingAlerts am) → keyed (pendingAlerts (step app am l)).
Proof.
  intros Hk. destruct l as [t newStatus old|now|now]; cbn [step].
  - by rewrite HandleStatusAlerts_pending.
  - by apply workerTask_keyed.
  - rewrite workerTick_spec. cbn. by apply sweepMap_foldl_keyed.
Qed.

Lemma run_keyed app (ls : list label) am :
  keyed (pendingAlerts am) → keyed (pendingAlerts (run app ls am)).
Proof.
  unfold run. revert am. induction ls as [|l ls IH]; intros am Hk; [done|].
  cbn [foldl]. apply IH. by apply step_keyed.
Qed.

Lemma reachable_keyed app am : reachable app am → keyed (pendingAlerts am).
Proof.
  intros [ls ->]. apply run_keyed. intros key info Hk.
  cbn in Hk. by rewrite lookup_empty in Hk.
Qed.

End StatusEvents.

(** C3, as stated, fails: host "s1" has the Status rule "r1"; a down event
    for it while its recorded status is "pending" changes nothing, and no
    entry for "r1" exists however long the worker runs afterwards. *)
Lemma HandleStatusAlerts_ignores_down_from_pending :
  Alerts.getSystemStatusAlerts Scenario.app "s1" = Go.Ok [Scenario.rule1]
  ∧ Alerts.HandleStatusAlerts Scenario.app "down" (Scenario.host "pending")
      Alerts.NewAlertManager
    = (None, Alerts.NewAlertManager)
  ∧ Alerts.pendingAlerts
      (Alerts.run Scenario.app
         [Alerts.LStatus 0 "down" (Scenario.host "pending");
          Alerts.LTask 0; Alerts.LTick (200 * Go.Second)]
         Alerts.NewAlertManager) !! "r1" = None.
Proof. vm_compute. repeat split. Qed.

(** C3, amended: a down event takes effect only when the recorded status
    of the host is "up"; with any other recorded status, "pending"
    included, HandleStatusAlerts changes nothing.  When the recorded status
    is "up" and the rules of the host are found, the handler runs
    handleSystemDown on them, and once the worker has dequeued the tasks
    sent (the queue being empty before) every such rule has a pending
    alert. *)
Theorem HandleStatusAlerts_down_schedules
    (app : Alerts.App) (oldSystemRecord : Alerts.SystemRecord)
    (am : Alerts.AlertManager) :
  (Alerts.sys_status oldSystemRecord ≠ "up" →
   Alerts.HandleStatusAlerts app "down" oldSystemRecord am = (None, am))
  ∧ (Alerts.sys_status oldSystemRecord = "up" →
     ∀ alertRecords,
       Alerts.getSystemStatusAlerts app (Alerts.sys_Id oldSystemRecord)
         = Go.Ok alertRecords →
       Alerts.HandleStatusAlerts app "down" oldSystemRecord am
         = (None, Alerts.handleSystemDown (Alerts.sys_name oldSystemRecord)
                    alertRecords am)
       ∧ (Alerts.alertQueue am = [] →
          ∀ t nows, (length alertRecords ≤ length nows)%nat →
            ∀ r, r ∈ alertRecords →
              is_Some
                (Alerts.pendingAlerts
                   (Alerts.run app
                      (Alerts.LStatus t "down" oldSystemRecord
                         :: (Alerts.LTask <$> nows)) am)
                 !! Alerts.Id r))).
Proof.
  split; [apply HandleStatusAlerts_down_unchanged|].
  intros Hs rs Hrs. split; [by apply HandleStatusAlerts_down|].
  intros Hq t nows Hlen r Hr.
  change (Alerts.run app (Alerts.LStatus t "down" oldSystemRecord
                            :: (Alerts.LTask <$> nows)) am)
    with (Alerts.run app (Alerts.LTask <$> nows)
            (Alerts.HandleStatusAlerts app "down" oldSystemRecord am).2).
  rewrite (HandleStatusAlerts_down app _ am rs Hs Hrs), run_LTask. cbn [snd].
  set (todo := filter (λ r, Alerts.pendingAlerts am !! Alerts.Id r = None) rs).
  destruct (workerTasks_schedule (Alerts.sys_name oldSystemRecord) todo nows
              (Alerts.handleSystemDown (Alerts.sys_name oldSystemRecord) rs am))
    as (_ & Hsome & _).
  - rewrite handleSystemDown_spec. cbn. by rewrite Hq.
  - pose proof (length_filter
      (λ r, Alerts.pendingAlerts am !! Alerts.Id r = None) rs).
    subst todo. lia.
  - apply Hsome. rewrite handleSystemDown_spec. cbn.
    destruct (Alerts.pendingAlerts am !! Alerts.Id r) eqn:Hold; [left; eauto|].
    right. apply list_elem_of_fmap_2. apply list_elem_of_filter. done.
Qed.

Lemma HandleStatusAlerts_down_schedules_witness :
  Alerts.HandleStatusAlerts Scenario.app "down" (Scenario.host "paused")
    Alerts.NewAlertManager = (None, Alerts.NewAlertManager)
  ∧ is_Some
      (Alerts.pendingAlerts
         (Alerts.run Scenario.app
            (Alerts.LStatus 0 "down" (Scenario.host "up")
               :: (Alerts.LTask <$> [1])) Alerts.NewAlertManager)
       !! "r1").
Proof.
  split.
  - apply (HandleStatusAlerts_down_schedules Scenario.app
             (Scenario.host "paused") Alerts.NewAlertManager).
    discriminate.
  - destruct (HandleStatusAlerts_down_schedules Scenario.app
                (Scenario.host "up") Alerts.NewAlertManager) as [_ Hup].
    destruct (Hup eq_refl [Scenario.rule1] eq_refl) as [_ Hall].
    apply (Hall eq_refl 0 [1] (le_n 1) Scenario.rule1). left.
Defined.

(* ===================================================================== *)
(** ** One pending alert per rule, and idempotent scheduling *)
(* ===================================================================== *)



(* ===================================================================== *)
(** ** handleSystemUp *)
(* ===================================================================== *)

Section Recovery.
Import Alerts.
Implicit Types (app : App) (am : AlertManager) (r : AlertRecord).
Implicit Types (rs : list AlertRecord) (old : SystemRecord).

Lemma statusAlertEvents_about app alertStatus systemName r :
  List.filter (about alertStatus (Id r))
    (statusAlertEvents app alertStatus systemName r)
  = statusAlertEvents app alertStatus systemName r.
Proof.
  destruct (statusAlertEvents_head app alertStatus systemName r)
    as (rest & -> & Hrest & _).
  cbn. rewrite !String.eqb_refl. cbn. f_equal.
  induction Hrest as [|e rest [data ->] _ IH]; [done|].
  cbn. rewrite !String.eqb_refl. cbn. by rewrite IH.
Qed.

Lemma statusAlertEvents_raised app alertStatus systemName r :
  List.filter (raised alertStatus (Id r))
    (statusAlertEvents app alertStatus systemName r)
  = [EvStatusAlert alertStatus systemName (Id r)].
Proof.
  destruct (statusAlertEvents_head app alertStatus systemName r)
    as (rest & -> & Hrest & _).
  cbn. rewrite !String.eqb_refl. cbn. f_equal.
  induction Hrest as [|e rest [data ->] _ IH]; [done|]. cbn. exact IH.
Qed.

Lemma raised_about status rule (e : Event) :
  raised status rule e = true → about status rule e = true.
Proof. destruct e; cbn; done. Qed.

Lemma filter_nil_of_about status rule (evs : list Event) :
  List.filter (about status rule) evs = [] →
  List.filter (raised status rule) evs = [].
Proof.
  induction evs as [|e evs IH]; [done|]. cbn.
  destruct (about status rule e) eqn:Ha; [discriminate|].
  intros H. destruct (raised status rule e) eqn:Hr.
  - apply raised_about in Hr. congruence.
  - by apply IH.
Qed.

Lemma upEvents_other app systemName r status rule :
  Id r ≠ rule →
  List.filter (about status rule) (upEvents app systemName r) = [].
Proof.
  intros Hne. unfold upEvents. rewrite List.filter_app.
  destruct (List.filter (about status rule)
              (statusAlertEvents app "up" systemName r)) eqn:Hf.
  - destruct (statusAlertError _ _ _ _); reflexivity.
  - exfalso.
    destruct (about_statusAlertEvents app "up" systemName r status rule)
      as [_ H]; [by rewrite Hf | done].
Qed.

Lemma upEvents_about app systemName r :
  List.filter (about "up" (Id r)) (upEvents app systemName r)
  = statusAlertEvents app "up" systemName r.
Proof.
  unfold upEvents. rewrite List.filter_app, statusAlertEvents_about.
  destruct (statusAlertError _ _ _ _); cbn; by rewrite app_nil_r.
Qed.

Lemma upEvents_raised app systemName r :
  List.filter (raised "up" (Id r)) (upEvents app systemName r)
  = [EvStatusAlert "up" systemName (Id r)].
Proof.
  unfold upEvents. rewrite List.filter_app, statusAlertEvents_raised.
  destruct (statusAlertError _ _ _ _); reflexivity.
Qed.

(** Among the events of records with distinct ids, those that concern one
    rule are the events of its record. *)
Lemma filter_flat_map_by_id (P : string → Event → bool)
    (f : AlertRecord → list Event) rs :
  (∀ r rule, Id r ≠ rule → List.filter (P rule) (f r) = []) →
  NoDup (Id <$> rs) →
  ∀ rule,
    List.filter (P rule) (flat_map f rs)
    = match List.find (λ r, String.eqb (Id r) rule) rs with
      | Some r => List.filter (P rule) (f r)
      | None => []
      end.
Proof.
  intros Hother. induction rs as [|r0 rs IH]; intros Hnd rule; [done|].
  rewrite fmap_cons, NoDup_cons in Hnd. destruct Hnd as [Hfresh Hnd].
  cbn. rewrite List.filter_app, (IH Hnd).
  destruct (String.eqb_spec (Id r0) rule) as [<-|Hne].
  - destruct (List.find _ rs) as [r|] eqn:Hfind; [|by rewrite app_nil_r].
    exfalso. apply List.find_some in Hfind as [Hin Heq].
    apply String.eqb_eq in Heq. apply Hfresh. rewrite <- Heq.
    apply list_elem_of_fmap_2. by apply list_elem_of_In.
  - by rewrite (Hother r0 rule Hne).
Qed.

Lemma find_by_id_in rs r :
  NoDup (Id <$> rs) → r ∈ rs →
  List.find (λ r', String.eqb (Id r') (Id r)) rs = Some r.
Proof.
  induction rs as [|r0 rs IH]; intros Hnd Hr; [by apply elem_of_nil in Hr|].
  rewrite fmap_cons, NoDup_cons in Hnd. destruct Hnd as [Hfresh Hnd]. cbn.
  destruct (String.eqb_spec (Id r0) (Id r)) as [Heq|Hne].
  - apply elem_of_cons in Hr as [->|Hr]; [done|].
    exfalso. apply Hfresh. rewrite Heq. by apply list_elem_of_fmap_2.
  - apply elem_of_cons in Hr as [->|Hr]; [done|]. by apply IH.
Qed.

Lemma find_by_id_none rs rule :
  rule ∉ Id <$> rs → List.find (λ r', String.eqb (Id r') rule) rs = None.
Proof.
  intros Hnin. destruct (List.find _ rs) as [r|] eqn:Hfind; [|done].
  exfalso. apply List.find_some in Hfind as [Hin Heq].
  apply String.eqb_eq in Heq. apply Hnin. rewrite <- Heq.
  apply list_elem_of_fmap_2. by apply list_elem_of_In.
Qed.

Lemma NoDup_Id_filter (P : AlertRecord → Prop) `{∀ r, Decision (P r)} rs :
  NoDup (Id <$> rs) → NoDup (Id <$> filter P rs).
Proof.
  induction rs as [|r rs IH]; [done|].
  rewrite fmap_cons, NoDup_cons. intros [Hfresh Hnd]. rewrite filter_cons.
  destruct (decide (P r)); [|by apply IH].
  rewrite fmap_cons, NoDup_cons. split; [|by apply IH].
  intros Hin. apply Hfresh. apply list_elem_of_fmap in Hin as (r' & -> & Hr').
  apply list_elem_of_filter in Hr' as [_ Hr']. by apply list_elem_of_fmap_2.
Qed.

(** Sweeps and dequeues raise no "up" alert. *)
Lemma sweepEvents_not_up app now (l : list (string * alertInfo)) rule :
  List.filter (about "up" rule) (flat_map (sweepEvents app now) l) = [].
Proof.
  induction l as [|kv l IH]; [done|]. cbn. rewrite List.filter_app, IH, app_nil_r.
  unfold sweepEvents. destruct (Go.Time_After _ _); [|done].
  destruct (List.filter (about "up" rule)
              (statusAlertEvents app "down" (systemName kv.2)
                 (alertRecord kv.2))) eqn:Hf; [done|]. exfalso.
  destruct (about_statusAlertEvents app "down" (systemName kv.2)
              (alertRecord kv.2) "up" rule) as [H _];
    [by rewrite Hf | discriminate H].
Qed.

Lemma HandleStatusAlerts_not_up_trace app newStatus old am :
  newStatus ≠ "up" →
  trace (HandleStatusAlerts app newStatus old am).2 = trace am.
Proof.
  intros Hne. unfold HandleStatusAlerts.
  apply String_eqb_false_iff in Hne. rewrite Hne.
  destruct (negb _); [done|].
  destruct (getSystemStatusAlerts app (sys_Id old)) as [rs|err]; [|done].
  destruct (length rs =? 0)%nat; [done|].
  destruct (String.eqb newStatus "down"); [|done].
  by rewrite handleSystemDown_spec.
Qed.

Lemma step_not_up app am (l : label) rule :
  (∀ t old, l ≠ LStatus t "up" old) →
  List.filter (about "up" rule) (trace (step app am l))
  = List.filter (about "up" rule) (trace am).
Proof.
  intros Hl. destruct l as [t newStatus old|now|now]; cbn [step].
  - rewrite HandleStatusAlerts_not_up_trace; [done|].
    intros ->. by apply (Hl t old).
  - by rewrite workerTask_trace.
  - rewrite workerTick_spec. cbn.
    by rewrite List.filter_app, sweepEvents_not_up, app_nil_r.
Qed.

End Recovery.

(** What handleSystemUp does for the rules it is given (distinct ids):
    - a rule with a pending alert gets a cancel task and no event about it
      is added to the trace, whatever the status; once the worker has
      dequeued the tasks sent (the queue being empty before) its entry is
      gone, and the worker has added nothing to the trace;
    - a rule without a pending alert gets exactly one "up" status alert
      raised, and the events about it that are added are those of that one
      call of sendStatusAlert;
    - the map itself is not touched by the handler;
    - no other step of the engine (a dequeue, a sweep, a status change
      other than to "up") adds an "up" event about any rule. *)
Lemma handleSystemUp_rules
    (app : Alerts.App) (systemName : string)
    (rs : list Alerts.AlertRecord) (am : Alerts.AlertManager) :
  NoDup (Alerts.Id <$> rs) →
  let am' := Alerts.handleSystemUp app systemName rs am in
  Alerts.pendingAlerts am' = Alerts.pendingAlerts am
  ∧ (∀ r, r ∈ rs → is_Some (Alerts.pendingAlerts am !! Alerts.Id r) →
       Alerts.cancelTask r ∈ Alerts.alertQueue am'
       ∧ (∀ status,
            List.filter (Alerts.about status (Alerts.Id r)) (Alerts.trace am')
            = List.filter (Alerts.about status (Alerts.Id r)) (Alerts.trace am))
       ∧ (Alerts.alertQueue am = [] →
          ∀ nows, (length rs ≤ length nows)%nat →
            Alerts.pendingAlerts (Alerts.workerTasks nows am') !! Alerts.Id r
              = None
            ∧ Alerts.trace (Alerts.workerTasks nows am') = Alerts.trace am'))
  ∧ (∀ r, r ∈ rs → Alerts.pendingAlerts am !! Alerts.Id r = None →
       List.filter (Alerts.raised "up" (Alerts.Id r)) (Alerts.trace am')
       = (List.filter (Alerts.raised "up" (Alerts.Id r)) (Alerts.trace am)
          ++ [Alerts.EvStatusAlert "up" systemName (Alerts.Id r)])%list
       ∧ List.filter (Alerts.about "up" (Alerts.Id r)) (Alerts.trace am')
         = (List.filter (Alerts.about "up" (Alerts.Id r)) (Alerts.trace am)
            ++ Alerts.statusAlertEvents app "up" systemName r)%list)
  ∧ (∀ (l : Alerts.label) am0 rule,
       (∀ t old, l ≠ Alerts.LStatus t "up" old) →
       List.filter (Alerts.about "up" rule) (Alerts.trace (Alerts.step app am0 l))
       = List.filter (Alerts.about "up" rule) (Alerts.trace am0)).
Proof.
  intros Hnd am'. subst am'. rewrite handleSystemUp_spec.
  cbn [Alerts.pendingAlerts Alerts.alertQueue Alerts.trace].
  set (idle := filter (λ r, Alerts.pendingAlerts am !! Alerts.Id r = None) rs).
  set (busy := filter (λ r, is_Some (Alerts.pendingAlerts am !! Alerts.Id r)) rs).
  assert (NoDup (Alerts.Id <$> idle)) as Hidle by (by apply NoDup_Id_filter).
  split; [reflexivity|]. split; [|split].
  - intros r Hr Hsome. split; [|split].
    + apply elem_of_app. right. apply list_elem_of_fmap_2.
      apply list_elem_of_filter. done.
    + intros status. rewrite List.filter_app.
      rewrite (filter_flat_map_by_id (Alerts.about status)
                 (Alerts.upEvents app systemName) idle)
        by (intros; by apply upEvents_other || done).
      rewrite find_by_id_none; [by rewrite app_nil_r|].
      intros Hin. apply list_elem_of_fmap in Hin as (r' & Hid & Hr').
      apply list_elem_of_filter in Hr' as [Hnone _].
      destruct Hsome as [info Hinfo]. congruence.
    + intros Hq nows Hlen.
      match goal with |- context [Alerts.workerTasks nows ?a] =>
        set (am1 := a) end.
      destruct (workerTasks_cancel busy nows am1) as (_ & Hlook).
      * subst am1. cbn. by rewrite Hq.
      * pose proof (length_filter
          (λ r, is_Some (Alerts.pendingAlerts am !! Alerts.Id r)) rs).
        subst busy. lia.
      * split; [|apply workerTasks_trace].
        rewrite Hlook, decide_True; [done|].
        apply list_elem_of_fmap_2. apply list_elem_of_filter. done.
  - intros r Hr Hnone.
    assert (r ∈ idle) as Hin by (apply list_elem_of_filter; done).
    rewrite !List.filter_app. split; f_equal.
    + rewrite (filter_flat_map_by_id (Alerts.raised "up")
                 (Alerts.upEvents app systemName) idle); [|
        intros; apply filter_nil_of_about; by apply upEvents_other | done].
      rewrite (find_by_id_in idle r Hidle Hin). apply upEvents_raised.
    + rewrite (filter_flat_map_by_id (Alerts.about "up")
                 (Alerts.upEvents app systemName) idle); [|
        intros; by apply upEvents_other | done].
      rewrite (find_by_id_in idle r Hidle Hin). apply upEvents_about.
  - intros l am0 rule Hl. by apply step_not_up.
Qed.

(** C6, as stated, fails: an up-transition reported while the recorded
    status of the host is not "down" is ignored.  With recorded status
    "pending" and no pending alert for rule "r1", no "up" alert is raised;
    with recorded status "paused" and a pending alert for "r1", no cancel
    task is sent and the entry stays, however long the worker runs. *)
Lemma up_transition_ignored_unless_down :
  Alerts.getSystemStatusAlerts Scenario.app "s1" = Go.Ok [Scenario.rule1]
  ∧ Alerts.HandleStatusAlerts Scenario.app "up" (Scenario.host "pending")
      Alerts.NewAlertManager
    = (None, Alerts.NewAlertManager)
  ∧ Alerts.trace Alerts.NewAlertManager = []
  ∧ is_Some (Alerts.pendingAlerts
               (Alerts.run Scenario.app
                  [Alerts.LStatus 0 "down" (Scenario.host "up"); Alerts.LTask 0;
                   Alerts.LStatus (30 * Go.Second) "up" (Scenario.host "paused");
                   Alerts.LTask (30 * Go.Second); Alerts.LTask (31 * Go.Second)]
                  Alerts.NewAlertManager) !! "r1").
Proof.
  split; [reflexivity|]. split; [reflexivity|]. split; [reflexivity|].
  vm_compute. eauto.
Qed.

(** C6, amended: an up-transition takes effect only when the recorded
    status of the host is "down"; with any other recorded status nothing
    changes.  When it is "down" and the rules of the host are found
    (distinct ids), for every such rule: if it has a pending alert, a cancel
    task is sent, no event about the rule is added, and once the worker has
    dequeued the tasks sent (the queue being empty before) the entry is
    gone and the worker has added no event; if it has no pending alert,
    exactly one "up" status alert is raised for it, and the events added
    about it are those of that single call of sendStatusAlert.  No other
    step of the engine adds an "up" event. *)
Theorem up_transition_cancels_or_notifies
    (app : Alerts.App) (oldSystemRecord : Alerts.SystemRecord)
    (am : Alerts.AlertManager) :
  (Alerts.sys_status oldSystemRecord ≠ "down" →
   Alerts.HandleStatusAlerts app "up" oldSystemRecord am = (None, am))
  ∧ (Alerts.sys_status oldSystemRecord = "down" →
     ∀ rs,
       Alerts.getSystemStatusAlerts app (Alerts.sys_Id oldSystemRecord)
         = Go.Ok rs →
       NoDup (Alerts.Id <$> rs) →
       ∃ am',
         Alerts.HandleStatusAlerts app "up" oldSystemRecord am = (None, am')
         ∧ Alerts.pendingAlerts am' = Alerts.pendingAlerts am
         ∧ (∀ r, r ∈ rs → is_Some (Alerts.pendingAlerts am !! Alerts.Id r) →
              Alerts.cancelTask r ∈ Alerts.alertQueue am'
              ∧ (∀ status,
                   List.filter (Alerts.about status (Alerts.Id r))
                     (Alerts.trace am')
                   = List.filter (Alerts.about status (Alerts.Id r))
                       (Alerts.trace am))
              ∧ (Alerts.alertQueue am = [] →
                 ∀ nows, (length rs ≤ length nows)%nat →
                   Alerts.pendingAlerts (Alerts.workerTasks nows am')
                     !! Alerts.Id r = None
                   ∧ Alerts.trace (Alerts.workerTasks nows am')
                     = Alerts.trace am'))
         ∧ (∀ r, r ∈ rs → Alerts.pendingAlerts am !! Alerts.Id r = None →
              List.filter (Alerts.raised "up" (Alerts.Id r)) (Alerts.trace am')
              = (List.filter (Alerts.raised "up" (Alerts.Id r)) (Alerts.trace am)
                 ++ [Alerts.EvStatusAlert "up" (Alerts.sys_name oldSystemRecord)
                       (Alerts.Id r)])%list
              ∧ List.filter (Alerts.about "up" (Alerts.Id r)) (Alerts.trace am')
                = (List.filter (Alerts.about "up" (Alerts.Id r)) (Alerts.trace am)
                   ++ Alerts.statusAlertEvents app "up"
                        (Alerts.sys_name oldSystemRecord) r)%list))
  ∧ (∀ (l : Alerts.label) am0 rule,
       (∀ t old, l ≠ Alerts.LStatus t "up" old) →
       List.filter (Alerts.about "up" rule) (Alerts.trace (Alerts.step app am0 l))
       = List.filter (Alerts.about "up" rule) (Alerts.trace am0)).
Proof.
  split; [|split].
  - intros Hs. unfold Alerts.HandleStatusAlerts. cbn.
    apply String_eqb_false_iff in Hs. rewrite Hs. reflexivity.
  - intros Hs rs Hrs Hnd.
    exists (Alerts.handleSystemUp app (Alerts.sys_name oldSystemRecord) rs am).
    split; [by apply HandleStatusAlerts_up|].
    destruct (handleSystemUp_rules app (Alerts.sys_name oldSystemRecord) rs am
                Hnd) as (Hp & Hbusy & Hidle & _).
    split; [exact Hp|]. split; [exact Hbusy | exact Hidle].
  - intros l am0 rule Hl. by apply step_not_up.
Qed.

Lemma up_transition_cancels_or_notifies_witness :
  Alerts.HandleStatusAlerts Scenario.app "up" (Scenario.host "pending")
    Alerts.NewAlertManager = (None, Alerts.NewAlertManager)
  ∧ ∃ am',
      Alerts.HandleStatusAlerts Scenario.app "up" (Scenario.host "down")
        Alerts.NewAlertManager = (None, am')
      ∧ List.filter (Alerts.raised "up" "r1") (Alerts.trace am')
        = [Alerts.EvStatusAlert "up" "web" "r1"].
Proof.
  destruct (up_transition_cancels_or_notifies Scenario.app
              (Scenario.host "pending") Alerts.NewAlertManager)
    as (Hignored & _).
  split; [apply Hignored; discriminate|].
  destruct (up_transition_cancels_or_notifies Scenario.app
              (Scenario.host "down") Alerts.NewAlertManager)
    as (_ & Hdown & _).
  destruct (Hdown eq_refl [Scenario.rule1] eq_refl) as (am' & Heq & _ & _ & Hidle).
  { repeat constructor. apply not_elem_of_nil. }
  exists am'. split; [exact Heq|].
  destruct (Hidle Scenario.rule1) as (Hraised & _).
  - left.
  - reflexivity.
  - exact Hraised.
Defined.

(* ===================================================================== *)
(** ** Flap suppression *)
(* ===================================================================== *)

Section Flap.
Import Alerts.
Implicit Types (app : App) (am : AlertManager) (r : AlertRecord).
Implicit Types (rs : list AlertRecord) (ticks : list Go.Time).

(** A sweep neither touches nor reports a rule whose entry, if any, has
    not expired. *)
Lemma workerTick_quiet app now am key :
  keyed (pendingAlerts am) →
  (∀ info, pendingAlerts am !! key = Some info →
           Go.Time_After now (expireTime info) = false) →
  pendingAlerts (workerTick app now am) !! key = pendingAlerts am !! key
  ∧ ∀ status,
      List.filter (about status key) (trace (workerTick app now am))
      = List.filter (about status key) (trace am).
Proof.
  intros Hk Hfresh. rewrite workerTick_spec. cbn [pendingAlerts trace]. split.
  - apply sweepMap_foldl_kept. intros info Hin.
    apply elem_of_map_to_list in Hin. by apply Hfresh.
  - intros status. rewrite List.filter_app.
    assert (∀ l : list (string * alertInfo),
              (∀ kv, kv ∈ l → pendingAlerts am !! kv.1 = Some kv.2) →
              List.filter (about status key) (flat_map (sweepEvents app now) l)
              = []) as Hquiet.
    { induction l as [|[k info] l IH]; intros Hl; [done|].
      cbn [flat_map]. rewrite List.filter_app, IH, app_nil_r
        by (intros kv Hkv; apply Hl; by right).
      specialize (Hl (k, info) ltac:(left)). cbn in Hl.
      unfold sweepEvents. cbn [snd].
      destruct (Go.Time_After now (expireTime info)) eqn:Hexp; [|done].
      destruct (List.filter (about status key)
                  (statusAlertEvents app "down" (systemName info)
                     (alertRecord info))) eqn:Hf; [done|].
      exfalso.
      destruct (about_statusAlertEvents app "down" (systemName info)
                  (alertRecord info) status key) as [_ Hid];
        [by rewrite Hf|].
      rewrite (Hk _ _ Hl) in Hid. subst k.
      rewrite (Hfresh info Hl) in Hexp. discriminate Hexp. }
    rewrite Hquiet; [by rewrite app_nil_r|].
    intros [k info] Hkv. by apply elem_of_map_to_list in Hkv.
Qed.

Lemma workerTick_queue app now am :
  alertQueue (workerTick app now am) = alertQueue am.
Proof. by rewrite workerTick_spec. Qed.

Lemma workerTicks_quiet app ticks : ∀ am key,
  keyed (pendingAlerts am) →
  (∀ info, pendingAlerts am !! key = Some info →
           Forall (λ now, now ≤ expireTime info) ticks) →
  pendingAlerts (run app (LTick <$> ticks) am) !! key = pendingAlerts am !! key
  ∧ (∀ status,
       List.filter (about status key) (trace (run app (LTick <$> ticks) am))
       = List.filter (about status key) (trace am))
  ∧ alertQueue (run app (LTick <$> ticks) am) = alertQueue am
  ∧ keyed (pendingAlerts (run app (LTick <$> ticks) am)).
Proof.
  induction ticks as [|now ticks IH]; intros am key Hk Hbound; [done|].
  rewrite fmap_cons. change (run app (LTick now :: (LTick <$> ticks)) am)
    with (run app (LTick <$> ticks) (workerTick app now am)).
  destruct (workerTick_quiet app now am key Hk) as [Hsame Htrace].
  { intros info Hinfo. specialize (Hbound info Hinfo).
    apply Forall_cons in Hbound as [Hnow _].
    unfold Go.Time_After. apply Z.ltb_ge. exact Hnow. }
  assert (keyed (pendingAlerts (workerTick app now am))) as Hk'
    by (by apply (step_keyed app am (LTick now))).
  destruct (IH (workerTick app now am) key Hk') as (H1 & H2 & H3 & H4).
  { intros info Hinfo. rewrite Hsame in Hinfo.
    specialize (Hbound info Hinfo). by apply Forall_cons in Hbound as [_ ?]. }
  split; [by rewrite H1|]. split; [|split; [|done]].
  - intros status. by rewrite H2.
  - by rewrite H3, workerTick_queue.
Qed.

Lemma workerTasks_keyed nows am :
  keyed (pendingAlerts am) → keyed (pendingAlerts (workerTasks nows am)).
Proof.
  unfold workerTasks. revert am.
  induction nows as [|now nows IH]; intros am Hk; [done|].
  cbn [foldl]. apply IH. by apply workerTask_keyed.
Qed.

Lemma upEvents_flat_map_down app systemName rs rule :
  List.filter (about "down" rule) (flat_map (upEvents app systemName) rs) = [].
Proof.
  induction rs as [|r rs IH]; [done|]. cbn.
  by rewrite List.filter_app, about_upEvents_down, IH.
Qed.

End Flap.

(** C7, as stated, fails on the execution [Scenario.race]: the labels are
    in chronological order, the up-transition comes 69 s after the
    down-transition, less than the minimum of one minute plus 10 s, and
    yet a "down" alert is raised and handed to sendAlert for the rule,
    because the sweep at 78 s runs before the cancel task is dequeued. *)
Lemma down_alert_despite_early_recovery :
  Alerts.chronological Scenario.race = true
  ∧ 69 * Go.Second - 0
    < Alerts.min Scenario.rule1 * Go.Minute + 10 * Go.Second
  ∧ List.filter (Alerts.raised "down" "r1")
      (Alerts.trace (Alerts.run Scenario.app Scenario.race
                       Alerts.NewAlertManager))
    = [Alerts.EvStatusAlert "down" "web" "r1"]
  ∧ length (List.filter (Alerts.about "down" "r1")
              (Alerts.trace (Alerts.run Scenario.app Scenario.race
                               Alerts.NewAlertManager))) = 2%nat.
Proof. vm_compute. repeat split. Qed.

(** C7, amended: take a reachable state in which the queue is empty and
    the rule has no pending alert, a rule whose minimum M = max(1, min) is
    at most 153722867 minutes, and an execution in which
    - the host goes down at [t0] and the worker then dequeues the tasks
      sent (at clock readings from [t0] on),
    - sweeps run, none later than [t1],
    - the host comes back at [t1], strictly less than M minutes plus 10
      seconds after [t0],
    - further sweeps run before the worker dequeues the cancel tasks, none
      of them later than [t0] plus M minutes plus 10 seconds,
    - the worker dequeues the cancel tasks, and sweeps go on at any time.
    Then no "down" alert is raised or handed to sendAlert for the rule, and
    the rule ends without a pending alert. *)
Theorem short_outage_sends_no_down_alert
    (app : Alerts.App) (sysId sysName : string)
    (rs : list Alerts.AlertRecord) (r : Alerts.AlertRecord)
    (am : Alerts.AlertManager) (t0 t1 : Go.Time)
    (dequeues1 sweeps1 sweeps2 dequeues2 later : list Go.Time) :
  Alerts.reachable app am →
  Alerts.alertQueue am = [] →
  Alerts.pendingAlerts am !! Alerts.Id r = None →
  Alerts.getSystemStatusAlerts app sysId = Go.Ok rs →
  NoDup (Alerts.Id <$> rs) →
  r ∈ rs →
  Z.max 1 (Alerts.min r) ≤ 153722867 →
  t1 < t0 + (Z.max 1 (Alerts.min r) * Go.Minute + 10 * Go.Second) →
  (length rs ≤ length dequeues1)%nat →
  Forall (λ now, t0 ≤ now) dequeues1 →
  Forall (λ now, now ≤ t1) sweeps1 →
  Forall (λ now,
            now ≤ t0 + (Z.max 1 (Alerts.min r) * Go.Minute + 10 * Go.Second))
         sweeps2 →
  (length rs ≤ length dequeues2)%nat →
  let execution :=
    (Alerts.LStatus t0 "down" (Alerts.mkSystemRecord sysId sysName "up")
       :: (Alerts.LTask <$> dequeues1)
       ++ (Alerts.LTick <$> sweeps1)
       ++ Alerts.LStatus t1 "up" (Alerts.mkSystemRecord sysId sysName "down")
       :: (Alerts.LTick <$> sweeps2)
       ++ (Alerts.LTask <$> dequeues2)
       ++ (Alerts.LTick <$> later))%list in
  List.filter (Alerts.about "down" (Alerts.Id r))
    (Alerts.trace (Alerts.run app execution am))
  = List.filter (Alerts.about "down" (Alerts.Id r)) (Alerts.trace am)
  ∧ Alerts.pendingAlerts (Alerts.run app execution am) !! Alerts.Id r = None.
Proof.
  intros Hreach Hq Hnone Hrs Hnd Hr Hrange Hearly Hlen1 Hafter Hbefore
    Hsweeps2 Hlen2 execution.
  set (D := Z.max 1 (Alerts.min r) * Go.Minute + 10 * Go.Second) in *.
  pose proof (reachable_keyed app am Hreach) as Hk.
  pose proof (delayToNotification_exact r Hrange) as HD. fold D in HD.
  (* the down-transition *)
  set (am1 := Alerts.handleSystemDown sysName rs am).
  set (todo := filter (λ r, Alerts.pendingAlerts am !! Alerts.Id r = None) rs).
  assert (Alerts.alertQueue am1 = Alerts.scheduleTask sysName <$> todo
          ∧ Alerts.pendingAlerts am1 = Alerts.pendingAlerts am
          ∧ Alerts.trace am1 = Alerts.trace am) as (Hq1 & Hp1 & Ht1).
  { subst am1. rewrite handleSystemDown_spec. cbn. by rewrite Hq. }
  (* the worker stores the alerts *)
  set (am2 := Alerts.workerTasks dequeues1 am1).
  assert (r ∈ todo) as Hr_todo by (by apply list_elem_of_filter).
  destruct (workerTasks_schedule sysName todo dequeues1 am1 Hq1)
    as (Hq2 & _ & Hstored).
  { pose proof (length_filter
      (λ r, Alerts.pendingAlerts am !! Alerts.Id r = None) rs).
    subst todo. lia. }
  destruct (Hstored (NoDup_Id_filter _ rs Hnd) r Hr_todo)
    as (stored & Hstored_in & Hinfo).
  fold am2 in Hq2, Hinfo.
  assert (t0 ≤ stored) as Hstored_late.
  { rewrite Forall_forall in Hafter. by apply Hafter. }
  assert (Alerts.keyed (Alerts.pendingAlerts am2)) as Hk2.
  { apply workerTasks_keyed. by rewrite Hp1. }
  assert (Alerts.trace am2 = Alerts.trace am) as Ht2.
  { subst am2. by rewrite workerTasks_trace. }
  (* the sweeps during the outage *)
  set (am3 := Alerts.run app (Alerts.LTick <$> sweeps1) am2).
  destruct (workerTicks_quiet app sweeps1 am2 (Alerts.Id r) Hk2)
    as (Hp3 & Ht3 & Hq3 & Hk3).
  { intros info Hi. rewrite Hinfo in Hi. injection Hi as <-. cbn.
    eapply Forall_impl; [exact Hbefore|]. cbn. intros now Hnow. lia. }
  fold am3 in Hp3, Ht3, Hq3, Hk3.
  (* the up-transition *)
  set (am4 := Alerts.handleSystemUp app sysName rs am3).
  set (busy := filter (λ r, is_Some (Alerts.pendingAlerts am3 !! Alerts.Id r)) rs).
  assert (Alerts.alertQueue am4 = Alerts.cancelTask <$> busy
          ∧ Alerts.pendingAlerts am4 = Alerts.pendingAlerts am3
          ∧ List.filter (Alerts.about "down" (Alerts.Id r)) (Alerts.trace am4)
            = List.filter (Alerts.about "down" (Alerts.Id r)) (Alerts.trace am3))
    as (Hq4 & Hp4 & Ht4).
  { subst am4. rewrite handleSystemUp_spec. cbn. rewrite Hq3, Hq2.
    split; [done|]. split; [done|].
    by rewrite List.filter_app, upEvents_flat_map_down, app_nil_r. }
  assert (r ∈ busy) as Hr_busy.
  { apply list_elem_of_filter. split; [|done]. rewrite Hp3, Hinfo. eauto. }
  (* the sweeps before the cancel task is dequeued *)
  set (am5 := Alerts.run app (Alerts.LTick <$> sweeps2) am4).
  destruct (workerTicks_quiet app sweeps2 am4 (Alerts.Id r))
    as (Hp5 & Ht5 & Hq5 & Hk5).
  { by rewrite Hp4. }
  { intros info Hi. rewrite Hp4, Hp3, Hinfo in Hi. injection Hi as <-. cbn.
    eapply Forall_impl; [exact Hsweeps2|]. cbn. intros now Hnow. lia. }
  fold am5 in Hp5, Ht5, Hq5, Hk5.
  (* the worker cancels *)
  set (am6 := Alerts.workerTasks dequeues2 am5).
  destruct (workerTasks_cancel busy dequeues2 am5) as (Hq6 & Hp6).
  { by rewrite Hq5. }
  { pose proof (length_filter
      (λ r, is_Some (Alerts.pendingAlerts am3 !! Alerts.Id r)) rs).
    subst busy. lia. }
  fold am6 in Hq6, Hp6.
  assert (Alerts.pendingAlerts am6 !! Alerts.Id r = None) as Hgone.
  { rewrite Hp6, decide_True; [done|]. by apply list_elem_of_fmap_2. }
  assert (Alerts.keyed (Alerts.pendingAlerts am6)) as Hk6
    by (by apply workerTasks_keyed).
  assert (Alerts.trace am6 = Alerts.trace am5) as Ht6.
  { subst am6. by rewrite workerTasks_trace. }
  (* the sweeps afterwards *)
  destruct (workerTicks_quiet app later am6 (Alerts.Id r) Hk6)
    as (Hp7 & Ht7 & _ & _).
  { intros info Hi. rewrite Hgone in Hi. discriminate Hi. }
  (* the execution is the composition of these stages *)
  assert (Alerts.run app execution am
          = Alerts.run app (Alerts.LTick <$> later) am6) as ->.
  { subst execution. rewrite run_cons. cbn [Alerts.step].
    rewrite (HandleStatusAlerts_down app
               (Alerts.mkSystemRecord sysId sysName "up") am rs eq_refl Hrs).
    cbn [snd Alerts.sys_name]. fold am1.
    rewrite !run_app, run_LTask. fold am2 am3.
    rewrite run_cons. cbn [Alerts.step].
    rewrite (HandleStatusAlerts_up app
               (Alerts.mkSystemRecord sysId sysName "down") am3 rs eq_refl Hrs).
    cbn [snd Alerts.sys_name]. fold am4.
    rewrite !run_app. fold am5. rewrite run_LTask. reflexivity. }
  split.
  - by rewrite Ht7, Ht6, Ht5, Ht4, Ht3, Ht2.
  - by rewrite Hp7.
Qed.

Lemma short_outage_sends_no_down_alert_witness :
  let execution :=
    (Alerts.LStatus 0 "down" (Alerts.mkSystemRecord "s1" "web" "up")
       :: (Alerts.LTask <$> [0])
       ++ (Alerts.LTick <$> [13 * Go.Second; 26 * Go.Second; 39 * Go.Second;
                             52 * Go.Second; 65 * Go.Second])
       ++ Alerts.LStatus (69 * Go.Second) "up"
            (Alerts.mkSystemRecord "s1" "web" "down")
       :: (Alerts.LTick <$> [])
       ++ (Alerts.LTask <$> [69 * Go.Second])
       ++ (Alerts.LTick <$> [78 * Go.Second; 91 * Go.Second]))%list in
  List.filter (Alerts.about "down" "r1")
    (Alerts.trace (Alerts.run Scenario.app execution Alerts.NewAlertManager))
  = List.filter (Alerts.about "down" "r1") (Alerts.trace Alerts.NewAlertManager)
  ∧ Alerts.pendingAlerts
      (Alerts.run Scenario.app execution Alerts.NewAlertManager) !! "r1"
    = None.
Proof.
  apply (short_outage_sends_no_down_alert Scenario.app "s1" "web"
           [Scenario.rule1] Scenario.rule1 Alerts.NewAlertManager
           0 (69 * Go.Second)).
  - exists []. reflexivity.
  - reflexivity.
  - reflexivity.
  - reflexivity.
  - repeat constructor. apply not_elem_of_nil.
  - left.
  - vm_compute. discriminate.
  - vm_compute. reflexivity.
  - apply le_n.
  - repeat (constructor; [unfold Go.Second; lia|]). constructor.
  - repeat (constructor; [unfold Go.Second; lia|]). constructor.
  - constructor.
  - apply le_n.
Defined.

(* ===================================================================== *)
(** * Further properties *)
(* ===================================================================== *)

(** ** Strings *)

Section Strings.

Lemma length_append (s t : string) :
  String.length (s +:+ t) = (String.length s + String.length t)%nat.
Proof. induction s as [|c s IH]; simpl; [done|]. by rewrite IH. Qed.

Lemma substring_all (s : string) : String.substring 0 (String.length s) s = s.
Proof. induction s as [|c s IH]; simpl; [done|]. by rewrite IH. Qed.

Lemma substring_append_l (s t : string) :
  String.substring 0 (String.length s) (s +:+ t) = s.
Proof.
  induction s as [|c s IH]; simpl; [by destruct t|]. by rewrite IH.
Qed.

Lemma substring_append_r (s t : string) :
  String.substring (String.length s) (String.length t) (s +:+ t) = t.
Proof. induction s as [|c s IH]; simpl; [apply substring_all | exact IH]. Qed.

Lemma substring_split (s : string) (k : nat) :
  (k ≤ String.length s)%nat →
  String.substring 0 k s +:+ String.substring k (String.length s - k) s = s.
Proof.
  revert k. induction s as [|c s IH]; intros k Hk.
  - cbn in Hk. assert (k = 0)%nat as -> by lia. reflexivity.
  - destruct k as [|k].
    + simpl. by rewrite substring_all.
    + simpl in Hk. simpl.
      change (String c (String.substring 0 k s)
              +:+ String.substring k (String.length s - k) s)
        with (String c (String.substring 0 k s
                        +:+ String.substring k (String.length s - k) s)).
      rewrite IH by lia. reflexivity.
Qed.

Lemma HasSuffix_append (s suffix : string) : Go.HasSuffix (s +:+ suffix) suffix = true.
Proof.
  unfold Go.HasSuffix. rewrite length_append. apply andb_true_iff. split.
  - apply Nat.leb_le. lia.
  - replace (String.length s + String.length suffix - String.length suffix)%nat
      with (String.length s) by lia.
    rewrite substring_append_r. apply String.eqb_refl.
Qed.

Lemma TrimSuffix_append (s suffix : string) :
  Go.TrimSuffix (s +:+ suffix) suffix = s.
Proof.
  unfold Go.TrimSuffix. rewrite HasSuffix_append, length_append.
  replace (String.length s + String.length suffix - String.length suffix)%nat
    with (String.length s) by lia.
  apply substring_append_l.
Qed.

Lemma TrimSuffix_restore (s suffix : string) :
  Go.HasSuffix s suffix = true → Go.TrimSuffix s suffix +:+ suffix = s.
Proof.
  intros Hs. unfold Go.TrimSuffix. rewrite Hs.
  unfold Go.HasSuffix in Hs. apply andb_true_iff in Hs as [Hlen Heq].
  apply Nat.leb_le in Hlen. apply String.eqb_eq in Heq.
  pose proof (substring_split s (String.length s - String.length suffix)
                ltac:(lia)) as Hsplit.
  replace (String.length s - (String.length s - String.length suffix))%nat
    with (String.length suffix) in Hsplit by lia.
  rewrite Heq in Hsplit. exact Hsplit.
Qed.

Lemma append_cons (c : ascii) (s t : string) :
  String c s +:+ t = String c (s +:+ t).
Proof. reflexivity. Qed.

Lemma append_assoc (s t u : string) : (s +:+ t) +:+ u = s +:+ (t +:+ u).
Proof.
  induction s as [|c s IH]; [done|]. rewrite !append_cons. by rewrite IH.
Qed.

Lemma append_inj_l (s t u : string) : s +:+ t = s +:+ u → t = u.
Proof.
  induction s as [|c s IH]; [done|]. rewrite !append_cons.
  intros [= H]. by apply IH.
Qed.

Lemma append_nil_r (s : string) : s +:+ "" = s.
Proof.
  induction s as [|c s IH]; [done|]. rewrite append_cons. by rewrite IH.
Qed.

End Strings.

(** ** The link and the text of a status alert *)

Section Escape.

Lemma hex_roundtrip (c : ascii) :
  ascii_of_nat (16 * Go.unhex (Go.upperhex (nat_of_ascii c / 16))
                + Go.unhex (Go.upperhex (nat_of_ascii c mod 16))) = c.
Proof. destruct c as [[] [] [] [] [] [] [] []]; vm_compute; reflexivity. Qed.

Lemma kept_not_percent (c : ascii) :
  Go.shouldEscape_pathSegment c = false → Ascii.eqb c "%" = false.
Proof.
  destruct c as [[] [] [] [] [] [] [] []]; vm_compute; intros H;
    first [reflexivity | discriminate H].
Qed.

Lemma hex_digits_kept (c : ascii) :
  Go.shouldEscape_pathSegment (Go.upperhex (nat_of_ascii c / 16)) = false
  ∧ Go.shouldEscape_pathSegment (Go.upperhex (nat_of_ascii c mod 16)) = false.
Proof. destruct c as [[] [] [] [] [] [] [] []]; vm_compute; split; reflexivity. Qed.

Lemma unescape_percent (a b : ascii) (r : string) :
  Go.unescape (String "%" (String a (String b r)))
  = String (ascii_of_nat (16 * Go.unhex a + Go.unhex b)) (Go.unescape r).
Proof. reflexivity. Qed.

Lemma unescape_kept (c : ascii) (r : string) :
  Ascii.eqb c "%" = false → Go.unescape (String c r) = String c (Go.unescape r).
Proof. intros H. simpl. rewrite H. reflexivity. Qed.

Lemma PathEscape_cons (c : ascii) (r : string) :
  Go.PathEscape (String c r)
  = if Go.shouldEscape_pathSegment c
    then String "%" (String (Go.upperhex (nat_of_ascii c / 16))
                       (String (Go.upperhex (nat_of_ascii c mod 16))
                          (Go.PathEscape r)))
    else String c (Go.PathEscape r).
Proof. reflexivity. Qed.

Lemma unescape_PathEscape (s : string) : Go.unescape (Go.PathEscape s) = s.
Proof.
  induction s as [|c s IH]; [reflexivity|]. rewrite PathEscape_cons.
  destruct (Go.shouldEscape_pathSegment c) eqn:Hc.
  - by rewrite unescape_percent, hex_roundtrip, IH.
  - by rewrite (unescape_kept c _ (kept_not_percent c Hc)), IH.
Qed.

Lemma PathEscape_inj (s t : string) : Go.PathEscape s = Go.PathEscape t → s = t.
Proof.
  intros H. rewrite <- (unescape_PathEscape s), <- (unescape_PathEscape t).
  by rewrite H.
Qed.

(** A byte of an escaped segment is a percent sign or a byte that needs no
    escaping. *)
Lemma PathEscape_bytes (s : string) :
  Forall (λ c, c = "%"%char ∨ Go.shouldEscape_pathSegment c = false)
         (list_ascii_of_string (Go.PathEscape s)).
Proof.
  induction s as [|c s IH]; [constructor|]. rewrite PathEscape_cons.
  destruct (Go.shouldEscape_pathSegment c) eqn:Hc; simpl.
  - destruct (hex_digits_kept c) as [Hhi Hlo].
    repeat (constructor; [by auto|]). exact IH.
  - constructor; [by right | exact IH].
Qed.

End Escape.

(** X1: the message of a status alert.  For every system name and status,
    the text is "Connection to <name> is <status> " (with the final space),
    the title is that text followed by the emoji (green check mark for
    "up", red circle for anything else), and the link is the app URL,
    "/system/" and the escaped name.  The escaped name holds no slash,
    question mark, hash or space, and different names give different
    links.  When the expansion reports no failure and yields a user,
    sendStatusAlert hands exactly that message to sendAlert, once, and
    returns what sendAlert returns. *)
Theorem statusMessage_shape
    (app : Alerts.App) (alertStatus systemName : string)
    (user : Alerts.UserRecord) :
  let data := Alerts.statusMessage app alertStatus systemName user in
  Alerts.Message data
    = "Connection to " +:+ systemName +:+ " is " +:+ alertStatus +:+ " "
  ∧ Alerts.Title data
    = Alerts.Message data
      +:+ (if String.eqb alertStatus "up" then Alerts.emoji_up
           else Alerts.emoji_down)
  ∧ Alerts.UserID data = Alerts.user_Id user
  ∧ Alerts.LinkText data = "View " +:+ systemName
  ∧ Alerts.Link data
    = Alerts.AppURL app +:+ "/system/" +:+ Go.PathEscape systemName
  ∧ Forall (λ c, c ≠ "/"%char ∧ c ≠ "?"%char ∧ c ≠ "#"%char ∧ c ≠ " "%char)
      (list_ascii_of_string (Go.PathEscape systemName))
  ∧ (∀ systemName',
       Alerts.Link (Alerts.statusMessage app alertStatus systemName' user)
         = Alerts.Link data →
       systemName' = systemName)
  ∧ (∀ alertRecord expand am,
       Alerts.ExpandRecord app alertRecord = (∅, expand) →
       expand !! "user" = Some user →
       Alerts.sendStatusAlert app alertStatus systemName alertRecord am
       = (Alerts.sendAlert app data,
          Alerts.emit
            [Alerts.EvStatusAlert alertStatus systemName (Alerts.Id alertRecord);
             Alerts.EvSendAlert alertStatus (Alerts.Id alertRecord) data]
            am)).
Proof.
  cbv zeta.
  assert (Alerts.Title (Alerts.statusMessage app alertStatus systemName user)
          = ("Connection to " +:+ systemName +:+ " is " +:+ alertStatus +:+ " ")
            +:+ (if String.eqb alertStatus "up" then Alerts.emoji_up
                 else Alerts.emoji_down)) as Htitle.
  { unfold Alerts.statusMessage. cbn [Alerts.Title].
    by rewrite !append_assoc. }
  assert (Alerts.Message (Alerts.statusMessage app alertStatus systemName user)
          = "Connection to " +:+ systemName +:+ " is " +:+ alertStatus +:+ " ")
    as Hmessage.
  { unfold Alerts.statusMessage. cbn [Alerts.Message].
    change (Go.TrimSuffix
              (Alerts.Title (Alerts.statusMessage app alertStatus systemName user))
              (if String.eqb alertStatus "up" then Alerts.emoji_up
               else Alerts.emoji_down) = 
            "Connection to " +:+ systemName +:+ " is " +:+ alertStatus +:+ " ").
    rewrite Htitle. apply TrimSuffix_append. }
  split; [exact Hmessage|]. split; [by rewrite Hmessage, Htitle|].
  split; [reflexivity|]. split; [reflexivity|]. split; [reflexivity|].
  split; [|split].
  - eapply Forall_impl; [apply PathEscape_bytes|]. cbn.
    intros c [->|Hc]; [repeat split; discriminate|].
    repeat split; intros ->; vm_compute in Hc; discriminate Hc.
  - intros systemName' Hlink. unfold Alerts.statusMessage in Hlink.
    cbn [Alerts.Link] in Hlink.
    apply append_inj_l in Hlink. apply (append_inj_l "/system/") in Hlink.
    by apply PathEscape_inj.
  - intros alertRecord expand am Hexpand Huser.
    unfold Alerts.sendStatusAlert. rewrite Hexpand. cbn. rewrite Huser.
    by rewrite emit_emit.
Qed.

(* ===================================================================== *)
(** ** The sweep of the worker *)
(* ===================================================================== *)

Section Sweep.
Import Alerts.
Implicit Types (app : App) (am : AlertManager) (r : AlertRecord).
Implicit Types (m : gmap string alertInfo) (info : alertInfo).

Lemma sweepMap_foldl_removed now (l : list (string * alertInfo)) m key info :
  (key, info) ∈ l → Go.Time_After now (expireTime info) = true →
  foldl (sweepMap now) m l !! key = None.
Proof.
  revert m. induction l as [|[k i] l IH]; intros m Hin Hexp.
  - by apply elem_of_nil in Hin.
  - cbn [foldl]. apply elem_of_cons in Hin as [[= <- <-]|Hin].
    + apply sweepMap_foldl_absent. unfold sweepMap. cbn [fst snd].
      rewrite Hexp. apply lookup_delete_eq.
    + by apply IH.
Qed.

Lemma workerTick_lookup app now am key :
  pendingAlerts (workerTick app now am) !! key
  = match pendingAlerts am !! key with
    | Some info =>
        if Go.Time_After now (expireTime info) then None else Some info
    | None => None
    end.
Proof.
  rewrite workerTick_spec. cbn [pendingAlerts].
  destruct (pendingAlerts am !! key) as [info|] eqn:Hkey.
  - destruct (Go.Time_After now (expireTime info)) eqn:Hexp.
    + apply (sweepMap_foldl_removed now _ _ key info); [|done].
      by apply elem_of_map_to_list.
    + rewrite sweepMap_foldl_kept; [done|]. intros info' Hin.
      apply elem_of_map_to_list in Hin. congruence.
  - by apply sweepMap_foldl_absent.
Qed.

Lemma filter_flat_map_nil {A} (P : Event → bool) (f : A → list Event)
    (l : list A) :
  (∀ y, y ∈ l → List.filter P (f y) = []) →
  List.filter P (flat_map f l) = [].
Proof.
  induction l as [|y l IH]; intros Hl; [done|]. cbn.
  rewrite List.filter_app, (Hl y) by left. apply IH.
  intros z Hz. apply Hl. by right.
Qed.

Lemma filter_flat_map_single {A} (P : Event → bool) (f : A → list Event)
    (l : list A) (x : A) :
  NoDup l → x ∈ l →
  (∀ y, y ∈ l → y ≠ x → List.filter P (f y) = []) →
  List.filter P (flat_map f l) = List.filter P (f x).
Proof.
  induction l as [|y l IH]; intros Hnd Hx Hother.
  - by apply elem_of_nil in Hx.
  - apply NoDup_cons in Hnd as [Hy Hnd]. cbn. rewrite List.filter_app.
    apply elem_of_cons in Hx as [->|Hx].
    + rewrite filter_flat_map_nil; [by rewrite app_nil_r|].
      intros z Hz. apply Hother; [by right|]. congruence.
    + rewrite (Hother y); [|by left|congruence].
      apply IH; [done..|]. intros z Hz. apply Hother. by right.
Qed.

(** In a map whose entries sit under the ids of their rules, the events of
    a sweep about one rule are those of its own entry. *)
Lemma sweep_events_of_entry app now m key info (P : string → string → Event → bool)
    status :
  (∀ e, P status key e = true → about status key e = true) →
  keyed m → m !! key = Some info →
  List.filter (P status key) (flat_map (sweepEvents app now) (map_to_list m))
  = List.filter (P status key) (sweepEvents app now (key, info)).
Proof.
  intros HP Hk Hkey.
  apply filter_flat_map_single.
  - apply NoDup_map_to_list.
  - by apply elem_of_map_to_list.
  - intros [k i] Hin Hne. apply elem_of_map_to_list in Hin.
    assert (k ≠ key) as Hk' by (intros ->; congruence).
    assert (List.filter (about status key) (sweepEvents app now (k, i)) = [])
      as Habout.
    { unfold sweepEvents. cbn [snd]. destruct (Go.Time_After _ _); [|done].
      destruct (List.filter (about status key)
                  (statusAlertEvents app "down" (systemName i) (alertRecord i)))
        eqn:Hf; [done|]. exfalso.
      destruct (about_statusAlertEvents app "down" (systemName i)
                  (alertRecord i) status key) as [_ Hid]; [by rewrite Hf|].
      rewrite (Hk _ _ Hin) in Hid. done. }
    clear -HP Habout. induction (sweepEvents app now (k, i)) as [|e l IH];
      [done|]. cbn in *.
    destruct (about status key e) eqn:Ha; [discriminate|].
    destruct (P status key e) eqn:Hp; [|by apply IH].
    apply HP in Hp. congruence.
Qed.

Lemma raised_filter_about status key (evs : list Event) :
  List.filter (raised status key) evs
  = List.filter (raised status key) (List.filter (about status key) evs).
Proof.
  induction evs as [|e evs IH]; [done|]. cbn.
  destruct (about status key e) eqn:Ha; cbn.
  - by rewrite IH.
  - destruct (raised status key e) eqn:Hr; [|done].
    apply raised_about in Hr. congruence.
Qed.

(** A sweep that finds the entry of a rule expired. *)
Lemma workerTick_fires app now am key info :
  keyed (pendingAlerts am) →
  pendingAlerts am !! key = Some info →
  expireTime info < now →
  List.filter (raised "down" key) (trace (workerTick app now am))
  = (List.filter (raised "down" key) (trace am)
     ++ [EvStatusAlert "down" (systemName info) key])%list
  ∧ List.filter (about "down" key) (trace (workerTick app now am))
    = (List.filter (about "down" key) (trace am)
       ++ statusAlertEvents app "down" (systemName info) (alertRecord info))%list
  ∧ pendingAlerts (workerTick app now am) !! key = None.
Proof.
  intros Hk Hkey Hexp.
  pose proof (Hk _ _ Hkey) as Hid.
  assert (Go.Time_After now (expireTime info) = true) as Hafter
    by (by apply Z.ltb_lt).
  assert (sweepEvents app now (key, info)
          = statusAlertEvents app "down" (systemName info) (alertRecord info))
    as Hev.
  { unfold sweepEvents. cbn [snd]. by rewrite Hafter. }
  split; [|split].
  - rewrite workerTick_spec. cbn [trace]. rewrite List.filter_app. f_equal.
    rewrite (sweep_events_of_entry app now _ key info raised "down");
      [|apply raised_about|done..].
    rewrite Hev, <- Hid. apply statusAlertEvents_raised.
  - rewrite workerTick_spec. cbn [trace]. rewrite List.filter_app. f_equal.
    rewrite (sweep_events_of_entry app now _ key info about "down"); [|done..].
    rewrite Hev, <- Hid. apply statusAlertEvents_about.
  - by rewrite workerTick_lookup, Hkey, Hafter.
Qed.

End Sweep.

(** X2: what a sweep does to the map.  After a sweep at clock [now] an
    entry is gone exactly when its expiry lies strictly before [now],
    whatever sending the alert returned; every other entry, one that
    expires at [now] itself included, is kept as it was, and the queue is
    not touched. *)
Theorem sweep_removes_expired_entries
    (app : Alerts.App) (now : Go.Time) (am : Alerts.AlertManager)
    (key : string) :
  Alerts.pendingAlerts (Alerts.workerTick app now am) !! key
  = match Alerts.pendingAlerts am !! key with
    | Some info => if Alerts.expireTime info <? now then None else Some info
    | None => None
    end
  ∧ (∀ info, Alerts.pendingAlerts am !! key = Some info →
       Alerts.expireTime info = now →
       Alerts.pendingAlerts (Alerts.workerTick app now am) !! key = Some info)
  ∧ Alerts.alertQueue (Alerts.workerTick app now am) = Alerts.alertQueue am.
Proof.
  split; [apply workerTick_lookup|]. split.
  - intros info Hinfo Hnow. rewrite workerTick_lookup, Hinfo.
    unfold Go.Time_After. by rewrite Hnow, Z.ltb_irrefl.
  - by rewrite workerTick_spec.
Qed.

Lemma sweep_removes_expired_entries_witness :
  let am := Alerts.run Scenario.app
              [Alerts.LStatus 0 "down" (Scenario.host "up"); Alerts.LTask 0]
              Alerts.NewAlertManager in
  is_Some (Alerts.pendingAlerts
             (Alerts.workerTick Scenario.app (70 * Go.Second) am) !! "r1").
Proof.
  intros am.
  destruct (sweep_removes_expired_entries Scenario.app (70 * Go.Second) am "r1")
    as (_ & Hboundary & _).
  eexists. apply Hboundary; reflexivity.
Defined.

(** X3: a pending alert fires once.  In a reachable state, a sweep that
    finds the entry of a rule expired raises exactly one "down" status
    alert for that rule, under the system name stored with the entry; the
    events it adds about the rule are those of that one call of
    sendStatusAlert; the entry is removed; and no later sweep, at whatever
    time, adds another event about the rule. *)
Theorem expired_alert_fires_once
    (app : Alerts.App) (now : Go.Time) (am : Alerts.AlertManager)
    (key : string) (info : Alerts.alertInfo) (later : list Go.Time) :
  Alerts.reachable app am →
  Alerts.pendingAlerts am !! key = Some info →
  Alerts.expireTime info < now →
  let am' := Alerts.workerTick app now am in
  List.filter (Alerts.raised "down" key) (Alerts.trace am')
  = (List.filter (Alerts.raised "down" key) (Alerts.trace am)
     ++ [Alerts.EvStatusAlert "down" (Alerts.systemName info) key])%list
  ∧ List.filter (Alerts.about "down" key) (Alerts.trace am')
    = (List.filter (Alerts.about "down" key) (Alerts.trace am)
       ++ Alerts.statusAlertEvents app "down" (Alerts.systemName info)
            (Alerts.alertRecord info))%list
  ∧ Alerts.pendingAlerts am' !! key = None
  ∧ (∀ status,
       List.filter (Alerts.about status key)
         (Alerts.trace (Alerts.run app (Alerts.LTick <$> later) am'))
       = List.filter (Alerts.about status key) (Alerts.trace am')).
Proof.
  intros Hreach Hkey Hexp am'.
  pose proof (reachable_keyed app am Hreach) as Hk.
  destruct (workerTick_fires app now am key info Hk Hkey Hexp)
    as (Hraised & Habout & Hgone).
  split; [exact Hraised|]. split; [exact Habout|]. split; [exact Hgone|].
  intros status.
  destruct (workerTicks_quiet app later am' key) as (_ & Hquiet & _).
  - by apply (step_keyed app am (Alerts.LTick now)).
  - intros i Hi. subst am'. rewrite Hgone in Hi. discriminate Hi.
  - apply Hquiet.
Qed.

Lemma expired_alert_fires_once_witness :
  let am := Alerts.run Scenario.app
              [Alerts.LStatus 0 "down" (Scenario.host "up"); Alerts.LTask 0]
              Alerts.NewAlertManager in
  List.filter (Alerts.raised "down" "r1")
    (Alerts.trace (Alerts.workerTick Scenario.app (78 * Go.Second) am))
  = (List.filter (Alerts.raised "down" "r1") (Alerts.trace am)
     ++ [Alerts.EvStatusAlert "down" "web" "r1"])%list.
Proof.
  intros am.
  destruct (expired_alert_fires_once Scenario.app (78 * Go.Second) am "r1"
              {| Alerts.systemName := "web";
                 Alerts.alertRecord := Scenario.rule1;
                 Alerts.expireTime := 70 * Go.Second |} [])
    as (Hraised & _).
  - eexists. reflexivity.
  - reflexivity.
  - reflexivity.
  - exact Hraised.
Defined.

(** X4: an outage that outlasts the delay.  From a reachable state in
    which the rule has a pending alert: when sweeps run up to the expiry
    without effect, one sweep runs after it, further sweeps follow, and the
    host then comes back (recorded status "down", the rule among those
    found, distinct ids), exactly one "down" status alert has been raised
    for the rule, followed by exactly one "up" status alert; the rule ends
    without a pending alert and no cancel task was sent for it. *)
Theorem long_outage_one_down_then_one_up
    (app : Alerts.App) (sysId sysName : string)
    (rs : list Alerts.AlertRecord) (r : Alerts.AlertRecord)
    (am : Alerts.AlertManager) (info : Alerts.alertInfo)
    (before after : list Go.Time) (fire t1 : Go.Time) :
  Alerts.reachable app am →
  Alerts.pendingAlerts am !! Alerts.Id r = Some info →
  Alerts.getSystemStatusAlerts app sysId = Go.Ok rs →
  NoDup (Alerts.Id <$> rs) →
  r ∈ rs →
  Forall (λ now, now ≤ Alerts.expireTime info) before →
  Alerts.expireTime info < fire →
  let execution :=
    ((Alerts.LTick <$> before)
     ++ Alerts.LTick fire :: (Alerts.LTick <$> after)
     ++ [Alerts.LStatus t1 "up" (Alerts.mkSystemRecord sysId sysName "down")])%list in
  let final := Alerts.run app execution am in
  List.filter (Alerts.raised "down" (Alerts.Id r)) (Alerts.trace final)
  = (List.filter (Alerts.raised "down" (Alerts.Id r)) (Alerts.trace am)
     ++ [Alerts.EvStatusAlert "down" (Alerts.systemName info) (Alerts.Id r)])%list
  ∧ List.filter (Alerts.raised "up" (Alerts.Id r)) (Alerts.trace final)
    = (List.filter (Alerts.raised "up" (Alerts.Id r)) (Alerts.trace am)
       ++ [Alerts.EvStatusAlert "up" sysName (Alerts.Id r)])%list
  ∧ Alerts.pendingAlerts final !! Alerts.Id r = None
  ∧ ∃ sent : list Alerts.alertTask,
      Alerts.alertQueue final = (Alerts.alertQueue am ++ sent)%list
      ∧ ∀ task, task ∈ sent →
          Alerts.Id (Alerts.task_alertRecord task) ≠ Alerts.Id r.
Proof.
  intros Hreach Hkey Hrs Hnd Hr Hbefore Hfire execution final.
  pose proof (reachable_keyed app am Hreach) as Hk.
  (* the sweeps before the expiry *)
  set (am1 := Alerts.run app (Alerts.LTick <$> before) am).
  destruct (workerTicks_quiet app before am (Alerts.Id r) Hk)
    as (Hp1 & Ht1 & Hq1 & Hk1).
  { intros i Hi. rewrite Hkey in Hi. by injection Hi as <-. }
  fold am1 in Hp1, Ht1, Hq1, Hk1.
  (* the sweep that fires *)
  set (am2 := Alerts.workerTick app fire am1).
  destruct (workerTick_fires app fire am1 (Alerts.Id r) info Hk1)
    as (Hdown2 & _ & Hp2); [by rewrite Hp1 | done |].
  fold am2 in Hdown2, Hp2.
  assert (Alerts.keyed (Alerts.pendingAlerts am2)) as Hk2
    by (by apply (step_keyed app am1 (Alerts.LTick fire))).
  assert (List.filter (Alerts.about "up" (Alerts.Id r)) (Alerts.trace am2)
          = List.filter (Alerts.about "up" (Alerts.Id r)) (Alerts.trace am1))
    as Hup2.
  { apply (step_not_up app am1 (Alerts.LTick fire)). discriminate. }
  assert (Alerts.alertQueue am2 = Alerts.alertQueue am1) as Hq2
    by apply workerTick_queue.
  (* the sweeps afterwards *)
  set (am3 := Alerts.run app (Alerts.LTick <$> after) am2).
  destruct (workerTicks_quiet app after am2 (Alerts.Id r) Hk2)
    as (Hp3 & Ht3 & Hq3 & Hk3).
  { intros i Hi. rewrite Hp2 in Hi. discriminate Hi. }
  fold am3 in Hp3, Ht3, Hq3, Hk3.
  (* the up-transition *)
  set (am4 := Alerts.handleSystemUp app sysName rs am3).
  assert (Alerts.pendingAlerts am3 !! Alerts.Id r = None) as Hnone3
    by (by rewrite Hp3).
  destruct (handleSystemUp_rules app sysName rs am3 Hnd)
    as (Hp4 & _ & Hidle & _).
  destruct (Hidle r Hr Hnone3) as (Hup4 & _).
  fold am4 in Hp4, Hup4.
  assert (final = am4) as ->.
  { subst final execution. rewrite run_app. fold am1.
    rewrite run_cons. cbn [Alerts.step]. fold am2.
    rewrite run_app. fold am3.
    unfold Alerts.run. cbn [foldl Alerts.step].
    rewrite (HandleStatusAlerts_up app
               (Alerts.mkSystemRecord sysId sysName "down") am3 rs eq_refl Hrs).
    reflexivity. }
  split; [|split; [|split]].
  - subst am4. rewrite handleSystemUp_spec. cbn [Alerts.trace].
    rewrite List.filter_app.
    rewrite (filter_nil_of_about "down" (Alerts.Id r)
               (flat_map (Alerts.upEvents app sysName) _))
      by apply upEvents_flat_map_down.
    rewrite app_nil_r.
    rewrite (raised_filter_about "down" _ (Alerts.trace am3)), Ht3,
      <- raised_filter_about, Hdown2.
    by rewrite (raised_filter_about "down" _ (Alerts.trace am1)), Ht1,
      <- raised_filter_about.
  - rewrite Hup4.
    rewrite (raised_filter_about "up" _ (Alerts.trace am3)), Ht3, Hup2, Ht1,
      <- raised_filter_about. reflexivity.
  - by rewrite Hp4.
  - subst am4. rewrite handleSystemUp_spec. cbn [Alerts.alertQueue].
    rewrite Hq3, Hq2, Hq1. eexists. split; [reflexivity|].
    intros task Htask. apply list_elem_of_fmap in Htask as (r' & -> & Hr').
    apply list_elem_of_filter in Hr' as [[i Hi] _]. cbn.
    intros Heq. rewrite Heq, Hnone3 in Hi. discriminate Hi.
Qed.

Lemma long_outage_one_down_then_one_up_witness :
  let am := Alerts.run Scenario.app
              [Alerts.LStatus 0 "down" (Scenario.host "up"); Alerts.LTask 0]
              Alerts.NewAlertManager in
  let final :=
    Alerts.run Scenario.app
      ((Alerts.LTick <$> [13 * Go.Second; 65 * Go.Second])
       ++ Alerts.LTick (78 * Go.Second) :: (Alerts.LTick <$> [91 * Go.Second])
       ++ [Alerts.LStatus (300 * Go.Second) "up"
             (Alerts.mkSystemRecord "s1" "web" "down")])%list am in
  List.filter (Alerts.raised "down" "r1") (Alerts.trace final)
  = (List.filter (Alerts.raised "down" "r1") (Alerts.trace am)
     ++ [Alerts.EvStatusAlert "down" "web" "r1"])%list
  ∧ List.filter (Alerts.raised "up" "r1") (Alerts.trace final)
    = (List.filter (Alerts.raised "up" "r1") (Alerts.trace am)
       ++ [Alerts.EvStatusAlert "up" "web" "r1"])%list.
Proof.
  intros am final.
  destruct (long_outage_one_down_then_one_up Scenario.app "s1" "web"
              [Scenario.rule1] Scenario.rule1 am
              {| Alerts.systemName := "web";
                 Alerts.alertRecord := Scenario.rule1;
                 Alerts.expireTime := 70 * Go.Second |}
              [13 * Go.Second; 65 * Go.Second] [91 * Go.Second]
              (78 * Go.Second) (300 * Go.Second))
    as (Hdown & Hup & _).
  - eexists. reflexivity.
  - reflexivity.
  - reflexivity.
  - repeat constructor. apply not_elem_of_nil.
  - left.
  - repeat (constructor; [unfold Go.Second; cbn; lia|]). constructor.
  - reflexivity.
  - split; [exact Hdown | exact Hup].
Defined.

(* ===================================================================== *)
(** ** HandleStatusAlerts: errors and no-ops *)
(* ===================================================================== *)

(** X5: HandleStatusAlerts returns an error exactly when the status change
    passes its gate ("up" after "down", "down" after "up") and the lookup
    of the rules fails, and the error is that of the lookup; whenever it
    returns an error the manager is unchanged.  A status other than "up"
    or "down", and a status equal to the recorded one, change nothing.  In
    no case does the handler write the map of pending alerts. *)
Theorem HandleStatusAlerts_errors
    (app : Alerts.App) (newStatus : string)
    (oldSystemRecord : Alerts.SystemRecord) (am : Alerts.AlertManager) :
  let out := Alerts.HandleStatusAlerts app newStatus oldSystemRecord am in
  (∀ err,
     out.1 = Some err ↔
     Alerts.find_error app = Some err
     ∧ ((newStatus = "up" ∧ Alerts.sys_status oldSystemRecord = "down")
        ∨ (newStatus = "down" ∧ Alerts.sys_status oldSystemRecord = "up")))
  ∧ (out.1 ≠ None → out.2 = am)
  ∧ (newStatus ≠ "up" → newStatus ≠ "down" → out = (None, am))
  ∧ (Alerts.sys_status oldSystemRecord = newStatus → out = (None, am))
  ∧ Alerts.pendingAlerts out.2 = Alerts.pendingAlerts am.
Proof.
  cbv zeta. split; [|split; [|split; [|split]]].
  - intros err. unfold Alerts.HandleStatusAlerts, Alerts.getSystemStatusAlerts.
    destruct (String.eqb_spec newStatus "up") as [->|Hup].
    + destruct (String.eqb_spec (Alerts.sys_status oldSystemRecord) "down")
        as [Hs|Hs]; cbn.
      * destruct (Alerts.find_error app) as [e|]; cbn.
        -- split; [intros [= ->]; eauto | intros [[= ->] _]; done].
        -- destruct (length _ =? 0)%nat; cbn; split; try done;
             intros [? _]; done.
      * split; [done|]. intros [_ [[_ ?]|[? _]]]; done.
    + destruct (String.eqb_spec newStatus "down") as [->|Hdown].
      * destruct (String.eqb_spec (Alerts.sys_status oldSystemRecord) "up")
          as [Hs|Hs]; cbn.
        -- destruct (Alerts.find_error app) as [e|]; cbn.
           ++ split; [intros [= ->]; eauto | intros [[= ->] _]; done].
           ++ destruct (length _ =? 0)%nat; cbn; split; try done;
                intros [? _]; done.
        -- split; [done|]. intros [_ [[? _]|[_ ?]]]; done.
      * cbn. split; [done|]. intros [_ [[? _]|[? _]]]; done.
  - unfold Alerts.HandleStatusAlerts.
    destruct (negb _); [done|].
    destruct (Alerts.getSystemStatusAlerts app _) as [rs|err]; [|done].
    destruct (length rs =? 0)%nat; [done|].
    destruct (String.eqb newStatus "down"); [done|].
    destruct (String.eqb newStatus "up"); done.
  - intros Hup Hdown. unfold Alerts.HandleStatusAlerts.
    apply String_eqb_false_iff in Hup, Hdown. by rewrite Hup, Hdown.
  - intros <-. unfold Alerts.HandleStatusAlerts.
    destruct (String.eqb_spec (Alerts.sys_status oldSystemRecord) "up")
      as [Hs|Hs].
    + rewrite Hs. reflexivity.
    + destruct (String.eqb_spec (Alerts.sys_status oldSystemRecord) "down")
        as [Hs'|Hs']; done.
  - apply HandleStatusAlerts_pending.
Qed.

Lemma HandleStatusAlerts_errors_witness :
  Alerts.HandleStatusAlerts Scenario.app "paused" (Scenario.host "up")
    Alerts.NewAlertManager = (None, Alerts.NewAlertManager)
  ∧ Alerts.HandleStatusAlerts Scenario.app "up" (Scenario.host "up")
      Alerts.NewAlertManager = (None, Alerts.NewAlertManager).
Proof.
  destruct (HandleStatusAlerts_errors Scenario.app "paused" (Scenario.host "up")
              Alerts.NewAlertManager) as (_ & _ & Hother & _).
  destruct (HandleStatusAlerts_errors Scenario.app "up" (Scenario.host "up")
              Alerts.NewAlertManager) as (_ & _ & _ & Hsame & _).
  split; [apply Hother; discriminate | apply Hsame; reflexivity].
Defined.

(* ===================================================================== *)
(** ** GetSSHKey: stability, frame, partial failure *)
(* ===================================================================== *)

Section KeyPair.
Import Hub.
Implicit Types (env : KeyEnv) (h : Hub) (fs : FS).

Lemma Hub_eta h : {| DataDir := DataDir h; pubKey := pubKey h |} = h.
Proof. by destruct h. Qed.

(** Every outcome of generateKeyPair, by the step that fails. *)
Lemma generateKeyPair_frame env h fs path :
  path ≠ privPath (DataDir h) → path ≠ pubPath (DataDir h) →
  (generateKeyPair env h fs).1.2 !! path = fs !! path.
Proof.
  intros Hpriv Hpub. unfold generateKeyPair.
  destruct (ed25519_GenerateKey env) as [[pub priv]|]; [|done].
  destruct (ssh_MarshalPrivateKey env priv); [|done].
  destruct (os_Create env (privPath _)); [done|].
  destruct (pem_Encode env _); cbn [fst snd];
    [|by rewrite lookup_insert_ne].
  destruct (ssh_NewPublicKey env pub); cbn [fst snd];
    [|by rewrite !lookup_insert_ne].
  destruct (os_Create env (pubPath _)); cbn [fst snd];
    [by rewrite !lookup_insert_ne|].
  destruct (file_Write env _ _); cbn [fst snd]; by rewrite !lookup_insert_ne.
Qed.

Lemma generateKeyPair_DataDir env h fs :
  DataDir (generateKeyPair env h fs).1.1.2 = DataDir h.
Proof.
  unfold generateKeyPair.
  destruct (ed25519_GenerateKey env) as [[pub priv]|]; [|done].
  destruct (ssh_MarshalPrivateKey env priv); [|done].
  destruct (os_Create env (privPath _)); [done|].
  destruct (pem_Encode env _); [|done].
  destruct (ssh_NewPublicKey env pub); [|done].
  destruct (os_Create env (pubPath _)); [done|].
  destruct (file_Write env _ _); done.
Qed.

Lemma GetSSHKey_DataDir env h fs :
  DataDir (GetSSHKey env h fs).1.1.2 = DataDir h.
Proof.
  unfold GetSSHKey.
  destruct (os_ReadFile fs (privPath _)); [|apply generateKeyPair_DataDir].
  cbn. destruct (os_ReadFile fs (pubPath _)); done.
Qed.

(** A call that finds the private key file. *)
Lemma GetSSHKey_existing env h fs key :
  fs !! privPath (DataDir h) = Some key →
  GetSSHKey env h fs
  = (Go.Ok key,
     match fs !! pubPath (DataDir h) with
     | Some pubKey => {| DataDir := DataDir h;
                         pubKey := Go.TrimSuffix pubKey Go.newline |}
     | None => h
     end, fs, []).
Proof.
  intros Hpriv. unfold GetSSHKey. rewrite (os_ReadFile_Ok _ _ _ Hpriv).
  unfold os_ReadFile. destruct (fs !! pubPath (DataDir h)); reflexivity.
Qed.

(** The private key file exists after a generation exactly when the key was
    generated and marshalled and the file could be created. *)
Lemma generateKeyPair_private_file env h fs :
  fs !! privPath (DataDir h) = None →
  (is_Some ((generateKeyPair env h fs).1.2 !! privPath (DataDir h))
   ↔ ∃ pub priv block,
       ed25519_GenerateKey env = Go.Ok (pub, priv)
       ∧ ssh_MarshalPrivateKey env priv = Go.Ok block
       ∧ os_Create env (privPath (DataDir h)) = None)
  ∧ (¬ is_Some ((generateKeyPair env h fs).1.2 !! privPath (DataDir h)) →
     (generateKeyPair env h fs).1.2 = fs
     ∧ (generateKeyPair env h fs).1.1.2 = h).
Proof.
  intros Hnone.
  pose proof (privPath_ne_pubPath (DataDir h)) as Hne.
  unfold generateKeyPair.
  destruct (ed25519_GenerateKey env) as [[pub priv]|] eqn:Hgen; cbn [fst snd].
  2:{ rewrite Hnone. split; [|done].
      split; [by intros [? ?] | by intros (? & ? & ? & ? & _)]. }
  destruct (ssh_MarshalPrivateKey env priv) as [block|] eqn:Hm; cbn [fst snd].
  2:{ rewrite Hnone. split; [|done].
      split; [by intros [? ?] | intros (? & ? & ? & [= <- <-] & ? & _)].
      congruence. }
  destruct (os_Create env (privPath _)) as [e|] eqn:Hc; cbn [fst snd].
  { rewrite Hnone. split; [|done].
    split; [by intros [? ?] | by intros (? & ? & ? & _ & _ & ?)]. }
  assert (∃ p q b, Go.Ok (pub, priv) = Go.Ok (p, q)
                   ∧ ssh_MarshalPrivateKey env q = Go.Ok b
                   ∧ (None : Go.error) = None) as Hex
    by (exists pub, priv, block; done).
  destruct (pem_Encode env _); cbn [fst snd].
  2:{ rewrite lookup_insert_eq. split; [split; eauto|].
      intros []. eauto. }
  destruct (ssh_NewPublicKey env pub); cbn [fst snd].
  2:{ rewrite lookup_insert_eq. split; [split; eauto|]. intros []. eauto. }
  destruct (os_Create env (pubPath _)); cbn [fst snd].
  { rewrite lookup_insert_eq. split; [split; eauto|]. intros []. eauto. }
  destruct (file_Write env _ _); cbn [fst snd];
    rewrite !(lookup_insert_ne _ (pubPath _) (privPath _)) by congruence;
    rewrite lookup_insert_eq; (split; [split; eauto|]); intros []; eauto.
Qed.

End KeyPair.

(** X6: once GetSSHKey has returned a key, a further call on the hub and
    the files it left returns the same key, generates nothing, and leaves
    the hub and the files as they are, whatever the key generator would
    answer then. *)
Theorem GetSSHKey_second_call_is_stable
    (env env' : Hub.KeyEnv) (h : Hub.Hub) (fs : Hub.FS) (key : string) :
  (Hub.GetSSHKey env h fs).1.1.1 = Go.Ok key →
  Hub.GetSSHKey env' (Hub.GetSSHKey env h fs).1.1.2 (Hub.GetSSHKey env h fs).1.2
  = (Go.Ok key, (Hub.GetSSHKey env h fs).1.1.2, (Hub.GetSSHKey env h fs).1.2, []).
Proof.
  destruct (fs !! Hub.privPath (Hub.DataDir h)) as [k|] eqn:Hpriv.
  - rewrite (GetSSHKey_existing env h fs k Hpriv). cbn [fst snd].
    intros [= ->].
    destruct (fs !! Hub.pubPath (Hub.DataDir h)) as [pk|] eqn:Hpub.
    + rewrite (GetSSHKey_existing env' _ fs key) by exact Hpriv.
      cbn [Hub.DataDir]. rewrite Hpub. reflexivity.
    + rewrite (GetSSHKey_existing env' h fs key Hpriv). by rewrite Hpub.
  - assert (Hub.GetSSHKey env h fs = Hub.generateKeyPair env h fs) as ->
      by (unfold Hub.GetSSHKey; by rewrite (os_ReadFile_Err _ _ Hpriv)).
    intros Hok.
    destruct (generateKeyPair_Ok env h fs key Hok) as (Hk & pk & Hpk & Hpub).
    pose proof (generateKeyPair_DataDir env h fs) as Hdir.
    set (out := Hub.generateKeyPair env h fs) in *.
    rewrite (GetSSHKey_existing env' out.1.1.2 out.1.2 key)
      by (by rewrite Hdir).
    rewrite Hdir, Hpk, <- Hpub, <- Hdir. by rewrite Hub_eta.
Qed.

Lemma GetSSHKey_second_call_is_stable_witness :
  let out := Hub.GetSSHKey Scenario.keyEnv Scenario.hub ∅ in
  out.1.1.1 = Go.Ok "pem block PRIV"
  ∧ Hub.GetSSHKey Scenario.keyEnv_no_public out.1.1.2 out.1.2
    = (Go.Ok "pem block PRIV", out.1.1.2, out.1.2, []).
Proof.
  split; [reflexivity|].
  apply (GetSSHKey_second_call_is_stable Scenario.keyEnv
           Scenario.keyEnv_no_public Scenario.hub ∅ "pem block PRIV").
  reflexivity.
Defined.

(** X7: whatever happens, GetSSHKey reads and writes two paths only, the
    private and the public key file of the data directory: every other
    file is as before, no file is removed, and the data directory of the
    hub is unchanged. *)
Theorem GetSSHKey_touches_only_the_key_files
    (env : Hub.KeyEnv) (h : Hub.Hub) (fs : Hub.FS) :
  let out := Hub.GetSSHKey env h fs in
  Hub.DataDir out.1.1.2 = Hub.DataDir h
  ∧ (∀ path, path ≠ Hub.privPath (Hub.DataDir h) →
             path ≠ Hub.pubPath (Hub.DataDir h) →
             out.1.2 !! path = fs !! path)
  ∧ (∀ path, is_Some (fs !! path) → is_Some (out.1.2 !! path)).
Proof.
  cbv zeta. split; [apply GetSSHKey_DataDir|].
  assert (∀ path, path ≠ Hub.privPath (Hub.DataDir h) →
                  path ≠ Hub.pubPath (Hub.DataDir h) →
                  (Hub.GetSSHKey env h fs).1.2 !! path = fs !! path) as Hframe.
  { intros path Hp Hq. unfold Hub.GetSSHKey.
    destruct (Hub.os_ReadFile fs (Hub.privPath _)); [done|].
    by apply generateKeyPair_frame. }
  split; [exact Hframe|].
  intros path Hsome.
  destruct (decide (path = Hub.privPath (Hub.DataDir h))) as [->|Hp].
  - destruct Hsome as [k Hk]. by rewrite (GetSSHKey_existing env h fs k Hk).
  - destruct (decide (path = Hub.pubPath (Hub.DataDir h))) as [->|Hq];
      [|by rewrite Hframe].
    destruct (fs !! Hub.privPath (Hub.DataDir h)) as [k|] eqn:Hpriv.
    { by rewrite (GetSSHKey_existing env h fs k Hpriv). }
    unfold Hub.GetSSHKey. rewrite (os_ReadFile_Err _ _ Hpriv).
    unfold Hub.generateKeyPair.
    destruct (Hub.ed25519_GenerateKey env) as [[pub priv]|]; [|done].
    destruct (Hub.ssh_MarshalPrivateKey env priv); [|done].
    destruct (Hub.os_Create env (Hub.privPath _)); [done|].
    destruct (Hub.pem_Encode env _); cbn [fst snd];
      [|by rewrite lookup_insert_ne].
    destruct (Hub.ssh_NewPublicKey env pub); cbn [fst snd];
      [|by rewrite !lookup_insert_ne].
    destruct (Hub.os_Create env (Hub.pubPath _)); cbn [fst snd];
      [by rewrite !lookup_insert_ne|].
    destruct (Hub.file_Write env _ _); cbn [fst snd];
      rewrite lookup_insert_eq; eauto.
Qed.

(** X8: a generation that fails is not undone.  With the private key file
    absent, that file exists after the call exactly when the key was
    generated and marshalled and the file could be created; if it does not
    exist, the files and the hub are unchanged.  If the call failed after
    creating it, every later call returns the content of that file as the
    key and never generates a pair, even though no complete pair was ever
    written. *)
Theorem GetSSHKey_failed_generation_is_kept
    (env : Hub.KeyEnv) (h : Hub.Hub) (fs : Hub.FS) :
  fs !! Hub.privPath (Hub.DataDir h) = None →
  let out := Hub.GetSSHKey env h fs in
  (is_Some (out.1.2 !! Hub.privPath (Hub.DataDir h))
   ↔ ∃ pub priv block,
       Hub.ed25519_GenerateKey env = Go.Ok (pub, priv)
       ∧ Hub.ssh_MarshalPrivateKey env priv = Go.Ok block
       ∧ Hub.os_Create env (Hub.privPath (Hub.DataDir h)) = None)
  ∧ (¬ is_Some (out.1.2 !! Hub.privPath (Hub.DataDir h)) →
     out.1.2 = fs ∧ out.1.1.2 = h)
  ∧ (∀ left env',
       out.1.2 !! Hub.privPath (Hub.DataDir h) = Some left →
       (Hub.GetSSHKey env' out.1.1.2 out.1.2).1.1.1 = Go.Ok left
       ∧ Hub.generated (Hub.GetSSHKey env' out.1.1.2 out.1.2).2 = false
       ∧ (Hub.GetSSHKey env' out.1.1.2 out.1.2).1.2 = out.1.2).
Proof.
  intros Hpriv. cbv zeta.
  assert (Hub.GetSSHKey env h fs = Hub.generateKeyPair env h fs) as ->
    by (unfold Hub.GetSSHKey; by rewrite (os_ReadFile_Err _ _ Hpriv)).
  destruct (generateKeyPair_private_file env h fs Hpriv) as [Hiff Hnot].
  split; [exact Hiff|]. split; [exact Hnot|].
  intros left env' Hleft.
  pose proof (generateKeyPair_DataDir env h fs) as Hdir.
  set (out := Hub.generateKeyPair env h fs) in *.
  rewrite (GetSSHKey_existing env' out.1.1.2 out.1.2 left)
    by (by rewrite Hdir).
  done.
Qed.

Lemma GetSSHKey_failed_generation_is_kept_witness :
  let out := Hub.GetSSHKey Scenario.keyEnv_no_public Scenario.hub ∅ in
  out.1.1.1 = Go.Err "permission denied"
  ∧ (Hub.GetSSHKey Scenario.keyEnv out.1.1.2 out.1.2).1.1.1
    = Go.Ok "pem block PRIV"
  ∧ Hub.generated (Hub.GetSSHKey Scenario.keyEnv out.1.1.2 out.1.2).2 = false
  ∧ out.1.2 !! "/data/id_ed25519.pub" = None.
Proof.
  split; [reflexivity|].
  destruct (GetSSHKey_failed_generation_is_kept Scenario.keyEnv_no_public
              Scenario.hub ∅ (lookup_empty _)) as (_ & _ & Hlater).
  destruct (Hlater "pem block PRIV" Scenario.keyEnv) as (Hkey & Hgen & _);
    [reflexivity|].
  split; [exact Hkey|]. split; [exact Hgen|]. reflexivity.
Defined.

(* ===================================================================== *)
(** ** GetEnv *)
(* ===================================================================== *)

Section Environment.
Implicit Types (environ : Go.Environ) (key : string).

Lemma prefixed_ne (c : ascii) (prefix key : string) :
  String c prefix +:+ key ≠ key.
Proof.
  intros Heq. apply (f_equal String.length) in Heq.
  rewrite length_append in Heq. cbn in Heq. lia.
Qed.

Lemma prefixes_differ key :
  "BESZEL_AGENT_" +:+ key ≠ "BESZEL_HUB_" +:+ key.
Proof. cbn. intros [=]. Qed.

Lemma Agent_GetEnv_prefixed environ key v :
  environ !! ("BESZEL_AGENT_" +:+ key) = Some v →
  Agent.GetEnv environ key = (v, true).
Proof. unfold Agent.GetEnv, Go.os_LookupEnv. by intros ->. Qed.

Lemma Agent_GetEnv_fallback environ key :
  environ !! ("BESZEL_AGENT_" +:+ key) = None →
  Agent.GetEnv environ key = Go.os_LookupEnv environ key.
Proof. unfold Agent.GetEnv, Go.os_LookupEnv at 1. by intros ->. Qed.

Lemma Hub_GetEnv_prefixed environ key v :
  environ !! ("BESZEL_HUB_" +:+ key) = Some v →
  Hub.GetEnv environ key = (v, true).
Proof. unfold Hub.GetEnv, Go.os_LookupEnv. by intros ->. Qed.

Lemma Hub_GetEnv_fallback environ key :
  environ !! ("BESZEL_HUB_" +:+ key) = None →
  Hub.GetEnv environ key = Go.os_LookupEnv environ key.
Proof. unfold Hub.GetEnv, Go.os_LookupEnv at 1. by intros ->. Qed.

Lemma Agent_GetEnv_frame environ key k v :
  k ≠ key → k ≠ "BESZEL_AGENT_" +:+ key →
  Agent.GetEnv (<[k := v]> environ) key = Agent.GetEnv environ key.
Proof.
  intros Hk Hp. unfold Agent.GetEnv, Go.os_LookupEnv.
  by rewrite !lookup_insert_ne.
Qed.

Lemma Hub_GetEnv_frame environ key k v :
  k ≠ key → k ≠ "BESZEL_HUB_" +:+ key →
  Hub.GetEnv (<[k := v]> environ) key = Hub.GetEnv environ key.
Proof.
  intros Hk Hp. unfold Hub.GetEnv, Go.os_LookupEnv.
  by rewrite !lookup_insert_ne.
Qed.

Lemma Agent_GetEnv_exists environ key :
  (Agent.GetEnv environ key).2 = false
  ↔ environ !! ("BESZEL_AGENT_" +:+ key) = None ∧ environ !! key = None.
Proof.
  unfold Agent.GetEnv, Go.os_LookupEnv.
  destruct (environ !! ("BESZEL_AGENT_" +:+ key)); cbn.
  - split; [done | by intros []].
  - destruct (environ !! key); cbn; split; try done. by intros [].
Qed.

Lemma Hub_GetEnv_exists environ key :
  (Hub.GetEnv environ key).2 = false
  ↔ environ !! ("BESZEL_HUB_" +:+ key) = None ∧ environ !! key = None.
Proof.
  unfold Hub.GetEnv, Go.os_LookupEnv.
  destruct (environ !! ("BESZEL_HUB_" +:+ key)); cbn.
  - split; [done | by intros []].
  - destruct (environ !! key); cbn; split; try done. by intros [].
Qed.

Lemma Agent_GetEnv_absent environ key :
  (Agent.GetEnv environ key).2 = false → (Agent.GetEnv environ key).1 = "".
Proof.
  unfold Agent.GetEnv, Go.os_LookupEnv.
  destruct (environ !! ("BESZEL_AGENT_" +:+ key)); cbn; [done|].
  by destruct (environ !! key).
Qed.

Lemma Hub_GetEnv_absent environ key :
  (Hub.GetEnv environ key).2 = false → (Hub.GetEnv environ key).1 = "".
Proof.
  unfold Hub.GetEnv, Go.os_LookupEnv.
  destruct (environ !! ("BESZEL_HUB_" +:+ key)); cbn; [done|].
  by destruct (environ !! key).
Qed.

End Environment.

(** X9: GetEnv of the agent.  The variable with the prefix BESZEL_AGENT_
    wins whenever it is set, also when it is set to the empty string and
    the unprefixed one is not; without it the unprefixed variable
    answers; the variable is reported absent, with an empty value,
    exactly when neither is set.  No other variable has any influence, in
    particular not the one with the prefix of the hub. *)
Theorem Agent_GetEnv_precedence (environ : Go.Environ) (key : string) :
  (∀ v, environ !! ("BESZEL_AGENT_" +:+ key) = Some v →
        Agent.GetEnv environ key = (v, true))
  ∧ (environ !! ("BESZEL_AGENT_" +:+ key) = None →
     Agent.GetEnv environ key = Go.os_LookupEnv environ key)
  ∧ ((Agent.GetEnv environ key).2 = false
     ↔ environ !! ("BESZEL_AGENT_" +:+ key) = None ∧ environ !! key = None)
  ∧ ((Agent.GetEnv environ key).2 = false → (Agent.GetEnv environ key).1 = "")
  ∧ (∀ k v, k ≠ key → k ≠ "BESZEL_AGENT_" +:+ key →
            Agent.GetEnv (<[k := v]> environ) key = Agent.GetEnv environ key)
  ∧ (∀ v, Agent.GetEnv (<["BESZEL_HUB_" +:+ key := v]> environ) key
          = Agent.GetEnv environ key).
Proof.
  split; [apply Agent_GetEnv_prefixed|].
  split; [apply Agent_GetEnv_fallback|].
  split; [apply Agent_GetEnv_exists|].
  split; [apply Agent_GetEnv_absent|].
  split; [apply Agent_GetEnv_frame|].
  intros v. apply Agent_GetEnv_frame.
  - apply prefixed_ne.
  - intros Heq. by apply (prefixes_differ key).
Qed.

(** X10: GetEnv of the hub.  The variable with the prefix BESZEL_HUB_ wins
    whenever it is set, also when it is set to the empty string; without
    it the unprefixed variable answers; the variable is reported absent,
    with an empty value, exactly when neither is set.  No other variable
    has any influence, in particular not the one with the prefix of the
    agent. *)
Theorem Hub_GetEnv_precedence (environ : Go.Environ) (key : string) :
  (∀ v, environ !! ("BESZEL_HUB_" +:+ key) = Some v →
        Hub.GetEnv environ key = (v, true))
  ∧ (environ !! ("BESZEL_HUB_" +:+ key) = None →
     Hub.GetEnv environ key = Go.os_LookupEnv environ key)
  ∧ ((Hub.GetEnv environ key).2 = false
     ↔ environ !! ("BESZEL_HUB_" +:+ key) = None ∧ environ !! key = None)
  ∧ ((Hub.GetEnv environ key).2 = false → (Hub.GetEnv environ key).1 = "")
  ∧ (∀ k v, k ≠ key → k ≠ "BESZEL_HUB_" +:+ key →
            Hub.GetEnv (<[k := v]> environ) key = Hub.GetEnv environ key)
  ∧ (∀ v, Hub.GetEnv (<["BESZEL_AGENT_" +:+ key := v]> environ) key
          = Hub.GetEnv environ key).
Proof.
  split; [apply Hub_GetEnv_prefixed|].
  split; [apply Hub_GetEnv_fallback|].
  split; [apply Hub_GetEnv_exists|].
  split; [apply Hub_GetEnv_absent|].
  split; [apply Hub_GetEnv_frame|].
  intros v. apply Hub_GetEnv_frame.
  - apply prefixed_ne.
  - apply prefixes_differ.
Qed.

(* ===================================================================== *)
(** ** NewAgent *)
(* ===================================================================== *)

Section Split.
Implicit Types (sep : ascii) (s : string).

Lemma SplitOn_not_nil sep s : Go.SplitOn sep s ≠ [].
Proof.
  destruct s as [|c r]; cbn; [done|].
  destruct (Ascii.eqb c sep); [done|]. by destruct (Go.SplitOn sep r).
Qed.

(** The pieces joined by the separator give the string back. *)
Lemma SplitOn_concat sep s :
  String.concat (String sep EmptyString) (Go.SplitOn sep s) = s.
Proof.
  induction s as [|c r IH]; [done|]. cbn [Go.SplitOn].
  pose proof (SplitOn_not_nil sep r) as Hne.
  destruct (Ascii.eqb_spec c sep) as [->|Hc].
  - destruct (Go.SplitOn sep r) as [|p ps]; [done|].
    change (String.concat (String sep "") ("" :: p :: ps))
      with ("" +:+ String sep "" +:+ String.concat (String sep "") (p :: ps)).
    rewrite IH. reflexivity.
  - destruct (Go.SplitOn sep r) as [|p ps]; [done|].
    destruct ps as [|q qs].
    + change (String c p = String c r). f_equal. exact IH.
    + change (String c p +:+ String sep ""
                +:+ String.concat (String sep "") (q :: qs) = String c r).
      rewrite append_cons. f_equal. exact IH.
Qed.

(** No piece contains the separator. *)
Lemma SplitOn_no_sep sep s x :
  x ∈ Go.SplitOn sep s → Go.mem_ascii sep x = false.
Proof.
  revert x. induction s as [|c r IH]; intros x; cbn [Go.SplitOn].
  - intros ->%list_elem_of_singleton. done.
  - destruct (Ascii.eqb_spec c sep) as [->|Hc].
    + intros [->|Hin]%elem_of_cons; [done | by apply IH].
    + pose proof (SplitOn_not_nil sep r) as Hne.
      destruct (Go.SplitOn sep r) as [|p ps]; [done|].
      intros [->|Hin]%elem_of_cons.
      * cbn [Go.mem_ascii]. rewrite IH by left.
        destruct (Ascii.eqb_spec sep c); [congruence | done].
      * apply IH. by right.
Qed.

Lemma parseSensors_foldl (l : list string) (acc : gset string) (x : string) :
  x ∈ foldl (λ whitelist sensor,
               if String.eqb sensor "" then whitelist
               else {[sensor]} ∪ whitelist) acc l
  ↔ x ∈ acc ∨ (x ≠ "" ∧ x ∈ l).
Proof.
  revert acc. induction l as [|y l IH]; intros acc; cbn [foldl].
  - split; [by left | intros [?|[_ ?%elem_of_nil]]; done].
  - rewrite IH, elem_of_cons. destruct (String.eqb_spec y "") as [->|Hy].
    + split; [intros [?|[? ?]]; eauto | intros [?|[? [->|?]]]; eauto; done].
    + rewrite elem_of_union, elem_of_singleton.
      split; [intros [[->|?]|[? ?]]; eauto | intros [?|[? [->|?]]]; eauto].
Qed.

Lemma parseSensors_spec (sensors x : string) :
  x ∈ Agent.parseSensors sensors
  ↔ x ≠ "" ∧ x ∈ Go.SplitOn "," sensors.
Proof.
  unfold Agent.parseSensors. rewrite parseSensors_foldl.
  split; [intros [?%elem_of_empty|?]; done | by right].
Qed.

End Split.

Section Setup.
Import Agent.

(** The agent NewAgent allocates, before the debug collection. *)
Lemma NewAgent_cases (environ : Go.Environ) (init : Initializers) (w : World) :
  ((GetEnv environ "SYS_SENSORS").2 = true
   ∧ NewAgent environ init w
     = Panicked "cannot create context from nil parent")
  ∨ ((GetEnv environ "SYS_SENSORS").2 = false
     ∧ (GetEnv environ "LOG_LEVEL").2 = true
     ∧ Go.ToLower (GetEnv environ "LOG_LEVEL").1 = "debug"
     ∧ NewAgent environ init w
       = Panicked "interface conversion: interface {} is nil, not string")
  ∨ ((GetEnv environ "SYS_SENSORS").2 = false
     ∧ ¬ ((GetEnv environ "LOG_LEVEL").2 = true
          ∧ Go.ToLower (GetEnv environ "LOG_LEVEL").1 = "debug")
     ∧ ∃ effects,
         NewAgent environ init w
         = Returned
             ({| debug := false;
                 memCalc := (GetEnv environ "MEM_CALC").1;
                 sensorsContext := None;
                 sensorsWhitelist :=
                   match GetEnv environ "SENSORS" with
                   | (sensors, true) => Some (parseSensors sensors)
                   | (_, false) => None
                   end |},
              {| fsStats := init_fsStats init;
                 systemInfo := init_systemInfo init;
                 data := Some {| cd_Stats := {| stats_payload := [];
                                                ExtraFs := ∅ |};
                                 cd_Info := [];
                                 cd_Containers := [] |};
                 updated := Go.zeroTime;
                 sshUser := "" |},
              effects)).
Proof.
  unfold NewAgent.
  destruct (GetEnv environ "LOG_LEVEL") as [lvl [|]]; cbn [fst snd].
  - unfold logLevel.
    destruct (String.eqb_spec (Go.ToLower lvl) "debug") as [Hd|Hd].
    + destruct (GetEnv environ "SYS_SENSORS") as [sys [|]]; [by left|].
      right. left. done.
    + destruct (String.eqb (Go.ToLower lvl) "warn");
        [|destruct (String.eqb (Go.ToLower lvl) "error")];
        (destruct (GetEnv environ "SYS_SENSORS") as [sys [|]]; [by left|]);
        right; right; (split; [done|]); (split; [by intros [_ ?]|]);
        eexists; reflexivity.
  - destruct (GetEnv environ "SYS_SENSORS") as [sys [|]]; [by left|].
    right. right. split; [done|]. split; [by intros [? _]|].
    eexists; reflexivity.
Qed.

End Setup.

(** X11: NewAgent does not return when SYS_SENSORS is set, for then
    context.WithValue is handed the sensors context while it is still nil,
    nor when LOG_LEVEL lower-cases to "debug", for then the statistics
    are gathered with a context that carries no user: it panics in
    exactly these two cases.  When it returns, the debug flag is off, the
    sensors context is the background one, and the agent holds an empty
    buffer, no hub identity and the zero time, whatever the machine
    answered. *)
Theorem NewAgent_returns_iff
    (environ : Go.Environ) (init : Agent.Initializers) (w : Agent.World) :
  ((∃ msg, Agent.NewAgent environ init w = Panicked msg)
   ↔ (Agent.GetEnv environ "SYS_SENSORS").2 = true
     ∨ ((Agent.GetEnv environ "LOG_LEVEL").2 = true
        ∧ Go.ToLower (Agent.GetEnv environ "LOG_LEVEL").1 = "debug"))
  ∧ (∀ setup agent effects,
       Agent.NewAgent environ init w = Returned (setup, agent, effects) →
       Agent.debug setup = false
       ∧ Agent.sensorsContext setup = None
       ∧ Agent.memCalc setup = (Agent.GetEnv environ "MEM_CALC").1
       ∧ Agent.data agent
         = Some {| Agent.cd_Stats := {| Agent.stats_payload := [];
                                        Agent.ExtraFs := ∅ |};
                   Agent.cd_Info := [];
                   Agent.cd_Containers := [] |}
       ∧ Agent.updated agent = Go.zeroTime
       ∧ Agent.sshUser agent = ""
       ∧ ∀ w', Agent.NewAgent environ init w'
               = Returned (setup, agent, effects)).
Proof.
  split.
  - destruct (NewAgent_cases environ init w)
      as [[Hs ->]|[(Hs & Hl & Hd & ->)|(Hs & Hn & eff & ->)]].
    + split; eauto.
    + split; eauto.
    + split; [by intros [? ?]|]. intros [?|?]; [congruence | done].
  - intros setup agent effects Hret.
    destruct (NewAgent_cases environ init w)
      as [[Hs Heq]|[(Hs & Hl & Hd & Heq)|(Hs & Hn & eff & Heq)]];
      rewrite Heq in Hret; try discriminate.
    injection Hret as <- <- <-. cbn.
    repeat (split; [reflexivity|]).
    intros w'.
    destruct (NewAgent_cases environ init w')
      as [[Hs' Heq']|[(Hs' & Hl' & Hd' & Heq')|(Hs' & Hn' & eff' & Heq')]].
    + congruence.
    + exfalso. apply Hn. done.
    + rewrite Heq'. f_equal. f_equal.
      revert Heq Heq'. unfold Agent.NewAgent.
      destruct (Agent.GetEnv environ "SYS_SENSORS") as [sys [|]]; [done|].
      destruct (match Agent.GetEnv environ "LOG_LEVEL" with
                | (logLevelStr, true) => Agent.logLevel logLevelStr
                | (_, false) => (false, [])
                end) as [[|] lv].
      * destruct (Agent.gatherStats w None _) as [[[? ?] ?]|] eqn:Hg;
          [cbn in Hg; discriminate | discriminate].
      * intros [= <-] [= <-]. reflexivity.
Qed.

(** X12: the whitelist of sensors NewAgent builds.  With SENSORS unset the
    whitelist is nil.  With SENSORS set it is a set, possibly empty: a
    name is in it exactly when it is a non-empty piece of the value split
    at the commas, so no name in it contains a comma, and a value made of
    commas only gives the empty set rather than nil. *)
Theorem NewAgent_sensors_whitelist
    (environ : Go.Environ) (init : Agent.Initializers) (w : Agent.World)
    (setup : Agent.Setup) (agent : Agent.Agent)
    (effects : list Agent.SetupEffect) :
  Agent.NewAgent environ init w = Returned (setup, agent, effects) →
  ((Agent.GetEnv environ "SENSORS").2 = false →
   Agent.sensorsWhitelist setup = None)
  ∧ ((Agent.GetEnv environ "SENSORS").2 = true →
     ∃ whitelist,
       Agent.sensorsWhitelist setup = Some whitelist
       ∧ String.concat ","
           (Go.SplitOn "," (Agent.GetEnv environ "SENSORS").1)
         = (Agent.GetEnv environ "SENSORS").1
       ∧ (∀ x, x ∈ whitelist
               ↔ x ≠ ""
                 ∧ x ∈ Go.SplitOn "," (Agent.GetEnv environ "SENSORS").1)
       ∧ (∀ x, x ∈ whitelist → Go.mem_ascii "," x = false)
       ∧ ((∀ x, x ∈ Go.SplitOn "," (Agent.GetEnv environ "SENSORS").1 →
                x = "")
          → whitelist = ∅)).
Proof.
  intros Hret.
  destruct (NewAgent_cases environ init w)
    as [[Hs Heq]|[(Hs & Hl & Hd & Heq)|(Hs & Hn & eff & Heq)]];
    rewrite Heq in Hret; try discriminate.
  injection Hret as <- <- <-. cbn [Agent.sensorsWhitelist].
  destruct (Agent.GetEnv environ "SENSORS") as [sensors [|]]; cbn [fst snd].
  - split; [done|]. intros _. exists (Agent.parseSensors sensors).
    split; [reflexivity|]. split; [apply SplitOn_concat|].
    split; [apply parseSensors_spec|]. split.
    + intros x [_ Hin]%parseSensors_spec. by apply (SplitOn_no_sep _ sensors).
    + intros Hall. apply set_eq. intros x. rewrite parseSensors_spec.
      split; [|by intros ?%elem_of_empty].
      intros [Hx Hin]. destruct Hx. by apply Hall.
  - split; [done|]. intros [=].
Qed.

Lemma NewAgent_sensors_whitelist_witness :
  ∃ setup agent effects,
    Agent.NewAgent Scenario.environ_sensors Scenario.initializers
      Scenario.world0 = Returned (setup, agent, effects)
    ∧ Agent.sensorsWhitelist setup = Some {[ "cpu_thermal"; "nvme" ]}.
Proof.
  destruct (NewAgent_cases Scenario.environ_sensors Scenario.initializers
              Scenario.world0)
    as [[Hs _]|[(_ & _ & Hd & _)|(_ & _ & eff & Heq)]];
    [discriminate Hs | discriminate Hd |].
  eexists _, _, eff. split; [exact Heq|].
  destruct (NewAgent_sensors_whitelist _ _ _ _ _ _ Heq) as [_ Hset].
  destruct (Hset eq_refl) as (whitelist & Hwl & _ & Hmem & _).
  rewrite Hwl. f_equal. apply set_eq. intros x. rewrite Hmem.
  change (Go.SplitOn "," _) with ["cpu_thermal"; ""; "nvme"].
  rewrite !elem_of_cons, elem_of_nil, elem_of_union, !elem_of_singleton.
  split; [intros [? [ -> | [ -> | [ -> | [] ] ] ] ]; auto; done|].
  intros [ -> | -> ]; split; auto; discriminate.
Defined.

(** X13: the first poll of an agent NewAgent returned always collects:
    whoever asks, nothing is served from the empty buffer, provided the
    clock reads at least the cache time after the zero time or the
    context carries the empty user; the call does not panic, and the
    agent then remembers who asked and when. *)
Theorem first_poll_after_NewAgent_collects
    (environ : Go.Environ) (init : Agent.Initializers) (w0 w : Agent.World)
    (setup : Agent.Setup) (agent : Agent.Agent)
    (effects : list Agent.SetupEffect) (user : string) :
  Agent.NewAgent environ init w0 = Returned (setup, agent, effects) →
  Agent.cacheTime ≤ Agent.now_entry w ∨ user = "" →
  Agent.gatherStats w (Some user) agent
  = Returned (Agent.fresh w agent, Agent.recollected w user agent,
              Agent.fresh_trace w)
  ∧ Agent.collected (Agent.fresh_trace w) = true.
Proof.
  intros Hret Hclock.
  destruct (NewAgent_cases environ init w0)
    as [[Hs Heq]|[(Hs & Hl & Hd & Heq)|(Hs & Hn & eff & Heq)]];
    rewrite Heq in Hret; try discriminate.
  injection Hret as <- <- <-. split; [|reflexivity].
  unfold Agent.gatherStats.
  match goal with |- context [Agent.useCache w user ?a] =>
    assert (Agent.useCache w user a = false) as ->
  end; [|reflexivity].
  apply not_true_is_false. rewrite useCache_true. cbn.
  intros (Hlt & Hu & _). destruct Hclock as [Hc| ->]; [|done].
  revert Hlt Hc. unfold Agent.time_Since, Go.Time_Sub, Go.zeroTime,
    Agent.cacheTime, Go.maxInt64, Go.minInt64, Go.Second.
  repeat case_match; lia.
Qed.

Lemma first_poll_after_NewAgent_collects_witness :
  ∃ setup agent effects,
    Agent.NewAgent Scenario.environ_sensors Scenario.initializers
      Scenario.world0 = Returned (setup, agent, effects)
    ∧ Agent.gatherStats Scenario.world1 (Some "hub-a") agent
      = Returned (Agent.fresh Scenario.world1 agent,
                  Agent.recollected Scenario.world1 "hub-a" agent,
                  Agent.fresh_trace Scenario.world1).
Proof.
  destruct (NewAgent_cases Scenario.environ_sensors Scenario.initializers
              Scenario.world0)
    as [[Hs _]|[(_ & _ & Hd & _)|(_ & _ & eff & Heq)]];
    [discriminate Hs | discriminate Hd |].
  eexists _, _, eff. split; [exact Heq|].
  apply (first_poll_after_NewAgent_collects _ _ _ Scenario.world1 _ _ _
           "hub-a" Heq).
  left. vm_compute. discriminate.
Defined.

(* ===================================================================== *)
(** ** Hub.initialize *)
(* ===================================================================== *)

Section Initialize.
Import Hub.
Variable environ : Go.Environ.
Variable save : string → Collection → Go.error.
Variable appURL : string.

(** The settings, the users collection and the systems collection as
    initialize leaves them. *)
Local Abbreviation settingsAfter a :=
  {| Batch_Enabled := true;
     Meta_AppURL := if String.eqb appURL "" then Meta_AppURL (settings a)
                    else appURL |}.

Local Abbreviation usersAfter u :=
  {| PasswordAuth :=
       {| pa_Enabled :=
            negb (String.eqb (GetEnv environ "DISABLE_PASSWORD_AUTH").1 "true");
          IdentityFields := ["email"] |};
     OAuth2 :=
       {| oa_Enabled := if oa_Enabled (OAuth2 u)
                        then Nat.ltb 0 (length (Providers (OAuth2 u)))
                        else false;
          Providers := Providers (OAuth2 u) |};
     CreateRule := if String.eqb (GetEnv environ "USER_CREATION").1 "true"
                   then Some oauth2CreateRule else None;
     ListRule := ListRule u;
     ViewRule := ViewRule u;
     UpdateRule := UpdateRule u;
     DeleteRule := DeleteRule u |}.

Local Abbreviation readRule :=
  (if negb (String.eqb (GetEnv environ "SHARE_ALL_SYSTEMS").1 "true")
   then authenticatedRule +:+ assignedClause
   else authenticatedRule).

Local Abbreviation systemsAfter s :=
  {| PasswordAuth := PasswordAuth s;
     OAuth2 := OAuth2 s;
     CreateRule := CreateRule s;
     ListRule := Some readRule;
     ViewRule := Some readRule;
     UpdateRule := Some (readRule +:+ notReadonlyClause);
     DeleteRule := Some (readRule +:+ notReadonlyClause) |}.

(** The five ways through initialize. *)
Lemma initialize_cases (a : AppData) :
  (collections a !! "users" = None
   ∧ initialize environ save appURL a
     = (Some "sql: no rows in result set",
        {| settings := settingsAfter a; collections := collections a |}))
  ∨ (∃ u err,
       collections a !! "users" = Some u
       ∧ save "users" (usersAfter u) = Some err
       ∧ initialize environ save appURL a
         = (Some err,
            {| settings := settingsAfter a; collections := collections a |}))
  ∨ (∃ u,
       collections a !! "users" = Some u
       ∧ save "users" (usersAfter u) = None
       ∧ collections a !! "systems" = None
       ∧ initialize environ save appURL a
         = (Some "sql: no rows in result set",
            {| settings := settingsAfter a;
               collections := <["users" := usersAfter u]> (collections a) |}))
  ∨ (∃ u s err,
       collections a !! "users" = Some u
       ∧ save "users" (usersAfter u) = None
       ∧ collections a !! "systems" = Some s
       ∧ save "systems" (systemsAfter s) = Some err
       ∧ initialize environ save appURL a
         = (Some err,
            {| settings := settingsAfter a;
               collections := <["users" := usersAfter u]> (collections a) |}))
  ∨ (∃ u s,
       collections a !! "users" = Some u
       ∧ save "users" (usersAfter u) = None
       ∧ collections a !! "systems" = Some s
       ∧ save "systems" (systemsAfter s) = None
       ∧ initialize environ save appURL a
         = (None,
            {| settings := settingsAfter a;
               collections :=
                 <["systems" := systemsAfter s]>
                   (<["users" := usersAfter u]> (collections a)) |})).
Proof.
  unfold initialize, FindCollectionByNameOrId. cbn [collections settings].
  destruct (collections a !! "users") as [u|] eqn:Hu; [|by left].
  right.
  destruct (save "users" (usersAfter u)) as [err|] eqn:Hsu;
    [left; exists u, err; done|].
  right.
  rewrite lookup_insert_ne by discriminate.
  destruct (collections a !! "systems") as [s|] eqn:Hs;
    [|left; exists u; done].
  right.
  destruct (save "systems" (systemsAfter s)) as [err|] eqn:Hss.
  - left. exists u, s, err. done.
  - right. exists u, s. done.
Qed.

Lemma usersAfter_idempotent (u : Collection) :
  usersAfter (usersAfter u) = usersAfter u.
Proof.
  cbn [PasswordAuth OAuth2 oa_Enabled Providers CreateRule ListRule
       ViewRule UpdateRule DeleteRule].
  destruct (oa_Enabled (OAuth2 u)); [|reflexivity].
  destruct (0 <? length (Providers (OAuth2 u)))%nat; reflexivity.
Qed.

Lemma readRule_authenticated :
  Go.HasPrefix readRule authenticatedRule = true
  ∧ (readRule = authenticatedRule
     ↔ (GetEnv environ "SHARE_ALL_SYSTEMS").1 = "true").
Proof.
  destruct (String.eqb_spec (GetEnv environ "SHARE_ALL_SYSTEMS").1 "true")
    as [Heq|Hne]; cbn [negb].
  - split; [reflexivity | done].
  - split; [reflexivity|]. split; [discriminate | done].
Qed.

(** X14: initialize is idempotent: run again on the application a
    successful run left, with the same environment, it succeeds and
    changes nothing. *)
Theorem initialize_is_idempotent (a a1 : AppData) :
  initialize environ save appURL a = (None, a1) →
  initialize environ save appURL a1 = (None, a1).
Proof.
  intros Hrun.
  destruct (initialize_cases a)
    as [[_ Heq]|[(u & e & _ & _ & Heq)|[(u & _ & _ & _ & Heq)
       |[(u & s & e & _ & _ & _ & _ & Heq)|(u & s & Hu & Hsu & Hs & Hss & Heq)]]]];
    rewrite Heq in Hrun; try discriminate.
  injection Hrun as <-. clear Heq.
  set (a1 := {| settings := settingsAfter a;
                collections := <["systems" := systemsAfter s]>
                                 (<["users" := usersAfter u]> (collections a)) |}).
  assert (collections a1 !! "users" = Some (usersAfter u)) as Hu1.
  { cbn. rewrite lookup_insert_ne by discriminate. apply lookup_insert_eq. }
  assert (collections a1 !! "systems" = Some (systemsAfter s)) as Hs1.
  { cbn. apply lookup_insert_eq. }
  assert (settingsAfter a1 = settings a1) as Hset.
  { cbn. by destruct (String.eqb appURL ""). }
  assert (<["users" := usersAfter u]> (collections a1) = collections a1) as Hcu
    by (by apply insert_id).
  assert (<["systems" := systemsAfter s]> (collections a1) = collections a1)
    as Hcs by (by apply insert_id).
  destruct (initialize_cases a1)
    as [[Hu' _]|[(u' & e & Hu' & Hsu' & _)|[(u' & Hu' & _ & Hs' & _)
       |[(u' & s' & e & Hu' & _ & Hs' & Hss' & _)
        |(u' & s' & Hu' & _ & Hs' & _ & ->)]]]];
    rewrite Hu1 in Hu'; try discriminate; injection Hu' as <-;
    try (rewrite Hs1 in Hs'; try discriminate; injection Hs' as <-).
  - rewrite usersAfter_idempotent in Hsu'. congruence.
  - change (systemsAfter (systemsAfter s)) with (systemsAfter s) in Hss'.
    congruence.
  - rewrite usersAfter_idempotent.
    change (systemsAfter (systemsAfter s)) with (systemsAfter s).
    rewrite Hcu, Hcs, Hset. reflexivity.
Qed.

(** X15: what a successful initialize leaves.  Batch requests are on and
    a non-empty app URL is stored.  In the users collection password
    authentication is off exactly when DISABLE_PASSWORD_AUTH is "true",
    the identity field is the email, OAuth2 is on only if it was on and
    has a provider, and the create rule exists exactly when USER_CREATION
    is "true".  In the systems collection the list and view rules are one
    rule and the update and delete rules are that rule extended by the
    readonly exclusion; the rule starts with the authentication test, and
    is nothing more than that test exactly when SHARE_ALL_SYSTEMS is
    "true".  Every other collection is untouched. *)
Theorem initialize_configures_collections (a a1 : AppData) :
  initialize environ save appURL a = (None, a1) →
  ∃ u s u1 s1,
    collections a !! "users" = Some u
    ∧ collections a !! "systems" = Some s
    ∧ collections a1 !! "users" = Some u1
    ∧ collections a1 !! "systems" = Some s1
    ∧ Batch_Enabled (settings a1) = true
    ∧ (appURL ≠ "" → Meta_AppURL (settings a1) = appURL)
    ∧ (appURL = "" → Meta_AppURL (settings a1) = Meta_AppURL (settings a))
    ∧ (pa_Enabled (PasswordAuth u1) = false
       ↔ (GetEnv environ "DISABLE_PASSWORD_AUTH").1 = "true")
    ∧ IdentityFields (PasswordAuth u1) = ["email"]
    ∧ (oa_Enabled (OAuth2 u1) = true
       ↔ oa_Enabled (OAuth2 u) = true ∧ Providers (OAuth2 u) ≠ [])
    ∧ (is_Some (CreateRule u1)
       ↔ (GetEnv environ "USER_CREATION").1 = "true")
    ∧ (∃ rule,
         ListRule s1 = Some rule ∧ ViewRule s1 = Some rule
         ∧ UpdateRule s1 = Some (rule +:+ notReadonlyClause)
         ∧ DeleteRule s1 = Some (rule +:+ notReadonlyClause)
         ∧ Go.HasPrefix rule authenticatedRule = true
         ∧ (rule = authenticatedRule
            ↔ (GetEnv environ "SHARE_ALL_SYSTEMS").1 = "true"))
    ∧ (∀ name, name ≠ "users" → name ≠ "systems" →
               collections a1 !! name = collections a !! name).
Proof.
  intros Hrun.
  destruct (initialize_cases a)
    as [[_ Heq]|[(u & e & _ & _ & Heq)|[(u & _ & _ & _ & Heq)
       |[(u & s & e & _ & _ & _ & _ & Heq)|(u & s & Hu & Hsu & Hs & Hss & Heq)]]]];
    rewrite Heq in Hrun; try discriminate.
  injection Hrun as <-. clear Heq.
  exists u, s, (usersAfter u), (systemsAfter s).
  cbn [collections settings Batch_Enabled Meta_AppURL PasswordAuth OAuth2
       pa_Enabled IdentityFields oa_Enabled Providers CreateRule ListRule
       ViewRule UpdateRule DeleteRule].
  split; [exact Hu|]. split; [exact Hs|].
  split; [rewrite lookup_insert_ne by discriminate; apply lookup_insert_eq|].
  split; [apply lookup_insert_eq|].
  split; [reflexivity|].
  split; [intros Hne%String_eqb_false_iff; by rewrite Hne|].
  split; [by intros ->|].
  split.
  { rewrite negb_false_iff. apply String.eqb_eq. }
  split; [reflexivity|].
  split.
  { destruct (oa_Enabled (OAuth2 u)); [|split; [done | by intros []]].
    destruct (Providers (OAuth2 u)); cbn; split; try done.
    by intros [_ ?]. }
  split.
  { destruct (String.eqb_spec (GetEnv environ "USER_CREATION").1 "true")
      as [Heq|Hne].
    - split; [done | eauto].
    - split; [by intros [? ?] | done]. }
  split.
  { exists readRule. repeat (split; [reflexivity|]).
    apply readRule_authenticated. }
  intros name Hnu Hns. by rewrite !lookup_insert_ne.
Qed.

(** X16: a failing initialize is not undone.  Whatever fails, batch
    requests are already switched on and a non-empty app URL is already
    stored; the systems collection and every collection but users are as
    before; and if the users collection differs from before, then its new
    configuration was saved without error, so the failure of the systems
    step leaves the users step in force.  When saving never fails,
    initialize fails exactly when one of the two collections is missing. *)
Theorem initialize_failure_keeps_earlier_steps (a a1 : AppData) (err : string) :
  initialize environ save appURL a = (Some err, a1) →
  Batch_Enabled (settings a1) = true
  ∧ (appURL ≠ "" → Meta_AppURL (settings a1) = appURL)
  ∧ (∀ name, name ≠ "users" →
             collections a1 !! name = collections a !! name)
  ∧ (collections a1 !! "users" ≠ collections a !! "users" →
     ∃ u1, collections a1 !! "users" = Some u1 ∧ save "users" u1 = None)
  ∧ ((∀ name collection, save name collection = None) →
     collections a !! "users" = None ∨ collections a !! "systems" = None).
Proof.
  intros Hrun.
  assert (appURL ≠ "" →
          (if String.eqb appURL "" then Meta_AppURL (settings a) else appURL)
          = appURL) as Hurl
    by (intros Hne%String_eqb_false_iff; by rewrite Hne).
  destruct (initialize_cases a)
    as [[Hu Heq]|[(u & e & Hu & Hsu & Heq)|[(u & Hu & Hsu & Hs & Heq)
       |[(u & s & e & Hu & Hsu & Hs & Hss & Heq)|(u & s & _ & _ & _ & _ & Heq)]]]];
    rewrite Heq in Hrun; try discriminate;
    injection Hrun as <- <-; clear Heq;
    cbn [collections settings Batch_Enabled Meta_AppURL];
    (split; [reflexivity|]); (split; [exact Hurl|]).
  - split; [done|]. split; [done|]. by left.
  - split; [done|]. split; [done|]. intros Hsave. by rewrite Hsave in Hsu.
  - split; [intros name Hn; by rewrite lookup_insert_ne|].
    split; [|by right].
    intros _. exists (usersAfter u). by rewrite lookup_insert_eq.
  - split; [intros name Hn; by rewrite lookup_insert_ne|].
    split; [|intros Hsave; by rewrite Hsave in Hss].
    intros _. exists (usersAfter u). by rewrite lookup_insert_eq.
Qed.

End Initialize.

Lemma initialize_is_idempotent_witness :
  let a1 := (Hub.initialize Scenario.environ_hub (λ _ _, None)
               "https://hub.example" Scenario.appData).2 in
  Hub.initialize Scenario.environ_hub (λ _ _, None) "https://hub.example" a1
  = (None, a1).
Proof.
  apply (initialize_is_idempotent Scenario.environ_hub (λ _ _, None)
           "https://hub.example" Scenario.appData).
  reflexivity.
Defined.

Lemma initialize_configures_collections_witness :
  ∃ u1 s1,
    Hub.collections
      (Hub.initialize Scenario.environ_hub (λ _ _, None)
         "https://hub.example" Scenario.appData).2 !! "users" = Some u1
    ∧ Hub.collections
        (Hub.initialize Scenario.environ_hub (λ _ _, None)
           "https://hub.example" Scenario.appData).2 !! "systems" = Some s1
    ∧ Hub.pa_Enabled (Hub.PasswordAuth u1) = false
    ∧ Hub.ListRule s1 = Some Hub.authenticatedRule.
Proof.
  destruct (initialize_configures_collections Scenario.environ_hub
              (λ _ _, None) "https://hub.example" Scenario.appData _ eq_refl)
    as (u & s & u1 & s1 & _ & _ & Hu1 & Hs1 & _ & _ & _ & Hpa & _ & _ & _
        & (rule & Hlist & _ & _ & _ & _ & Hshare) & _).
  exists u1, s1. split; [exact Hu1|]. split; [exact Hs1|].
  split; [by apply Hpa|].
  rewrite Hlist. f_equal. by apply Hshare.
Defined.

Lemma initialize_failure_keeps_earlier_steps_witness :
  let out := Hub.initialize Scenario.environ_hub Scenario.save_users_only
               "https://hub.example" Scenario.appData in
  out.1 = Some "database is locked"
  ∧ Hub.Batch_Enabled (Hub.settings out.2) = true
  ∧ Hub.Meta_AppURL (Hub.settings out.2) = "https://hub.example"
  ∧ Hub.collections out.2 !! "systems" = Some Scenario.emptyCollection.
Proof.
  destruct (initialize_failure_keeps_earlier_steps Scenario.environ_hub
              Scenario.save_users_only "https://hub.example"
              Scenario.appData _ "database is locked" eq_refl)
    as (Hbatch & Hurl & Hframe & _).
  split; [reflexivity|]. split; [exact Hbatch|].
  split; [by apply Hurl|].
  rewrite Hframe by discriminate. reflexivity.
Defined.

(* ===================================================================== *)
(** ** registerApiRoutes, startServer, StartHub *)
(* ===================================================================== *)

Section Substring.
Implicit Types (s t sub : string).

Lemma prefix_append s t : String.prefix s (s +:+ t) = true.
Proof.
  induction s as [|c s IH]; [by destruct t|].
  rewrite append_cons. cbn [String.prefix].
  destruct (ascii_dec c c); [exact IH | done].
Qed.

Lemma prefix_split s t :
  String.prefix s t = true → ∃ post, t = s +:+ post.
Proof.
  revert t. induction s as [|c s IH]; intros t.
  - intros _. by exists t.
  - destruct t as [|d t]; cbn [String.prefix]; [done|].
    destruct (ascii_dec c d) as [->|]; [|done].
    intros [post ->]%IH. exists post. by rewrite append_cons.
Qed.

(** [strings.Contains]: the substring occurs somewhere. *)
Lemma Contains_spec s sub :
  Go.Contains s sub = true ↔ ∃ pre post, s = pre +:+ sub +:+ post.
Proof.
  split.
  - induction s as [|c s IH]; cbn [Go.Contains]; unfold Go.HasPrefix.
    + rewrite orb_false_r. intros [post ->]%prefix_split. by exists "", post.
    + intros [[post ->]%prefix_split|[pre [post ->]]%IH]%orb_true_iff.
      * by exists "", post.
      * exists (String c pre), post. by rewrite append_cons.
  - intros (pre & post & ->). induction pre as [|c pre IH].
    + change ("" +:+ sub +:+ post) with (sub +:+ post).
      destruct (sub +:+ post) eqn:Heq; cbn [Go.Contains]; unfold Go.HasPrefix;
        rewrite <- Heq, prefix_append; reflexivity.
    + rewrite append_cons. cbn [Go.Contains]. rewrite IH. apply orb_true_r.
Qed.

Lemma Contains_tail c s sub :
  Go.Contains (String c s) sub = false →
  String.prefix sub (String c s) = false ∧ Go.Contains s sub = false.
Proof. cbn [Go.Contains]. unfold Go.HasPrefix. by intros [? ?]%orb_false_iff. Qed.

(** [strings.Replace] leaves a string without occurrence as it is. *)
Lemma replace_go_absent (old new : string) (n : option nat) s :
  Go.Contains s old = false → Go.replace_go old new n 0 s = s.
Proof.
  revert n. induction s as [|c s IH]; intros n Hno; [done|].
  apply Contains_tail in Hno as [Hp Hs]. cbn [Go.replace_go].
  destruct n as [[|k]|]; [done| |]; rewrite Hp, IH; done.
Qed.

End Substring.

Section Serve.
Import Hub.

Lemma HasSuffix_false_TrimSuffix (s suffix : string) :
  Go.HasSuffix s suffix = false → Go.TrimSuffix s suffix = s.
Proof. unfold Go.TrimSuffix. by intros ->. Qed.

Lemma basePath_cases (parsedPath : string) :
  (Go.HasSuffix parsedPath "/" = true ∧ basePath parsedPath = parsedPath)
  ∨ (Go.HasSuffix parsedPath "/" = false
     ∧ basePath parsedPath = parsedPath +:+ "/").
Proof.
  unfold basePath.
  destruct (Go.HasSuffix parsedPath "/") eqn:Hs.
  - left. split; [done|]. by apply TrimSuffix_restore.
  - right. split; [done|]. by rewrite HasSuffix_false_TrimSuffix.
Qed.

Lemma existsb_staticPaths (path : string) :
  existsb (Go.Contains path) staticPaths = true
  ↔ ∃ pre static post,
      static ∈ staticPaths ∧ path = pre +:+ static +:+ post.
Proof.
  rewrite existsb_exists. split.
  - intros (static & Hin%list_elem_of_In & (pre & post & ->)%Contains_spec).
    by exists pre, static, post.
  - intros (pre & static & post & Hin & ->). exists static.
    split; [by apply list_elem_of_In|]. apply Contains_spec. eauto.
Qed.

End Serve.

(** X17: registerApiRoutes never fails and only adds routes: the four GET
    routes always and the POST route that creates the first user exactly
    when the count of users read at registration is zero.  That count is
    taken without looking at its error, whereas the first-run handler
    answers true only if the count succeeded: when counting fails with a
    zero total, the route to create the first user is registered although
    first-run answers false.  The first-run handler always answers with
    status 200. *)
Theorem registerApiRoutes_create_user_route
    (count : Z * Go.error) (router : list Hub.Route) :
  let create := {| Hub.method := "POST";
                   Hub.pattern := "/api/beszel/create-user";
                   Hub.handler := Hub.HCreateFirstUser |} in
  (Hub.registerApiRoutes count router).1 = None
  ∧ (∃ added,
       (Hub.registerApiRoutes count router).2 = (router ++ added)%list
       ∧ (∀ r, r ∈ added →
               (Hub.method r = "GET" ∨ r = create)
               ∧ Go.HasPrefix (Hub.pattern r) "/api/beszel/" = true)
       ∧ NoDup (Hub.pattern <$> added)
       ∧ length (filter (λ r, Hub.method r = "GET") added) = 4%nat
       ∧ (create ∈ added ↔ count.1 = 0))
  ∧ (Hub.firstRun count).1 = Hub.StatusOK
  ∧ ((Hub.firstRun count).2 !! "firstRun" = Some true
     ↔ count.2 = None ∧ count.1 = 0)
  ∧ (∀ err, count = (0, Some err) →
            create ∈ (Hub.registerApiRoutes count router).2
            ∧ (Hub.firstRun count).2 !! "firstRun" = Some false).
Proof.
  destruct count as [total err]. cbv zeta. unfold Hub.registerApiRoutes.
  cbn [fst snd].
  split; [by destruct (total =? 0)|].
  split.
  { destruct (Z.eqb_spec total 0) as [->|Hne]; cbn [fst snd];
      rewrite <- ?app_assoc; eexists; (split; [reflexivity|]).
    - split.
      { intros r Hr. cbn in Hr.
        repeat (apply elem_of_cons in Hr as [->|Hr]; [cbn; auto|]).
        by apply elem_of_nil in Hr. }
      split; [refine (bool_decide_unpack _ _); vm_compute; exact I|].
      split; [reflexivity|].
      split; [intros _; reflexivity | intros _; set_solver].
    - split.
      { intros r Hr.
        repeat (apply elem_of_cons in Hr as [->|Hr]; [cbn; auto|]).
        by apply elem_of_nil in Hr. }
      split; [refine (bool_decide_unpack _ _); vm_compute; exact I|].
      split; [reflexivity|].
      split; [|done].
      intros Hr.
      repeat (apply elem_of_cons in Hr as [Hr|Hr]; [discriminate Hr|]).
      by apply elem_of_nil in Hr. }
  split; [reflexivity|].
  split.
  { unfold Hub.firstRun. cbv beta iota. cbn [snd].
    rewrite lookup_singleton_eq.
    split.
    - intros [= [Herr%bool_decide_eq_true Hz%Z.eqb_eq]%andb_true_iff]. done.
    - intros [-> ->]. reflexivity. }
  intros e [= -> ->]. split; [|reflexivity].
  cbn [Z.eqb snd]. rewrite !elem_of_app, list_elem_of_singleton. by right.
Qed.

(** X18: the production handler serves a static asset exactly when the
    path contains "/static/" or "/assets/", anywhere and not only at its
    start; such a reply gets the cache header and never the content
    security policy.  Every other path gets the index page with status
    200 and no cache header of the handler's; the policy header is set,
    and X-Frame-Options dropped, exactly when CSP is present in the
    environment, also when it is empty. *)
Theorem serveIndex_static_or_index
    (indexContent csp : string) (cspExists : bool) (path : string)
    (headers : gmap string string) :
  let reply := Hub.serveIndex indexContent csp cspExists path headers in
  (Hub.reply_body reply = Hub.BStatic
   ↔ ∃ pre static post,
       static ∈ Hub.staticPaths ∧ path = pre +:+ static +:+ post)
  ∧ (Hub.reply_body reply = Hub.BStatic →
     Hub.reply_headers reply
     = <["Cache-Control" := "public, max-age=2592000"]> headers
     ∧ Hub.reply_headers reply !! "Content-Security-Policy"
       = headers !! "Content-Security-Policy"
     ∧ Hub.reply_headers reply !! "X-Frame-Options"
       = headers !! "X-Frame-Options")
  ∧ (Hub.reply_body reply ≠ Hub.BStatic →
     Hub.reply_body reply = Hub.BHTML Hub.StatusOK indexContent
     ∧ Hub.reply_headers reply !! "Cache-Control" = headers !! "Cache-Control"
     ∧ (cspExists = true →
        Hub.reply_headers reply !! "Content-Security-Policy" = Some csp
        ∧ Hub.reply_headers reply !! "X-Frame-Options" = None)
     ∧ (cspExists = false → Hub.reply_headers reply = headers)).
Proof.
  cbv zeta. unfold Hub.serveIndex.
  pose proof (existsb_staticPaths path) as Hstatic.
  destruct (existsb (Go.Contains path) Hub.staticPaths);
    cbn [Hub.reply_body Hub.reply_headers].
  - split; [split; [intros _; by apply Hstatic | done]|].
    split; [|done]. intros _. split; [done|].
    by rewrite !lookup_insert_ne.
  - split.
    { split; [done|]. intros H. apply Hstatic in H. done. }
    split; [done|]. intros _. split; [done|].
    destruct cspExists.
    + split; [by rewrite lookup_insert_ne, lookup_delete_ne|].
      split; [|done]. intros _. split; [apply lookup_insert_eq|].
      rewrite lookup_insert_ne by done. apply lookup_delete_eq.
    + split; [done|]. split; done.
Qed.

(** X19: the base path startServer substitutes always ends in a slash and
    is the path of the app URL itself when that ends in a slash, and that
    path followed by a slash otherwise: one slash is added or none, none
    is ever removed, and normalising twice changes nothing. *)
Theorem basePath_normalised (parsedPath : string) :
  Go.HasSuffix (Hub.basePath parsedPath) "/" = true
  ∧ (Go.HasSuffix parsedPath "/" = true → Hub.basePath parsedPath = parsedPath)
  ∧ (Go.HasSuffix parsedPath "/" = false →
     Hub.basePath parsedPath = parsedPath +:+ "/")
  ∧ Go.HasPrefix (Hub.basePath parsedPath) parsedPath = true
  ∧ Hub.basePath (Hub.basePath parsedPath) = Hub.basePath parsedPath.
Proof.
  assert (Go.HasSuffix (Hub.basePath parsedPath) "/" = true) as Hends.
  { unfold Hub.basePath. apply HasSuffix_append. }
  split; [exact Hends|].
  destruct (basePath_cases parsedPath) as [[Hs Heq]|[Hs Heq]].
  - split; [done|]. split; [congruence|].
    split; [rewrite Heq; unfold Go.HasPrefix|].
    + rewrite <- (append_nil_r parsedPath) at 2. apply prefix_append.
    + by rewrite Heq at 1.
  - split; [congruence|]. split; [done|].
    split; [rewrite Heq; apply prefix_append|].
    by destruct (basePath_cases (Hub.basePath parsedPath)) as [[_ ?]|[? _]];
      [|congruence].
Qed.

(** X20: startServer fails exactly when the hub is not in dev mode and
    the app URL does not parse, and then registers nothing; otherwise it
    appends exactly one route, GET on every path.  In dev mode that is the
    proxy, whatever the app URL and the environment; in production it is a
    handler whose policy is what GetEnv answers for CSP, and whose page is
    the index file unchanged when that contains neither "./" nor the
    version placeholder. *)
Theorem startServer_registers_one_route
    (isDev : bool) (url_Parse : string → Go.result string)
    (indexFile Version : string) (environ : Go.Environ) (appURL : string)
    (router : list Hub.Route) :
  let out := Hub.startServer isDev url_Parse indexFile Version environ appURL
               router in
  (out.1 ≠ None ↔ isDev = false ∧ ∃ err, url_Parse appURL = Go.Err err)
  ∧ (out.1 ≠ None → out.2 = router)
  ∧ (out.1 = None →
     ∃ h, out.2 = (router ++ [ {| Hub.method := "GET";
                                  Hub.pattern := "/{path...}";
                                  Hub.handler := h |} ])%list
          ∧ (isDev = true → h = Hub.HDevProxy)
          ∧ (isDev = false →
             ∃ content,
               h = Hub.HIndex content (Hub.GetEnv environ "CSP").1
                     (Hub.GetEnv environ "CSP").2
               ∧ (Go.Contains indexFile "./" = false →
                  Go.Contains indexFile "{{V}}" = false →
                  content = indexFile))).
Proof.
  cbv zeta. unfold Hub.startServer. destruct isDev.
  - cbn [fst snd]. split; [split; [done | by intros [? _]]|].
    split; [done|]. intros _. eexists. split; [reflexivity|]. done.
  - destruct (url_Parse appURL) as [parsedPath|err]; cbn [fst snd].
    + destruct (Hub.GetEnv environ "CSP") as [csp cspExists]. cbn [fst snd].
      split; [split; [done | by intros [_ [? ?]]]|].
      split; [done|]. intros _. eexists. split; [reflexivity|].
      split; [done|]. intros _. eexists. split; [reflexivity|].
      intros Hdot Hv. unfold Go.ReplaceAll, Go.Replace.
      rewrite (replace_go_absent _ _ _ _ Hdot).
      by rewrite (replace_go_absent _ _ _ _ Hv).
    + split; [split; [eauto | done]|]. split; [done|]. done.
Qed.

(** X21: the hook StartHub binds to OnServe runs its steps in one fixed
    order, initialize, sync, routes, cron jobs, server, systems, next, and
    stops at the first that fails, returning that error: nothing after it
    runs.  All seven run exactly when initialize, the sync of the systems,
    startServer and the start of the system updates succeed, and the
    result is then that of the next handler.  The routes and the cron
    jobs are untouched unless initialize and the sync succeeded, and once
    the sync succeeded the two cron jobs are always added. *)
Theorem onServe_stops_at_first_error (env : Hub.ServeEnv) (sv : Hub.Server) :
  let out := Hub.onServe env sv in
  let appURL := Hub.NewHub_appURL (Hub.environ env) in
  let initialized :=
    (Hub.initialize (Hub.environ env) (Hub.save env) appURL (Hub.app sv)).1
    = None in
  let synced := Hub.syncSystemsWithConfig env = None in
  let served :=
    Hub.IsDev env = true ∨ ∃ path, Hub.url_Parse env appURL = Go.Ok path in
  ∃ n,
    (1 ≤ n ≤ 7)%nat
    ∧ Hub.steps out.2
      = (Hub.steps sv
         ++ take n [Hub.StepInitialize; Hub.StepSync; Hub.StepRoutes;
                    Hub.StepCron; Hub.StepServer; Hub.StepSystems;
                    Hub.StepNext])%list
    ∧ (n = 7%nat
       ↔ initialized ∧ synced ∧ served ∧ Hub.sm_Initialize env = None)
    ∧ (n = 7%nat → out.1 = Hub.Next env)
    ∧ (n ≠ 7%nat → out.1 ≠ None)
    ∧ ((2 < n)%nat ↔ initialized ∧ synced)
    ∧ (¬ (initialized ∧ synced) →
       Hub.router out.2 = Hub.router sv ∧ Hub.cron out.2 = Hub.cron sv)
    ∧ (initialized ∧ synced →
       Hub.cron out.2
       = (Hub.cron sv ++ [("delete old records", "8 * * * *");
                          ("create longer records", "*/10 * * * *")])%list)
    ∧ Hub.app out.2
      = (Hub.initialize (Hub.environ env) (Hub.save env) appURL
           (Hub.app sv)).2.
Proof.
  cbv zeta. unfold Hub.onServe.
  destruct (Hub.initialize _ _ _ _) as [[e1|] app1]; cbn [fst snd].
  { exists 1%nat. cbn [Hub.steps Hub.router Hub.cron Hub.app take].
    split; [lia|]. split; [reflexivity|].
    split; [split; [lia | by intros [? _]]|].
    split; [lia|]. split; [done|].
    split; [split; [lia | by intros [? _]]|].
    split; [done|]. split; [by intros [? _]|]. done. }
  destruct (Hub.syncSystemsWithConfig env) as [e2|].
  { exists 2%nat. cbn [Hub.steps Hub.router Hub.cron Hub.app take].
    rewrite <- app_assoc.
    split; [lia|]. split; [reflexivity|].
    split; [split; [lia | by intros (_ & ? & _)]|].
    split; [lia|]. split; [done|].
    split; [split; [lia | by intros [_ ?]]|].
    split; [done|]. split; [by intros [_ ?]|]. done. }
  assert ((Hub.registerApiRoutes (Hub.CountRecords_users env) (Hub.router sv)).1
          = None) as Hroutes.
  { unfold Hub.registerApiRoutes.
    destruct (Hub.CountRecords_users env) as [total e].
    by destruct (total =? 0). }
  destruct (Hub.registerApiRoutes _ _) as [e3 router1].
  cbn [fst] in Hroutes. subst e3.
  cbn [fst snd Hub.steps Hub.router Hub.cron Hub.app Hub.registerCronJobs].
  unfold Hub.startServer.
  destruct (Hub.IsDev env).
  - cbn [fst snd Hub.steps Hub.router Hub.cron Hub.app].
    destruct (Hub.sm_Initialize env) as [e6|].
    + exists 6%nat. cbn [snd fst Hub.steps Hub.router Hub.cron Hub.app take].
      rewrite <- !app_assoc.
      split; [lia|]. split; [reflexivity|].
      split; [split; [lia | by intros (_ & _ & _ & ?)]|].
      split; [lia|]. split; [done|].
      split; [split; [done | lia]|].
      split; [by intros []|]. done.
    + exists 7%nat. cbn [snd fst Hub.steps Hub.router Hub.cron Hub.app take].
      rewrite <- !app_assoc.
      split; [lia|]. split; [reflexivity|].
      split; [split; [intros _; repeat split; by left | done]|].
      split; [done|]. split; [done|].
      split; [split; [done | lia]|].
      split; [by intros []|]. done.
  - destruct (Hub.url_Parse env _) as [path|e5] eqn:Hparse.
    + destruct (Hub.GetEnv (Hub.environ env) "CSP") as [csp cspExists].
      cbn [fst snd Hub.steps Hub.router Hub.cron Hub.app].
      destruct (Hub.sm_Initialize env) as [e6|].
      * exists 6%nat. cbn [snd fst Hub.steps Hub.router Hub.cron Hub.app take].
        rewrite <- !app_assoc.
        split; [lia|]. split; [reflexivity|].
        split; [split; [lia | by intros (_ & _ & _ & ?)]|].
        split; [lia|]. split; [done|].
        split; [split; [done | lia]|].
        split; [by intros []|]. done.
      * exists 7%nat. cbn [snd fst Hub.steps Hub.router Hub.cron Hub.app take].
        rewrite <- !app_assoc.
        split; [lia|]. split; [reflexivity|].
        split; [split; [intros _; repeat split; right; eauto | done]|].
        split; [done|]. split; [done|].
        split; [split; [done | lia]|].
        split; [by intros []|]. done.
    + exists 5%nat. cbn [snd fst Hub.steps Hub.router Hub.cron Hub.app take].
      rewrite <- !app_assoc.
      split; [lia|]. split; [reflexivity|].
      split.
      { split; [lia|]. intros (_ & _ & [?|[? ?]] & _); congruence. }
      split; [lia|]. split; [done|].
      split; [split; [done | lia]|].
      split; [by intros []|]. done.
Qed.

(* ===================================================================== *)
(** ** A recovery reported before the worker has dequeued *)
(* ===================================================================== *)

Section Flapping.
Import Alerts.

Lemma filter_all_absent (m : gmap string alertInfo) (rs : list AlertRecord) :
  (∀ r, r ∈ rs → m !! Id r = None) →
  filter (λ r, m !! Id r = None) rs = rs
  ∧ filter (λ r, is_Some (m !! Id r)) rs = [].
Proof.
  induction rs as [|r rs IH]; intros Hall; [done|].
  rewrite !filter_cons.
  rewrite decide_True by (apply Hall; left).
  rewrite decide_False
    by (rewrite (Hall r) by left; by intros [? ?]).
  destruct IH as [-> ->]; [|done].
  intros r' Hr'. apply Hall. by right.
Qed.

End Flapping.

(** X22: a recovery that overtakes the worker.  From a reachable state
    with an empty queue in which no rule of the host has a pending alert:
    when the host goes down and is reported up again before the worker has
    dequeued anything, the "up" status alert is raised for every rule at
    once and no cancel task is sent; the worker then stores the late
    schedule tasks, and the first sweep after their expiry raises a "down"
    status alert for the rule, after the "up" one, although the host is
    up. *)
Theorem recovery_before_dequeue_still_alerts
    (app : Alerts.App) (sysId sysName : string)
    (rs : list Alerts.AlertRecord) (r : Alerts.AlertRecord)
    (am : Alerts.AlertManager) (t0 t1 fire : Go.Time)
    (dequeues : list Go.Time) :
  Alerts.reachable app am →
  Alerts.alertQueue am = [] →
  (∀ r', r' ∈ rs → Alerts.pendingAlerts am !! Alerts.Id r' = None) →
  Alerts.getSystemStatusAlerts app sysId = Go.Ok rs →
  NoDup (Alerts.Id <$> rs) →
  r ∈ rs →
  (length rs ≤ length dequeues)%nat →
  Forall (λ now, now + Alerts.delayToNotification r < fire) dequeues →
  let flap :=
    [Alerts.LStatus t0 "down" (Alerts.mkSystemRecord sysId sysName "up");
     Alerts.LStatus t1 "up" (Alerts.mkSystemRecord sysId sysName "down")] in
  let recovered := Alerts.run app flap am in
  let final :=
    Alerts.run app ((Alerts.LTask <$> dequeues) ++ [Alerts.LTick fire])%list
      recovered in
  List.filter (Alerts.raised "up" (Alerts.Id r)) (Alerts.trace recovered)
  = (List.filter (Alerts.raised "up" (Alerts.Id r)) (Alerts.trace am)
     ++ [Alerts.EvStatusAlert "up" sysName (Alerts.Id r)])%list
  ∧ Alerts.alertQueue recovered = Alerts.scheduleTask sysName <$> rs
  ∧ List.filter (Alerts.raised "down" (Alerts.Id r)) (Alerts.trace final)
    = (List.filter (Alerts.raised "down" (Alerts.Id r)) (Alerts.trace am)
       ++ [Alerts.EvStatusAlert "down" sysName (Alerts.Id r)])%list
  ∧ (∃ evs, Alerts.trace final = (Alerts.trace recovered ++ evs)%list
            ∧ Alerts.EvStatusAlert "down" sysName (Alerts.Id r) ∈ evs)
  ∧ Alerts.pendingAlerts final !! Alerts.Id r = None.
Proof.
  intros Hreach Hq Hall Hrs Hnd Hr Hlen Hfire flap recovered final.
  pose proof (reachable_keyed app am Hreach) as Hk.
  destruct (filter_all_absent (Alerts.pendingAlerts am) rs Hall)
    as [Habsent Hpending].
  (* the two status changes *)
  set (am1 := Alerts.handleSystemDown sysName rs am).
  assert (am1 = {| Alerts.pendingAlerts := Alerts.pendingAlerts am;
                   Alerts.alertQueue := Alerts.scheduleTask sysName <$> rs;
                   Alerts.trace := Alerts.trace am |}) as Ham1.
  { subst am1. rewrite handleSystemDown_spec, Habsent, Hq. reflexivity. }
  assert (recovered = Alerts.handleSystemUp app sysName rs am1) as Hrec.
  { subst recovered flap. unfold Alerts.run. cbn [foldl Alerts.step].
    rewrite (HandleStatusAlerts_down app
               (Alerts.mkSystemRecord sysId sysName "up") am rs eq_refl Hrs).
    cbn [snd Alerts.sys_name]. fold am1.
    rewrite (HandleStatusAlerts_up app
               (Alerts.mkSystemRecord sysId sysName "down") am1 rs eq_refl Hrs).
    reflexivity. }
  assert (Alerts.pendingAlerts am1 = Alerts.pendingAlerts am) as Hp1
    by (by rewrite Ham1).
  assert (recovered
          = {| Alerts.pendingAlerts := Alerts.pendingAlerts am;
               Alerts.alertQueue := Alerts.scheduleTask sysName <$> rs;
               Alerts.trace :=
                 (Alerts.trace am
                  ++ flat_map (Alerts.upEvents app sysName) rs)%list |})
    as Hrecovered.
  { rewrite Hrec, handleSystemUp_spec, Hp1, Habsent, Hpending, Ham1.
    cbn [Alerts.pendingAlerts Alerts.alertQueue Alerts.trace fmap list_fmap].
    by rewrite app_nil_r. }
  assert (Alerts.keyed (Alerts.pendingAlerts recovered)) as Hk2
    by (by rewrite Hrecovered).
  (* the worker dequeues the schedule tasks *)
  set (am3 := Alerts.workerTasks dequeues recovered).
  destruct (workerTasks_schedule sysName rs dequeues recovered)
    as (_ & _ & Hstored); [by rewrite Hrecovered | done |].
  destruct (Hstored Hnd r Hr) as (now & Hnow & Hinfo). fold am3 in Hinfo.
  assert (Alerts.trace am3 = Alerts.trace recovered) as Ht3
    by apply workerTasks_trace.
  assert (Alerts.keyed (Alerts.pendingAlerts am3)) as Hk3
    by (by apply workerTasks_keyed).
  (* the sweep *)
  assert (final = Alerts.workerTick app fire am3) as Hfinal.
  { subst final. rewrite run_app, run_LTask. reflexivity. }
  destruct (workerTick_fires app fire am3 (Alerts.Id r) _ Hk3 Hinfo)
    as (Hdown & _ & Hgone).
  { cbn. rewrite Forall_forall in Hfire. by apply Hfire. }
  cbn [Alerts.systemName] in Hdown.
  assert (List.filter (Alerts.raised "down" (Alerts.Id r))
            (Alerts.trace recovered)
          = List.filter (Alerts.raised "down" (Alerts.Id r)) (Alerts.trace am))
    as Hquiet.
  { rewrite Hrecovered. cbn [Alerts.trace]. rewrite List.filter_app.
    rewrite (filter_nil_of_about "down" (Alerts.Id r)
               (flat_map (Alerts.upEvents app sysName) rs))
      by apply upEvents_flat_map_down.
    by rewrite app_nil_r. }
  split; [|split; [|split; [|split]]].
  - rewrite Hrec.
    destruct (handleSystemUp_rules app sysName rs am1 Hnd)
      as (_ & _ & Hidle & _).
    destruct (Hidle r Hr) as [Hup _]; [rewrite Hp1; by apply Hall|].
    rewrite Hup. by rewrite Ham1.
  - by rewrite Hrecovered.
  - rewrite Hfinal, Hdown, Ht3, Hquiet. reflexivity.
  - rewrite Hfinal, workerTick_spec. cbn [Alerts.trace]. rewrite Ht3.
    eexists. split; [reflexivity|].
    rewrite workerTick_spec in Hdown. cbn [Alerts.trace] in Hdown.
    rewrite List.filter_app in Hdown. apply app_inv_head in Hdown.
    apply list_elem_of_In.
    apply (proj1 (List.filter_In (Alerts.raised "down" (Alerts.Id r)) _ _)).
    rewrite Hdown. by left.
  - by rewrite Hfinal.
Qed.

Lemma recovery_before_dequeue_still_alerts_witness :
  let final :=
    Alerts.run Scenario.app
      [Alerts.LStatus 0 "down" (Alerts.mkSystemRecord "s1" "web" "up");
       Alerts.LStatus Go.Second "up" (Alerts.mkSystemRecord "s1" "web" "down");
       Alerts.LTask (2 * Go.Second);
       Alerts.LTick (78 * Go.Second)]
      Alerts.NewAlertManager in
  List.filter (Alerts.raised "down" "r1") (Alerts.trace final)
  = [Alerts.EvStatusAlert "down" "web" "r1"]
  ∧ List.filter (Alerts.raised "up" "r1") (Alerts.trace final)
    = [Alerts.EvStatusAlert "up" "web" "r1"].
Proof.
  destruct (recovery_before_dequeue_still_alerts Scenario.app "s1" "web"
              [Scenario.rule1] Scenario.rule1 Alerts.NewAlertManager
              0 Go.Second (78 * Go.Second) [2 * Go.Second])
    as (_ & _ & Hdown & _).
  - by exists [].
  - reflexivity.
  - intros r' Hr'. apply lookup_empty.
  - reflexivity.
  - repeat constructor. apply not_elem_of_nil.
  - left.
  - cbn. lia.
  - repeat constructor.
  - split; [exact Hdown | reflexivity].
Defined.
